(** * ospd.misc: scan registry, target resolver and port-list parser

    A shallow embedding of [ospd/misc.py].  The package runs under
    Python 3 ([ospd/error.py] calls [super()] without arguments), so the
    semantics followed here are those of CPython 3 on Linux:

    - [str] values are Rocq strings; the development covers ASCII text
      (on ASCII [\w], [str.strip] and [int] coincide with the definitions
      below);
    - [bytes] values are lists of octets ([list Z], each in [0, 256));
    - an exception that leaves a function is a [Raise] result;
    - the clock and the UUID generator are read by the caller and passed
      in as arguments. *)

From Stdlib Require Import ZArith Ascii String List Lia.
From Stdlib Require Import DecimalString HexadecimalString.
From stdpp Require Import gmap strings list fin_maps sorting.

Local Open Scope Z_scope.

(** ** Exceptions and results *)

Inductive exn : Type :=
| KeyError
| TypeError
| ValueError
| IndexError
| StructError
| SocketError
| AssertionError.

Inductive result (A : Type) : Type :=
| Ok (a : A)
| Raise (e : exn).

Arguments Ok {A} a.
Arguments Raise {A} e.

Definition bind {A B : Type} (m : result A) (k : A -> result B) : result B :=
  match m with
  | Ok a => k a
  | Raise e => Raise e
  end.

Notation "'do' x <- m ; k" := (bind m (fun x => k))
  (at level 10, x name, m at level 100, k at level 200).

Fixpoint mapM {A B : Type} (f : A -> result B) (l : list A) : result (list B) :=
  match l with
  | [] => Ok []
  | x :: xs => do y <- f x; do ys <- mapM f xs; Ok (y :: ys)
  end.

(** ** Python strings *)

Module Str.

Definition mem (c : ascii) (s : string) : bool :=
  existsb (Ascii.eqb c) (list_ascii_of_string s).

Definition all (p : ascii -> bool) (s : string) : bool :=
  forallb p (list_ascii_of_string s).

Definition is_empty (s : string) : bool :=
  match s with EmptyString => true | _ => false end.

Definition len (s : string) : Z := Z.of_nat (String.length s).

(** [s.split(sep)] for a one-character separator. *)
Fixpoint split (sep : ascii) (s : string) : list string :=
  match s with
  | EmptyString => [EmptyString]
  | String c s' =>
      if Ascii.eqb c sep then EmptyString :: split sep s'
      else match split sep s' with
           | [] => [String c EmptyString]
           | w :: ws => String c w :: ws
           end
  end.

(** [sep.join(l)] *)
Fixpoint join (sep : string) (l : list string) : string :=
  match l with
  | [] => EmptyString
  | [x] => x
  | x :: xs => x +:+ sep +:+ join sep xs
  end.

(** Characters removed by [str.strip()]: TAB, LF, VT, FF, CR, FS, GS,
    RS, US and SPACE. *)
Definition is_space (c : ascii) : bool :=
  let n := nat_of_ascii c in
  ((9 <=? n) && (n <=? 13) || (28 <=? n) && (n <=? 32))%nat.

(** Characters skipped around the digits by [int()]: the C locale's
    white space, TAB to CR and SPACE. *)
Definition is_c_space (c : ascii) : bool :=
  let n := nat_of_ascii c in
  ((9 <=? n) && (n <=? 13) || (n =? 32))%nat.

Fixpoint lstrip_by (p : ascii -> bool) (s : string) : string :=
  match s with
  | EmptyString => EmptyString
  | String c s' => if p c then lstrip_by p s' else s
  end.

Fixpoint rstrip_by (p : ascii -> bool) (s : string) : string :=
  match s with
  | EmptyString => EmptyString
  | String c s' =>
      let r := rstrip_by p s' in
      if p c && is_empty r then EmptyString else String c r
  end.

Definition strip_by (p : ascii -> bool) (s : string) : string :=
  rstrip_by p (lstrip_by p s).

(** [s.strip()] *)
Definition strip (s : string) : string := strip_by is_space s.

(** [s.count(c)] *)
Fixpoint count (c : ascii) (s : string) : Z :=
  match s with
  | EmptyString => 0
  | String d s' => (if Ascii.eqb d c then 1 else 0) + count c s'
  end.

(** [s.replace(c, '')] *)
Fixpoint remove (c : ascii) (s : string) : string :=
  match s with
  | EmptyString => EmptyString
  | String d s' => if Ascii.eqb d c then remove c s' else String d (remove c s')
  end.

Fixpoint find_from (sub s : string) (i : nat) : option nat :=
  if String.prefix sub s then Some i
  else match s with
       | EmptyString => None
       | String _ s' => find_from sub s' (S i)
       end.

(** [s.find(sub)]: the lowest index, or -1. *)
Definition find (sub s : string) : Z :=
  match find_from sub s 0 with
  | Some i => Z.of_nat i
  | None => -1
  end.

(** [s.index(sub)]: like [find], but a miss is a [ValueError]. *)
Definition index (sub s : string) : result Z :=
  match find_from sub s 0 with
  | Some i => Ok (Z.of_nat i)
  | None => Raise ValueError
  end.

(** [s[i]], negative indices counting from the end. *)
Definition getitem (s : string) (i : Z) : result ascii :=
  let j := if i <? 0 then i + len s else i in
  if (j <? 0) || (len s <=? j) then Raise IndexError
  else match String.get (Z.to_nat j) s with
       | Some c => Ok c
       | None => Raise IndexError
       end.

(** A slice bound as Python normalises it: negative bounds count from
    the end and the result is clamped to [0, len]. *)
Definition clamp (n : Z) (i : Z) : Z :=
  let j := if i <? 0 then i + n else i in
  Z.max 0 (Z.min n j).

(** [s[lo:hi]] *)
Definition slice (s : string) (lo hi : Z) : string :=
  let a := clamp (len s) lo in
  let b := clamp (len s) hi in
  String.substring (Z.to_nat a) (Z.to_nat (b - a)) s.

(** [s[lo:]] *)
Definition slice_from (s : string) (lo : Z) : string :=
  let a := clamp (len s) lo in
  String.substring (Z.to_nat a) (Z.to_nat (len s - a)) s.

(** [s[:hi]] *)
Definition slice_to (s : string) (hi : Z) : string :=
  String.substring 0 (Z.to_nat (clamp (len s) hi)) s.

End Str.

(** ** Integers as text *)

Definition is_digit (c : ascii) : bool :=
  let n := nat_of_ascii c in ((48 <=? n) && (n <=? 57))%nat.

(** The value of a character as a digit in bases up to 16. *)
Definition digit_value (c : ascii) : option Z :=
  let n := Z.of_nat (nat_of_ascii c) in
  if (48 <=? n) && (n <=? 57) then Some (n - 48)
  else if (97 <=? n) && (n <=? 102) then Some (n - 87)
  else if (65 <=? n) && (n <=? 70) then Some (n - 55)
  else None.

(** The digit loop of [int(s, base)]: one underscore is allowed between
    two digits, nowhere else. *)
Fixpoint int_digits (base : Z) (s : string) (prev_us seen : bool) (acc : Z)
  : option Z :=
  match s with
  | EmptyString => if prev_us || negb seen then None else Some acc
  | String c r =>
      if Ascii.eqb c "_" then
        if prev_us || negb seen then None else int_digits base r true seen acc
      else match digit_value c with
           | Some d =>
               if d <? base then int_digits base r false true (acc * base + d)
               else None
           | None => None
           end
  end.

(** An optional sign in front of the digits. *)
Definition int_sign (s : string) : bool * string :=
  match s with
  | String "-" r => (true, r)
  | String "+" r => (false, r)
  | _ => (false, s)
  end.

(** In base 16 an optional [0x] or [0X] in front of the digits; one
    underscore may follow it. *)
Definition int_prefix (base : Z) (s : string) : string :=
  match s with
  | String "0" (String x r) =>
      if (base =? 16) && (Ascii.eqb x "x" || Ascii.eqb x "X") then
        match r with
        | String "_" r' => r'
        | _ => r
        end
      else s
  | _ => s
  end.

(** [int(s, base)] for base 10 or 16; [None] stands for [ValueError].
    Surrounding white space is skipped, a sign may follow, then (base 16
    only) an optional prefix, then the digits.  No limit is put on the
    number of digits; CPython 3.11 and later raise [ValueError] beyond
    [int_max_str_digits] decimal digits. *)
Definition py_int (base : Z) (s : string) : option Z :=
  let '(neg, s2) := int_sign (Str.strip_by Str.is_c_space s) in
  match int_digits base (int_prefix base s2) false false 0 with
  | Some v => Some (if neg then - v else v)
  | None => None
  end.

(** [str(n)], without the limit on the number of digits that CPython
    3.11 and later put on it ([int_max_str_digits] below). *)
Definition py_str (n : Z) : string :=
  DecimalString.NilZero.string_of_int (Z.to_int n).

(** ['%x' % n] for [n >= 0] *)
Definition py_hex (n : Z) : string :=
  HexadecimalString.NilZero.string_of_int (Z.to_hex_int n).

(** ** Bytes, [struct] and [binascii] *)

Definition bytes := list Z.

(** Big-endian value of an octet string. *)
Definition be_value (b : bytes) : Z :=
  fold_left (fun acc x => acc * 256 + x) b 0.

(** The [n] low octets of [v], most significant first. *)
Fixpoint be_bytes (n : nat) (v : Z) : bytes :=
  match n with
  | O => []
  | S k => be_bytes k (v / 256) ++ [v mod 256]
  end.

(** [struct.pack] of one unsigned integer of [n] octets in network order
    (['B'], ['!H'], ['!I'], ['!L'], ['!Q']). *)
Definition struct_pack (n : nat) (v : Z) : result bytes :=
  if (0 <=? v) && (v <? 256 ^ Z.of_nat n) then Ok (be_bytes n v)
  else Raise StructError.

(** [struct.unpack('!L', b)[0]] *)
Definition struct_unpack_L (b : bytes) : result Z :=
  if (length b =? 4)%nat then Ok (be_value b) else Raise StructError.

(** [struct.pack('!QQ', high, low)] *)
Definition struct_pack_QQ (high low : Z) : result bytes :=
  do h <- struct_pack 8 high; do l <- struct_pack 8 low; Ok (h ++ l).

Definition hex_digit (v : Z) : ascii :=
  ascii_of_nat (Z.to_nat (if v <? 10 then 48 + v else 87 + v)).

(** [binascii.hexlify(b)] *)
Fixpoint hexlify (b : bytes) : string :=
  match b with
  | [] => EmptyString
  | x :: xs => String (hex_digit (x / 16)) (String (hex_digit (x mod 16)) (hexlify xs))
  end.

(** [int(binascii.hexlify(b), 16)] *)
Definition int_hexlify (b : bytes) : result Z :=
  match py_int 16 (hexlify b) with
  | Some v => Ok v
  | None => Raise ValueError
  end.

(** [bytes(n)] for an integer [n >= 0]: [n] zero octets. *)
Definition bytes_of_int (n : Z) : bytes := repeat 0 (Z.to_nat n).

(** [a < b] on [bytes]: lexicographic order. *)
Fixpoint bytes_lt (a b : bytes) : bool :=
  match a, b with
  | _, [] => false
  | [], _ :: _ => true
  | x :: xs, y :: ys => (x <? y) || ((x =? y) && bytes_lt xs ys)
  end.

(** [b[lo:hi]] on [bytes], for bounds within the length. *)
Definition bytes_slice (b : bytes) (lo hi : nat) : bytes :=
  firstn (hi - lo) (skipn lo b).

(** [range(a, b)] *)
Definition py_range (a b : Z) : list Z :=
  map (fun i => a + Z.of_nat i) (seq 0 (Z.to_nat (b - a))).

(** [int(s)] and [int(s, 16)] as calls that may raise. *)
Definition int_of_str (base : Z) (s : string) : result Z :=
  match py_int base s with
  | Some v => Ok v
  | None => Raise ValueError
  end.

(** [b[i]] on [bytes] *)
Definition bytes_getitem (b : bytes) (i : nat) : result Z :=
  match nth_error b i with
  | Some x => Ok x
  | None => Raise IndexError
  end.

(** A [try] block whose handler returns [None] from the function: the
    exceptions selected by [catch] become [Ok None]. *)
Definition try_or_none {A : Type} (catch : exn -> bool) (m : result A)
  : result (option A) :=
  match m with
  | Ok a => Ok (Some a)
  | Raise e => if catch e then Ok None else Raise e
  end.

Definition is_socket_error (e : exn) : bool :=
  match e with SocketError => true | _ => false end.

Definition is_socket_or_value_error (e : exn) : bool :=
  match e with SocketError | ValueError => true | _ => false end.

(** ** The C library's address conversions *)

Module Inet.

Inductive family : Type := AF_INET | AF_INET6.

(** One field of a dotted quad: decimal digits, no leading zero before
    another digit, value at most 255. *)
Definition parse_octet (s : string) : option Z :=
  match s with
  | EmptyString => None
  | String c r =>
      if negb (Str.all is_digit s) then None
      else if Ascii.eqb c "0" && negb (Str.is_empty r) then None
      else match int_digits 10 s false false 0 with
           | Some v => if v <=? 255 then Some v else None
           | None => None
           end
  end.

(** [inet_pton(AF_INET, s)]: exactly four fields separated by dots. *)
Definition inet_pton4 (s : string) : option bytes :=
  match Str.split "." s with
  | [a; b; c; d] =>
      match parse_octet a, parse_octet b, parse_octet c, parse_octet d with
      | Some x, Some y, Some z, Some w => Some [x; y; z; w]
      | _, _, _, _ => None
      end
  | _ => None
  end.

(** [inet_ntoa]/[inet_ntop(AF_INET)] on four octets. *)
Definition inet_ntop4 (b : bytes) : string :=
  Str.join "." (map py_str b).

(** The character loop of [inet_pton(AF_INET6, s)].  [tp] holds the
    octets written so far, [colonp] the position of a [::], [seen] and
    [val] the hexadecimal digits of the current group, [curtok] the text
    from the start of the current group. *)
Fixpoint pton6_loop (src curtok : string) (tp : bytes) (colonp : option nat)
    (seen : nat) (val : Z) : option (bytes * option nat * nat * Z) :=
  match src with
  | EmptyString => Some (tp, colonp, seen, val)
  | String ch rest =>
      match digit_value ch with
      | Some d =>
          if (seen =? 4)%nat then None
          else
            let v := Z.lor (Z.shiftl val 4) d in
            if v >? 65535 then None
            else pton6_loop rest curtok tp colonp (S seen) v
      | None =>
          if Ascii.eqb ch ":" then
            if (seen =? 0)%nat then
              match colonp with
              | Some _ => None
              | None => pton6_loop rest rest tp (Some (length tp)) seen val
              end
            else if Str.is_empty rest then None
            else if (16 <? length tp + 2)%nat then None
            else pton6_loop rest rest
                   (tp ++ [Z.land (Z.shiftr val 8) 255; Z.land val 255])
                   colonp 0 0
          else if Ascii.eqb ch "." && (length tp + 4 <=? 16)%nat then
            match inet_pton4 curtok with
            | Some q => Some (tp ++ q, colonp, 0%nat, val)
            | None => None
            end
          else None
      end
  end.

Definition inet_pton6 (s : string) : option bytes :=
  let start :=
    match s with
    | EmptyString => None
    | String ":" (String ":" _ as r) => Some r
    | String ":" _ => None
    | _ => Some s
    end in
  match start with
  | None => None
  | Some src =>
      match pton6_loop src src [] None 0 0 with
      | None => None
      | Some (tp, colonp, seen, val) =>
          let tp1 :=
            if (0 <? seen)%nat then
              if (16 <? length tp + 2)%nat then None
              else Some (tp ++ [Z.land (Z.shiftr val 8) 255; Z.land val 255])
            else Some tp in
          match tp1 with
          | None => None
          | Some tp2 =>
              let tp3 :=
                match colonp with
                | None => Some tp2
                | Some n =>
                    if (length tp2 =? 16)%nat then None
                    else Some (firstn n tp2
                               ++ repeat 0 (16 - length tp2)
                               ++ skipn n tp2)
                end in
              match tp3 with
              | Some r => if (length r =? 16)%nat then Some r else None
              | None => None
              end
          end
      end
  end.

(** The sixteen-bit groups of a packed IPv6 address. *)
Fixpoint words (b : bytes) : list Z :=
  match b with
  | x :: y :: r => (x * 256 + y) :: words r
  | _ => []
  end.

Definition longer (cur best : option (nat * nat)) : option (nat * nat) :=
  match cur, best with
  | None, _ => best
  | Some _, None => cur
  | Some (_, cl), Some (_, bl) => if (bl <? cl)%nat then cur else best
  end.

(** The first longest run of zero groups, as (base, length). *)
Fixpoint zero_run (ws : list Z) (i : nat) (cur best : option (nat * nat))
  : option (nat * nat) :=
  match ws with
  | [] => longer cur best
  | w :: r =>
      if w =? 0 then
        zero_run r (S i)
          (match cur with
           | None => Some (i, 1%nat)
           | Some (b, l) => Some (b, S l)
           end) best
      else zero_run r (S i) None (longer cur best)
  end.

Definition best_run (ws : list Z) : option (nat * nat) :=
  match zero_run ws 0 None None with
  | Some (b, l) => if (l <? 2)%nat then None else Some (b, l)
  | None => None
  end.

Definition in_run (best : option (nat * nat)) (i : nat) : bool :=
  match best with
  | Some (b, l) => ((b <=? i) && (i <? b + l))%nat
  | None => false
  end.

Fixpoint ntop6_fmt (src : bytes) (all_ws ws : list Z) (i : nat)
    (best : option (nat * nat)) : string :=
  match ws with
  | [] => EmptyString
  | w :: r =>
      if in_run best i then
        (if match best with Some (b, _) => (i =? b)%nat | None => false end
         then ":" else "") +:+ ntop6_fmt src all_ws r (S i) best
      else
        (if (i =? 0)%nat then "" else ":") +:+
        (if (i =? 6)%nat
            && match best with
               | Some (b, l) =>
                   (b =? 0)%nat
                   && ((l =? 6)%nat
                       || ((l =? 5)%nat && (nth 5 all_ws 0 =? 65535)))
               | None => false
               end
         then inet_ntop4 (skipn 12 src)
         else py_hex w +:+ ntop6_fmt src all_ws r (S i) best)
  end.

(** [inet_ntop(AF_INET6)] on sixteen octets. *)
Definition inet_ntop6 (b : bytes) : string :=
  let ws := words b in
  let best := best_run ws in
  let embedded :=
    match best with
    | Some (bb, l) =>
        (bb =? 0)%nat
        && ((l =? 6)%nat || ((l =? 5)%nat && (nth 5 ws 0 =? 65535)))
    | None => false
    end in
  ntop6_fmt b ws ws 0 best +:+
  (if negb embedded
      && match best with Some (bb, l) => (bb + l =? 8)%nat | None => false end
   then ":" else "").

(** [socket.inet_pton]: an embedded NUL is refused with [ValueError]
    before the text reaches the C library; text the library rejects is a
    [socket.error]. *)
Definition inet_pton (af : family) (ip_string : string) : result bytes :=
  if Str.mem "000" ip_string then Raise ValueError
  else
    match (match af with
           | AF_INET => inet_pton4 ip_string
           | AF_INET6 => inet_pton6 ip_string
           end) with
    | Some b => Ok b
    | None => Raise SocketError
    end.

(** [socket.inet_ntoa] *)
Definition inet_ntoa (packed : bytes) : result string :=
  if (length packed =? 4)%nat then Ok (inet_ntop4 packed)
  else Raise SocketError.

(** [socket.inet_ntop(AF_INET6, packed)] *)
Definition inet_ntop (packed : bytes) : result string :=
  if (length packed =? 16)%nat then Ok (inet_ntop6 packed)
  else Raise ValueError.

End Inet.

(** ** Target specification resolver *)

Import Inet.

(** What a matcher hands back: [None], or a list of hosts. *)
Definition hosts := option (list string).

(** [not new_list]: [None] and the empty list are both false. *)
Definition falsy (l : hosts) : bool :=
  match l with
  | None | Some [] => true
  | Some (_ :: _) => false
  end.

Definition target_to_ipv4 (target : string) : result hosts :=
  do r <- try_or_none is_socket_error (inet_pton AF_INET target);
  match r with
  | Some _ => Ok (Some [target])
  | None => Ok None
  end.

Definition target_to_ipv6 (target : string) : result hosts :=
  do r <- try_or_none is_socket_error (inet_pton AF_INET6 target);
  match r with
  | Some _ => Ok (Some [target])
  | None => Ok None
  end.

Definition ipv4_range_to_list (start_packed end_packed : bytes)
  : result (list string) :=
  do start <- struct_unpack_L start_packed;
  do end_ <- struct_unpack_L end_packed;
  mapM (fun value => do p <- struct_pack 4 value; inet_ntoa p)
       (py_range start (end_ + 1)).

Definition target_to_ipv4_short (target : string) : result hosts :=
  let splitted := Str.split "-" target in
  if negb (length splitted =? 2)%nat then Ok None
  else
    do r <- try_or_none is_socket_or_value_error
              (do start_packed <- inet_pton AF_INET (nth 0 splitted "");
               do end_value <- int_of_str 10 (nth 1 splitted "");
               Ok (start_packed, end_value));
    match r with
    | None => Ok None
    | Some (start_packed, end_value) =>
        do last <- bytes_getitem start_packed 3;
        do start_value <- int_hexlify (bytes_of_int last);
        if (end_value <? 0) || (255 <? end_value) || (end_value <? start_value)
        then Ok None
        else
          do e <- struct_pack 1 end_value;
          let end_packed := bytes_slice start_packed 0 3 ++ e in
          do l <- ipv4_range_to_list start_packed end_packed;
          Ok (Some l)
    end.

Definition target_to_ipv4_cidr (target : string) : result hosts :=
  let splitted := Str.split "/" target in
  if negb (length splitted =? 2)%nat then Ok None
  else
    do r <- try_or_none is_socket_or_value_error
              (do start_packed <- inet_pton AF_INET (nth 0 splitted "");
               do block <- int_of_str 10 (nth 1 splitted "");
               Ok (start_packed, block));
    match r with
    | None => Ok None
    | Some (start_packed, block) =>
        if (block <=? 0) || (30 <? block) then Ok None
        else
          do v <- int_hexlify start_packed;
          let start_value := Z.shiftr v (32 - block) in
          let start_value := Z.shiftl start_value (32 - block) + 1 in
          let end_value :=
            Z.lor start_value (Z.shiftr 4294967295 block) - 1 in
          do start_packed <- struct_pack 4 start_value;
          do end_packed <- struct_pack 4 end_value;
          do l <- ipv4_range_to_list start_packed end_packed;
          Ok (Some l)
    end.

Definition ipv6_range_to_list (start_packed end_packed : bytes)
  : result (list string) :=
  do start <- int_hexlify start_packed;
  do end_ <- int_hexlify end_packed;
  mapM (fun value =>
          let high := Z.shiftr value 64 in
          let low := Z.land value (Z.shiftl 1 64 - 1) in
          do p <- struct_pack_QQ high low;
          inet_ntop p)
       (py_range start (end_ + 1)).

Definition target_to_ipv6_cidr (target : string) : result hosts :=
  let splitted := Str.split "/" target in
  if negb (length splitted =? 2)%nat then Ok None
  else
    do r <- try_or_none is_socket_or_value_error
              (do start_packed <- inet_pton AF_INET6 (nth 0 splitted "");
               do block <- int_of_str 10 (nth 1 splitted "");
               Ok (start_packed, block));
    match r with
    | None => Ok None
    | Some (start_packed, block) =>
        if (block <=? 0) || (126 <? block) then Ok None
        else
          do v <- int_hexlify start_packed;
          let start_value := Z.shiftr v (128 - block) in
          let start_value := Z.shiftl start_value (128 - block) + 1 in
          let end_value :=
            Z.lor start_value (Z.shiftr (2 ^ 128 - 1) block) - 1 in
          let high := Z.shiftr start_value 64 in
          let low := Z.land start_value (Z.shiftl 1 64 - 1) in
          do start_packed <- struct_pack_QQ high low;
          let high := Z.shiftr end_value 64 in
          let low := Z.land end_value (Z.shiftl 1 64 - 1) in
          do end_packed <- struct_pack_QQ high low;
          do l <- ipv6_range_to_list start_packed end_packed;
          Ok (Some l)
    end.

Definition target_to_ipv4_long (target : string) : result hosts :=
  let splitted := Str.split "-" target in
  if negb (length splitted =? 2)%nat then Ok None
  else
    do r <- try_or_none is_socket_error
              (do start_packed <- inet_pton AF_INET (nth 0 splitted "");
               do end_packed <- inet_pton AF_INET (nth 1 splitted "");
               Ok (start_packed, end_packed));
    match r with
    | None => Ok None
    | Some (start_packed, end_packed) =>
        if bytes_lt end_packed start_packed then Ok None
        else do l <- ipv4_range_to_list start_packed end_packed; Ok (Some l)
    end.

Definition target_to_ipv6_short (target : string) : result hosts :=
  let splitted := Str.split "-" target in
  if negb (length splitted =? 2)%nat then Ok None
  else
    do r <- try_or_none is_socket_or_value_error
              (do start_packed <- inet_pton AF_INET6 (nth 0 splitted "");
               do end_value <- int_of_str 16 (nth 1 splitted "");
               Ok (start_packed, end_value));
    match r with
    | None => Ok None
    | Some (start_packed, end_value) =>
        do start_value <- int_hexlify (skipn 14 start_packed);
        if (end_value <? 0) || (65535 <? end_value)
           || (end_value <? start_value)
        then Ok None
        else
          do e <- struct_pack 2 end_value;
          let end_packed := firstn 14 start_packed ++ e in
          do l <- ipv6_range_to_list start_packed end_packed;
          Ok (Some l)
    end.

Definition target_to_ipv6_long (target : string) : result hosts :=
  let splitted := Str.split "-" target in
  if negb (length splitted =? 2)%nat then Ok None
  else
    do r <- try_or_none is_socket_error
              (do start_packed <- inet_pton AF_INET6 (nth 0 splitted "");
               do end_packed <- inet_pton AF_INET6 (nth 1 splitted "");
               Ok (start_packed, end_packed));
    match r with
    | None => Ok None
    | Some (start_packed, end_packed) =>
        if bytes_lt end_packed start_packed then Ok None
        else do l <- ipv6_range_to_list start_packed end_packed; Ok (Some l)
    end.

(** A character of the class [[\w.-]]. *)
Definition is_hostname_char (c : ascii) : bool :=
  let n := nat_of_ascii c in
  ((48 <=? n) && (n <=? 57) || (65 <=? n) && (n <=? 90)
   || (97 <=? n) && (n <=? 122) || (n =? 95) || (n =? 46) || (n =? 45))%nat.

(** [re.match(r'^[\w.-]+$', s)]: [$] also matches just before one final
    line feed. *)
Fixpoint hostname_match (s : string) : bool :=
  match s with
  | EmptyString => false
  | String c EmptyString => is_hostname_char c
  | String c (String "010" EmptyString) => is_hostname_char c
  | String c r => is_hostname_char c && hostname_match r
  end.

Definition target_to_hostname (target : string) : result hosts :=
  if (Str.len target =? 0) || (255 <? Str.len target) then Ok None
  else if negb (hostname_match target) then Ok None
  else Ok (Some [target]).

(** Try the next matcher only while the list so far is false. *)
Definition or_else (new_list : hosts) (next : result hosts) : result hosts :=
  if falsy new_list then next else Ok new_list.

Definition target_to_list (target : string) : result hosts :=
  do new_list <- target_to_ipv4 target;
  do new_list <- or_else new_list (target_to_ipv6 target);
  do new_list <- or_else new_list (target_to_ipv4_cidr target);
  do new_list <- or_else new_list (target_to_ipv6_cidr target);
  do new_list <- or_else new_list (target_to_ipv4_short target);
  do new_list <- or_else new_list (target_to_ipv4_long target);
  do new_list <- or_else new_list (target_to_ipv6_short target);
  do new_list <- or_else new_list (target_to_ipv6_long target);
  do new_list <- or_else new_list (target_to_hostname target);
  Ok new_list.

(** [list(collections.OrderedDict.fromkeys(l))]: every key once, in the
    order of first appearance. *)
Fixpoint fromkeys (seen l : list string) : list string :=
  match l with
  | [] => seen
  | x :: r =>
      if existsb (String.eqb x) seen then fromkeys seen r
      else fromkeys (seen ++ [x]) r
  end.

(** The [for] loop of [target_str_to_list] over the comma-separated
    pieces, [new_list] being the hosts gathered so far. *)
Fixpoint target_str_loop (pieces : list string) (new_list : list string)
  : result hosts :=
  match pieces with
  | [] => Ok (Some (fromkeys [] new_list))
  | piece :: rest =>
      let target := Str.strip piece in
      do target_list <- target_to_list target;
      match target_list with
      | Some (h :: t) => target_str_loop rest (new_list ++ h :: t)
      | _ => Ok None
      end
  end.

Definition target_str_to_list (target_str : string) : result hosts :=
  target_str_loop (Str.split "," target_str) [].

(** ** Port specification parser *)

Definition port_range_expand (portrange : string) : result (option (list Z)) :=
  if Str.is_empty portrange || negb (Str.mem "-" portrange) then Ok None
  else
    do i <- Str.index "-" portrange;
    do lo <- int_of_str 10 (Str.slice_to portrange i);
    do j <- Str.index "-" portrange;
    do hi <- int_of_str 10 (Str.slice_from portrange (j + 1));
    Ok (Some (py_range lo (hi + 1))).

Definition port_str_arrange (ports : string) : string :=
  let b_tcp := Str.find "T" ports in
  let b_udp := Str.find "U" ports in
  if negb (b_udp =? -1) && negb (b_tcp =? -1) && (b_udp <? b_tcp)
  then Str.slice_from ports b_tcp +:+ Str.slice ports b_udp b_tcp
  else ports.

(** A character of the class [[TU:0-9, \-]]. *)
Definition is_port_char (c : ascii) : bool :=
  is_digit c || Ascii.eqb c "T" || Ascii.eqb c "U" || Ascii.eqb c ":"
  || Ascii.eqb c "," || Ascii.eqb c " " || Ascii.eqb c "-".

Definition ports_str_check_failed (port_str : string) : bool :=
  negb (Str.all is_port_char port_str)
  || (1 <? Str.count "T" port_str)
  || (1 <? Str.count "U" port_str)
  || (Str.count ":" port_str <? Str.count "T" port_str + Str.count "U" port_str).

(** The loop over the comma-separated pieces of one protocol's list. *)
Fixpoint ports_loop (pieces : list string) (port_list : list Z)
  : result (list Z) :=
  match pieces with
  | [] => Ok port_list
  | port :: rest =>
      if Str.mem "-" port then
        do r <- port_range_expand port;
        match r with
        | Some l => ports_loop rest (port_list ++ l)
        | None => Raise TypeError
        end
      else
        do v <- int_of_str 10 port;
        ports_loop rest (port_list ++ [v])
  end.

(** [if xports: for ...: ...; x_list.sort()] *)
Definition ports_of (xports : string) : result (list Z) :=
  if Str.is_empty xports then Ok []
  else do l <- ports_loop (Str.split "," xports) []; Ok (merge_sort Z.le l).

(** [if ports[b - 1] == ',': ports = ports[:b - 1] + ports[b:]] *)
Definition drop_comma_before (b : Z) (ports : string) : result string :=
  do c <- Str.getitem ports (b - 1);
  if Ascii.eqb c "," then Ok (Str.slice_to ports (b - 1) +:+ Str.slice_from ports b)
  else Ok ports.

(** The result is the pair the source returns: [[None, None]] for a
    rejected string, the two sorted lists otherwise. *)
Definition ports_as_list (port_str : string)
  : result (option (list Z) * option (list Z)) :=
  if Str.is_empty port_str then Ok (None, None)
  else if ports_str_check_failed port_str then Ok (None, None)
  else
    let ports := Str.remove " " port_str in
    let b_tcp := Str.find "T" ports in
    let b_udp := Str.find "U" ports in
    do ports <- drop_comma_before b_tcp ports;
    do ports <- drop_comma_before b_udp ports;
    let ports := port_str_arrange ports in
    do tu <-
      (if negb (b_udp =? -1) && negb (b_tcp =? -1) then
         do t <- Str.index "T:" ports;
         do u <- Str.index "U:" ports;
         let tports := Str.slice ports (t + 2) u in
         do u' <- Str.index "U:" ports;
         Ok (tports, Str.slice_from ports (u' + 2))
       else if (b_tcp =? -1) && negb (b_udp =? -1) then
         do u <- Str.index "U:" ports;
         Ok (EmptyString, Str.slice_from ports (u + 2))
       else if (b_udp =? -1) && negb (b_tcp =? -1) then
         do t <- Str.index "T:" ports;
         Ok (Str.slice_from ports (t + 2), EmptyString)
       else Ok (ports, EmptyString));
    do tcp_list <- ports_of (fst tu);
    do udp_list <- ports_of (snd tu);
    Ok (Some tcp_list, Some udp_list).

Definition get_tcp_port_list (port_str : string) : result (option (list Z)) :=
  do r <- ports_as_list port_str; Ok (fst r).

Definition get_udp_port_list (port_str : string) : result (option (list Z)) :=
  do r <- ports_as_list port_str; Ok (snd r).

(** [itertools.groupby]: maximal runs of neighbours with the same key. *)
Fixpoint groupby {A : Type} (key : A -> Z) (l : list A) : list (list A) :=
  match l with
  | [] => []
  | x :: r =>
      match groupby key r with
      | (y :: g) :: gs =>
          if key x =? key y then (x :: y :: g) :: gs
          else [x] :: (y :: g) :: gs
      | _ => [[x]]
      end
  end.

(** [enumerate(l)] *)
Definition enumerate (l : list Z) : list (Z * Z) :=
  combine (map Z.of_nat (seq 0 (length l))) l.

(** One entry of the compressed list: a bare port, or [first-last]. *)
Definition compress_group (group : list (Z * Z)) : string :=
  let first := snd (hd (0, 0) group) in
  let final := snd (List.last group (0, 0)) in
  if first =? final then py_str first
  else py_str first +:+ "-" +:+ py_str final.

Definition port_list_compress (port_list : list Z) : string :=
  match port_list with
  | [] => EmptyString
  | _ =>
      let port_list := merge_sort Z.le (remove_dups port_list) in
      let groups := groupby (fun t => snd t - fst t) (enumerate port_list) in
      Str.join "," (map compress_group groups)
  end.

(** ** Scan registry *)

Inductive ScanStatus : Type := INIT | RUNNING | STOPPED | FINISHED.

Definition ScanStatus_eqb (a b : ScanStatus) : bool :=
  match a, b with
  | INIT, INIT | RUNNING, RUNNING | STOPPED, STOPPED | FINISHED, FINISHED => true
  | _, _ => false
  end.

(** One entry of a scan's result list (a dict in the source). *)
Record ScanResult : Type := {
  res_type : Z;
  res_name : string;
  res_severity : string;
  res_test_id : string;
  res_value : string;
  res_host : string;
  res_port : string;
  res_qod : string
}.

(** The [end_time] entry holds the text ["0"] until it is stamped with an
    integer time. *)
Inductive TimeValue : Type :=
| TimeStr (s : string)
| TimeInt (t : Z).

Definition time_is_set (t : TimeValue) : Prop :=
  match t with
  | TimeInt _ => True
  | TimeStr _ => False
  end.

(** A dict with string keys whose order of insertion is observable. *)
Definition dict (V : Type) := list (string * V).

Fixpoint dict_set {V : Type} (k : string) (v : V) (d : dict V) : dict V :=
  match d with
  | [] => [(k, v)]
  | (k', v') :: r =>
      if String.eqb k k' then (k, v) :: r else (k', v') :: dict_set k v r
  end.

Fixpoint dict_get {V : Type} (k : string) (d : dict V) : option V :=
  match d with
  | [] => None
  | (k', v) :: r => if String.eqb k k' then Some v else dict_get k r
  end.

(** [dict(pairs)] *)
Definition dict_of_pairs {V : Type} (pairs : list (string * V)) : dict V :=
  fold_left (fun d kv => dict_set (fst kv) (snd kv) d) pairs [].

(** A target group: target specification, port specification and
    credentials (not interpreted here). *)
Definition target_entry := (string * string * string)%type.

Record ScanInfo : Type := {
  results : list ScanResult;
  finished_hosts : dict (list string);
  progress : Z;
  target_progress : dict (dict Z);
  targets : list target_entry;
  vts : string;
  options : dict string;
  start_time : Z;
  end_time : TimeValue;
  status : ScanStatus;
  scan_id : string
}.

Definition with_results (v : list ScanResult) (i : ScanInfo) : ScanInfo :=
  {| results := v; finished_hosts := finished_hosts i; progress := progress i;
     target_progress := target_progress i; targets := targets i; vts := vts i;
     options := options i; start_time := start_time i; end_time := end_time i;
     status := status i; scan_id := scan_id i |}.

Definition with_finished_hosts (v : dict (list string)) (i : ScanInfo) : ScanInfo :=
  {| results := results i; finished_hosts := v; progress := progress i;
     target_progress := target_progress i; targets := targets i; vts := vts i;
     options := options i; start_time := start_time i; end_time := end_time i;
     status := status i; scan_id := scan_id i |}.

Definition with_progress (v : Z) (i : ScanInfo) : ScanInfo :=
  {| results := results i; finished_hosts := finished_hosts i; progress := v;
     target_progress := target_progress i; targets := targets i; vts := vts i;
     options := options i; start_time := start_time i; end_time := end_time i;
     status := status i; scan_id := scan_id i |}.

Definition with_options (v : dict string) (i : ScanInfo) : ScanInfo :=
  {| results := results i; finished_hosts := finished_hosts i;
     progress := progress i; target_progress := target_progress i;
     targets := targets i; vts := vts i; options := v;
     start_time := start_time i; end_time := end_time i; status := status i;
     scan_id := scan_id i |}.

Definition with_end_time (v : TimeValue) (i : ScanInfo) : ScanInfo :=
  {| results := results i; finished_hosts := finished_hosts i;
     progress := progress i; target_progress := target_progress i;
     targets := targets i; vts := vts i; options := options i;
     start_time := start_time i; end_time := v; status := status i;
     scan_id := scan_id i |}.

Definition with_status (v : ScanStatus) (i : ScanInfo) : ScanInfo :=
  {| results := results i; finished_hosts := finished_hosts i;
     progress := progress i; target_progress := target_progress i;
     targets := targets i; vts := vts i; options := options i;
     start_time := start_time i; end_time := end_time i; status := v;
     scan_id := scan_id i |}.

(** The collection: whether a manager object is held, and the table of
    scans by identifier. *)
Record ScanCollection : Type := {
  data_manager : bool;
  scans_table : gmap string ScanInfo
}.

Definition with_table (t : gmap string ScanInfo) (c : ScanCollection)
  : ScanCollection :=
  {| data_manager := data_manager c; scans_table := t |}.

(** A method call: a result or an exception, and the collection as the
    call leaves it. *)
Definition call (A : Type) : Type := ScanCollection -> result A * ScanCollection.

Definition call_bind {A B : Type} (m : call A) (k : A -> call B) : call B :=
  fun c =>
    match m c with
    | (Ok a, c') => k a c'
    | (Raise e, c') => (Raise e, c')
    end.

Definition call_ret {A : Type} (a : A) : call A := fun c => (Ok a, c).

Notation "'run' x <- m ; k" := (call_bind m (fun x => k))
  (at level 10, x name, m at level 100, k at level 200).

(** [self.scans_table[scan_id]] *)
Definition get_scan (scan_id : string) : call ScanInfo :=
  fun c =>
    match scans_table c !! scan_id with
    | Some i => (Ok i, c)
    | None => (Raise KeyError, c)
    end.

(** [self.scans_table[scan_id][field] = v], as the update [f] of the
    record held under [scan_id]. *)
Definition set_field (scan_id : string) (f : ScanInfo -> ScanInfo) : call unit :=
  fun c =>
    match scans_table c !! scan_id with
    | Some i => (Ok tt, with_table (<[scan_id := f i]> (scans_table c)) c)
    | None => (Raise KeyError, c)
    end.

(** A computation that reads nothing from the collection. *)
Definition lift {A : Type} (r : result A) : call A := fun c => (r, c).

Module ScanCollection.

Definition add_result (scan_id : string) (result_type : Z)
    (host name value port test_id severity qod : string) : call unit :=
  if Str.is_empty scan_id then lift (Raise AssertionError)
  else if Str.is_empty name && Str.is_empty value then lift (Raise AssertionError)
  else
    let result :=
      {| res_type := result_type; res_name := name; res_severity := severity;
         res_test_id := test_id; res_value := value; res_host := host;
         res_port := port; res_qod := qod |} in
    run info <- get_scan scan_id;
    let results := results info ++ [result] in
    set_field scan_id (with_results results).

Definition set_progress (scan_id : string) (progress : Z) (now : Z)
  : call unit :=
  run _ <- (if (0 <? progress) && (progress <=? 100)
            then set_field scan_id (with_progress progress)
            else call_ret tt);
  if progress =? 100 then set_field scan_id (with_end_time (TimeInt now))
  else call_ret tt.

(** [finished_hosts[target].extend(host)] *)
Definition set_host_finished (scan_id target : string) (host : list string)
  : call unit :=
  run info <- get_scan scan_id;
  let finished_hosts := finished_hosts info in
  match dict_get target finished_hosts with
  | None => lift (Raise KeyError)
  | Some l =>
      set_field scan_id
        (with_finished_hosts (dict_set target (l ++ host) finished_hosts))
  end.

(** First loop of [get_hosts_unfinished]: the hosts of every target. *)
Fixpoint extend_targets (fh : dict (list string)) (acc : list string)
  : result (list string) :=
  match fh with
  | [] => Ok acc
  | (target, _) :: r =>
      do l <- target_str_to_list target;
      match l with
      | Some hs => extend_targets r (acc ++ hs)
      | None => Raise TypeError
      end
  end.

(** [l.remove(x)]: the first occurrence goes; a miss is a [ValueError]. *)
Fixpoint list_remove (x : string) (l : list string) : result (list string) :=
  match l with
  | [] => Raise ValueError
  | y :: r =>
      if String.eqb y x then Ok r
      else do r' <- list_remove x r; Ok (y :: r')
  end.

Fixpoint remove_hosts (hs : list string) (acc : list string)
  : result (list string) :=
  match hs with
  | [] => Ok acc
  | h :: r => do acc' <- list_remove h acc; remove_hosts r acc'
  end.

(** Second loop: every finished host is taken out again. *)
Fixpoint remove_finished (fh : dict (list string)) (acc : list string)
  : result (list string) :=
  match fh with
  | [] => Ok acc
  | (_, hs) :: r => do acc' <- remove_hosts hs acc; remove_finished r acc'
  end.

Definition hosts_unfinished (fh : dict (list string)) : result (list string) :=
  do all <- extend_targets fh [];
  remove_finished fh all.

Definition get_hosts_unfinished (scan_id : string) : call (list string) :=
  run info <- get_scan scan_id;
  lift (hosts_unfinished (finished_hosts info)).

Definition results_iterator (scan_id : string) (pop_res : bool)
  : call (list ScanResult) :=
  if pop_res then
    run info <- get_scan scan_id;
    let result_aux := results info in
    run _ <- set_field scan_id (with_results []);
    call_ret result_aux
  else
    run info <- get_scan scan_id;
    call_ret (results info).

(** [del l[key]] with a result entry, a dict, as [key]: list indices must
    be integers or slices, so the statement raises [TypeError]. *)
Definition list_delitem (l : list ScanResult) (key : ScanResult)
  : result (list ScanResult) :=
  Raise TypeError.

Definition remove_single_result (scan_id : string) (result : ScanResult)
  : call unit :=
  run info <- get_scan scan_id;
  run _ <- lift (list_delitem (results info) result);
  call_ret tt.

Fixpoint del_results_loop (scan_id : string) (unfinished_hosts : list string)
    (rs : list ScanResult) : call unit :=
  match rs with
  | [] => call_ret tt
  | result :: rest =>
      run _ <- (if existsb (String.eqb (res_host result)) unfinished_hosts
                then remove_single_result scan_id result
                else call_ret tt);
      del_results_loop scan_id unfinished_hosts rest
  end.

Definition del_results_for_stopped_hosts (scan_id : string) : call unit :=
  run unfinished_hosts <- get_hosts_unfinished scan_id;
  run rs <- results_iterator scan_id false;
  del_results_loop scan_id unfinished_hosts rs.

(** [if options:] is false for [None] and for the empty dict. *)
Definition options_truthy (options : option (dict string)) : bool :=
  match options with
  | Some (_ :: _) => true
  | _ => false
  end.

Definition options_or_empty (options : option (dict string)) : dict string :=
  match options with
  | Some o => o
  | None => []
  end.

Definition resume_scan (scan_id : string) (options : option (dict string))
  : call string :=
  run _ <- set_field scan_id (with_status INIT);
  run _ <- (if options_truthy options
            then set_field scan_id (with_options (options_or_empty options))
            else call_ret tt);
  run _ <- del_results_for_stopped_hosts scan_id;
  call_ret scan_id.

Definition get_status (scan_id : string) : call ScanStatus :=
  run info <- get_scan scan_id; call_ret (status info).

Definition set_status (scan_id : string) (s : ScanStatus) : call unit :=
  set_field scan_id (with_status s).

Definition id_exists (scan_id : string) : call bool :=
  fun c => (Ok (bool_decide (is_Some (scans_table c !! scan_id))), c).

(** The record [create_scan] builds for a scan that is not resumed. *)
Definition new_scan_info (scan_id : string) (targets : list target_entry)
    (options : option (dict string)) (vts : string) (now : Z) : ScanInfo :=
  {| results := [];
     finished_hosts := dict_of_pairs (map (fun t => (fst (fst t), [])) targets);
     progress := 0;
     target_progress := dict_of_pairs (map (fun t => (fst (fst t), [])) targets);
     targets := targets;
     vts := vts;
     options := if options_truthy options then options_or_empty options else [];
     start_time := now;
     end_time := TimeStr "0";
     status := INIT;
     scan_id := scan_id |}.

(** [if self.data_manager is None: self.data_manager = Manager()] *)
Definition ensure_manager : call unit :=
  fun c => (Ok tt, {| data_manager := true; scans_table := scans_table c |}).

(** [scan_id and self.id_exists(scan_id) and
    self.get_status(scan_id) == ScanStatus.STOPPED] *)
Definition can_resume (scan_id : string) : call bool :=
  if Str.is_empty scan_id then call_ret false
  else
    run e <- id_exists scan_id;
    if e then
      run st <- get_status scan_id;
      call_ret (ScanStatus_eqb st STOPPED)
    else call_ret false.

(** [self.scans_table[scan_id] = scan_info] *)
Definition store_scan (scan_id : string) (scan_info : ScanInfo) : call unit :=
  fun c => (Ok tt, with_table (<[scan_id := scan_info]> (scans_table c)) c).

(** [create_scan(scan_id, targets, options, vts)].  An absent [scan_id]
    is the empty string; [now] is [int(time.time())] and [fresh] is
    [str(uuid.uuid4())]. *)
Definition create_scan (scan_id : string) (targets : list target_entry)
    (options : option (dict string)) (vts : string) (now : Z) (fresh : string)
  : call string :=
  run _ <- ensure_manager;
  run resume <- can_resume scan_id;
  if resume then resume_scan scan_id options
  else
    let scan_id := if Str.is_empty scan_id then fresh else scan_id in
    let scan_info := new_scan_info scan_id targets options vts now in
    run _ <- store_scan scan_id scan_info;
    call_ret scan_id.

Definition delete_scan (scan_id : string) : call bool :=
  run st <- get_status scan_id;
  if ScanStatus_eqb st RUNNING then call_ret false
  else
    fun c =>
      let t := delete scan_id (scans_table c) in
      (Ok true,
       {| data_manager := if bool_decide (size t = 0%nat) then false
                          else data_manager c;
          scans_table := t |}).

End ScanCollection.

(** ** Statements and sample data used by the properties below *)

Import ScanCollection.

(** The data-model invariant tying [progress] to [end_time]. *)
Definition progress_invariant (i : ScanInfo) : Prop :=
  progress i = 100 -> time_is_set (end_time i).

Definition registry_invariant (c : ScanCollection) : Prop :=
  forall scan_id i, scans_table c !! scan_id = Some i -> progress_invariant i.

(** The hosts recorded as finished, over all targets of a scan. *)
Definition all_finished (i : ScanInfo) : list string :=
  concat (map snd (finished_hosts i)).


Definition empty_collection : ScanCollection :=
  {| data_manager := false; scans_table := ∅ |}.

Definition sample_result (host : string) : ScanResult :=
  {| res_type := 1; res_name := "open port"; res_severity := "";
     res_test_id := ""; res_value := "found"; res_host := host;
     res_port := "80"; res_qod := "" |}.

(** A scan over 10.0.0.0/30 in the given state, with one result for each
    of its two hosts, 10.0.0.1 finished and 10.0.0.2 not. *)
Definition sample_info (st : ScanStatus) : ScanInfo :=
  {| results := [sample_result "10.0.0.1"; sample_result "10.0.0.2"];
     finished_hosts := [("10.0.0.0/30", ["10.0.0.1"])];
     progress := 50;
     target_progress := [("10.0.0.0/30", [("10.0.0.1", 100)])];
     targets := [("10.0.0.0/30", "T:80", "")];
     vts := "";
     options := [("timeout", "30")];
     start_time := 1000;
     end_time := TimeStr "0";
     status := st;
     scan_id := "scan-1" |}.

Definition sample_collection (st : ScanStatus) : ScanCollection :=
  {| data_manager := true;
     scans_table := {[ "scan-1" := sample_info st ]} |}.




(** The text of an IPv4 CIDR block: dotted quad, slash, prefix length. *)
Definition cidr_token (a b c d n : Z) : string :=
  inet_ntop4 [a; b; c; d] +:+ "/" +:+ py_str n.

(** The dotted quad of a 32-bit integer. *)
Definition dotted (v : Z) : string := inet_ntop4 (be_bytes 4 v).

(** Network and broadcast address of the block of prefix length [n] that
    holds [addr]. *)
Definition network (addr n : Z) : Z := addr / 2 ^ (32 - n) * 2 ^ (32 - n).

Definition broadcast (addr n : Z) : Z := network addr n + 2 ^ (32 - n) - 1.

(** Checks run over whole ranges of small numbers: the decimal text of
    [o] is made of digits and reads back as [o], as an octet and as an
    integer. *)
Definition octet_text_ok (o : Z) : bool :=
  Str.all is_digit (py_str o)
  && match parse_octet (py_str o) with
     | Some v => v =? o
     | None => false
     end.

Definition int_text_ok (n : Z) : bool :=
  Str.all is_digit (py_str n)
  && match py_int 10 (py_str n) with
     | Some v => v =? n
     | None => false
     end.

(** The characters of a CIDR block's text: digits, dot and slash. *)
Definition is_cidr_char (c : ascii) : bool :=
  is_digit c || Ascii.eqb c "." || Ascii.eqb c "/".

(** Checked over all octets: the two characters [hexlify] writes for
    [x] are the hexadecimal digits of [x / 16] and [x mod 16]; neither is
    white space, a sign, an underscore or the letter x. *)
Definition hex_char_ok (c : ascii) (v : Z) : bool :=
  match digit_value c with
  | Some d => d =? v
  | None => false
  end
  && negb (Str.is_c_space c) && negb (Ascii.eqb c "-")
  && negb (Ascii.eqb c "+") && negb (Ascii.eqb c "_")
  && negb (Ascii.eqb c "x") && negb (Ascii.eqb c "X").

Definition hex_byte_ok (x : Z) : bool :=
  hex_char_ok (hex_digit (x / 16)) (x / 16)
  && hex_char_ok (hex_digit (x mod 16)) (x mod 16).

Definition is_octet (x : Z) : Prop := 0 <= x <= 255.

(** Checked over the prefix lengths: the host mask [0xffffffff >> n] is
    [2^(32-n) - 1], and it already has its lowest bit set. *)
Definition host_mask_ok (n : Z) : bool :=
  (n =? 0) || (30 <? n)
  || ((Z.shiftr 4294967295 n =? 2 ^ (32 - n) - 1)
      && (Z.lor 1 (2 ^ (32 - n) - 1) =? 2 ^ (32 - n) - 1)
      && (4 <=? 2 ^ (32 - n)) && (2 ^ (32 - n) * 2 ^ n =? 4294967296)).

(** Checked over all characters: a character of a CIDR block's text is
    not white space, a comma or NUL. *)
Definition cidr_char_plain (c : ascii) : bool :=
  implb (is_cidr_char c)
    (negb (Str.is_space c) && negb (Ascii.eqb c ",")
     && negb (Ascii.eqb c "000")).

(** The calls that change a collection, and their effect on it whether
    they return or raise. *)
Inductive request : Type :=
| CreateScan (scan_id : string) (targets : list target_entry)
    (options : option (dict string)) (vts : string) (now : Z) (fresh : string)
| SetProgress (scan_id : string) (progress : Z) (now : Z)
| SetStatus (scan_id : string) (s : ScanStatus)
| AddResult (scan_id : string) (result_type : Z)
    (host name value port test_id severity qod : string)
| SetHostFinished (scan_id target : string) (host : list string)
| PopResults (scan_id : string)
| DeleteScan (scan_id : string).

Definition serve (c : ScanCollection) (r : request) : ScanCollection :=
  match r with
  | CreateScan scan_id targets options vts now fresh =>
      snd (create_scan scan_id targets options vts now fresh c)
  | SetProgress scan_id progress now => snd (set_progress scan_id progress now c)
  | SetStatus scan_id s => snd (set_status scan_id s c)
  | AddResult scan_id result_type host name value port test_id severity qod =>
      snd (add_result scan_id result_type host name value port test_id
             severity qod c)
  | SetHostFinished scan_id target host =>
      snd (set_host_finished scan_id target host c)
  | PopResults scan_id => snd (results_iterator scan_id true c)
  | DeleteScan scan_id => snd (delete_scan scan_id c)
  end.

Definition serve_all (requests : list request) : ScanCollection :=
  fold_left serve requests empty_collection.

(** ** Further operations of the registry *)

Definition with_target_progress (v : dict (dict Z)) (i : ScanInfo) : ScanInfo :=
  {| results := results i; finished_hosts := finished_hosts i;
     progress := progress i; target_progress := v; targets := targets i;
     vts := vts i; options := options i; start_time := start_time i;
     end_time := end_time i; status := status i; scan_id := scan_id i |}.

(** [targets[target][host] = progress] under the guard on [progress]. *)
Definition set_target_progress (scan_id target host : string) (progress : Z)
  : call unit :=
  if (0 <? progress) && (progress <=? 100) then
    run info <- get_scan scan_id;
    let targets := target_progress info in
    match dict_get target targets with
    | None => lift (Raise KeyError)
    | Some hosts =>
        set_field scan_id
          (with_target_progress
             (dict_set target (dict_set host progress hosts) targets))
    end
  else call_ret tt.

(** The [for item in targets: if target == item[0]] loops of [get_ports]
    and [get_credentials]: the first entry for [target]. *)
Fixpoint find_target (target : string) (items : list target_entry)
  : option target_entry :=
  match items with
  | [] => None
  | item :: rest =>
      if String.eqb target (fst (fst item)) then Some item
      else find_target target rest
  end.

Definition get_ports (scan_id target : string) : call string :=
  run info <- get_scan scan_id;
  match (if Str.is_empty target then None
         else find_target target (targets info)) with
  | Some item => call_ret (snd (fst item))
  | None =>
      match targets info with
      | item :: _ => call_ret (snd (fst item))
      | [] => lift (Raise IndexError)
      end
  end.

(** [None] when there is no entry for [target]. *)
Definition get_credentials (scan_id target : string) : call (option string) :=
  if Str.is_empty target then call_ret None
  else
    run info <- get_scan scan_id;
    match find_target target (targets info) with
    | Some item => call_ret (Some (snd item))
    | None => call_ret None
    end.

Definition get_target_list (scan_id : string) : call (list string) :=
  run info <- get_scan scan_id;
  call_ret (map (fun item => fst (fst item)) (targets info)).

Definition get_progress (scan_id : string) : call Z :=
  run info <- get_scan scan_id; call_ret (progress info).

Definition get_end_time (scan_id : string) : call TimeValue :=
  run info <- get_scan scan_id; call_ret (end_time info).

(** ** Result types *)

Module ResultType.

Definition ALARM : Z := 0.
Definition LOG : Z := 1.
Definition ERROR : Z := 2.
Definition HOST_DETAIL : Z := 3.

Definition get_str (result_type : Z) : result string :=
  if result_type =? ALARM then Ok "Alarm"
  else if result_type =? LOG then Ok "Log Message"
  else if result_type =? ERROR then Ok "Error Message"
  else if result_type =? HOST_DETAIL then Ok "Host Detail"
  else Raise AssertionError.

Definition get_type (result_name : string) : result Z :=
  if String.eqb result_name "Alarm" then Ok ALARM
  else if String.eqb result_name "Log Message" then Ok LOG
  else if String.eqb result_name "Error Message" then Ok ERROR
  else if String.eqb result_name "Host Detail" then Ok HOST_DETAIL
  else Raise AssertionError.

End ResultType.

(** The text of an IPv4 long range: two dotted quads and a hyphen. *)
Definition long_range_token (s e : Z) : string :=
  dotted s +:+ "-" +:+ dotted e.

(** The characters of a range's text: digits, dot and hyphen. *)
Definition is_range_char (c : ascii) : bool :=
  is_digit c || Ascii.eqb c "." || Ascii.eqb c "-".

(** Checked over all characters: a character of a range's text is not
    white space, a comma, a slash or NUL, and it may stand in a host
    name. *)
Definition range_char_plain (c : ascii) : bool :=
  implb (is_range_char c)
    (negb (Str.is_space c) && negb (Ascii.eqb c ",")
     && negb (Ascii.eqb c "/") && negb (Ascii.eqb c "000")
     && is_hostname_char c).

(** The text of an IPv4 short range: a dotted quad, a hyphen and the last
    octet of the end address. *)
Definition short_range_token (a b c x y : Z) : string :=
  inet_ntop4 [a; b; c; x] +:+ "-" +:+ py_str y.

(** ** The runs behind a compressed port list *)

(** A run of consecutive ports, as (first, last). *)
Definition render_run (r : Z * Z) : string :=
  if fst r =? snd r then py_str (fst r)
  else py_str (fst r) +:+ "-" +:+ py_str (snd r).

(** First and last port of a group of [enumerate]d ports. *)
Definition group_run (group : list (Z * Z)) : Z * Z :=
  (snd (hd (0, 0) group), snd (List.last group (0, 0))).

(** The runs [port_list_compress] writes out, in order. *)
Definition port_runs (port_list : list Z) : list (Z * Z) :=
  map group_run
    (groupby (fun t => snd t - fst t)
       (enumerate (merge_sort Z.le (remove_dups port_list)))).

(** Neighbours in an enumerated, strictly ascending list; neighbours
    inside one group; and two runs that cannot be merged. *)
Definition enum_step (x y : Z * Z) : Prop :=
  fst y = fst x + 1 /\ snd x < snd y.

Definition unit_step (x y : Z * Z) : Prop :=
  fst y = fst x + 1 /\ snd y = snd x + 1.

Definition run_gap (r1 r2 : Z * Z) : Prop := snd r1 + 1 < fst r2.

(** Checked over all characters: a character that may stand in a host
    name is not white space, a comma, a slash, a colon or NUL. *)
Definition hostname_char_plain (c : ascii) : bool :=
  implb (is_hostname_char c)
    (negb (Str.is_space c) && negb (Ascii.eqb c ",")
     && negb (Ascii.eqb c "/") && negb (Ascii.eqb c ":")
     && negb (Ascii.eqb c "000")).

(** [sys.int_max_str_digits]: from CPython 3.11 on, [str] and [int]
    refuse an integer of more than this many decimal digits with a
    [ValueError].  [py_str] prints every integer, so a statement about
    text printed from arbitrary integers is made for integers within the
    limit. *)
Definition int_max_str_digits : Z := 4300.

Definition within_str_digits (n : Z) : Prop :=
  Z.abs n < 10 ^ int_max_str_digits.

(** * Properties *)

(** ** The registry *)

Lemma ScanStatus_eqb_eq (a b : ScanStatus) : ScanStatus_eqb a b = true <-> a = b.
Proof. destruct a, b; simpl; split; intros H; try reflexivity; discriminate H. Qed.

Lemma ScanStatus_eqb_neq (a b : ScanStatus) : ScanStatus_eqb a b = false <-> a <> b.
Proof.
  destruct a, b; simpl; split; intros H; try reflexivity; try discriminate H;
    try (intros E; discriminate E); exfalso; apply H; reflexivity.
Qed.

Lemma is_empty_false (s : string) : s <> "" -> Str.is_empty s = false.
Proof. destruct s; [intros H; exfalso; apply H; reflexivity | reflexivity]. Qed.

Lemma set_field_present (scan_id : string) (f : ScanInfo -> ScanInfo)
    (c : ScanCollection) (i : ScanInfo) :
  scans_table c !! scan_id = Some i ->
  set_field scan_id f c
  = (Ok tt, with_table (<[scan_id := f i]> (scans_table c)) c).
Proof. intros H. unfold set_field. rewrite H. reflexivity. Qed.

Lemma get_scan_present (scan_id : string) (c : ScanCollection) (i : ScanInfo) :
  scans_table c !! scan_id = Some i -> get_scan scan_id c = (Ok i, c).
Proof. intros H. unfold get_scan. rewrite H. reflexivity. Qed.

Lemma with_table_lookup (scan_id : string) (i : ScanInfo) (c : ScanCollection) :
  scans_table (with_table (<[scan_id := i]> (scans_table c)) c) !! scan_id
  = Some i.
Proof. simpl. apply lookup_insert_eq. Qed.

(** C8: deleting a RUNNING scan returns false and changes nothing; deleting
    a scan that is INIT, STOPPED or FINISHED returns true and removes its
    record, the other records staying as they were. *)
Theorem delete_scan_gated (c : ScanCollection) (scan_id : string)
    (info : ScanInfo) :
  scans_table c !! scan_id = Some info ->
  (status info = RUNNING -> delete_scan scan_id c = (Ok false, c)) /\
  (status info = INIT \/ status info = STOPPED \/ status info = FINISHED ->
   exists c',
     delete_scan scan_id c = (Ok true, c') /\
     scans_table c' = delete scan_id (scans_table c) /\
     scans_table c' !! scan_id = None /\
     (forall other, other <> scan_id ->
        scans_table c' !! other = scans_table c !! other)).
Proof.
  intros Hget. split.
  - intros Hst.
    unfold delete_scan, get_status, call_bind, get_scan, call_ret.
    rewrite Hget, Hst. reflexivity.
  - intros Hst.
    assert (Hne : ScanStatus_eqb (status info) RUNNING = false).
    { apply ScanStatus_eqb_neq.
      destruct Hst as [H | [H | H]]; rewrite H; discriminate. }
    eexists. split.
    + unfold delete_scan, get_status, call_bind, get_scan, call_ret.
      rewrite Hget, Hne. reflexivity.
    + simpl. split; [reflexivity |]. split.
      * apply lookup_delete_eq.
      * intros other Hother. apply lookup_delete_ne. congruence.
Qed.

Lemma delete_scan_gated_witness :
  scans_table (sample_collection RUNNING) !! "scan-1"
  = Some (sample_info RUNNING)
  /\ delete_scan "scan-1" (sample_collection RUNNING)
     = (Ok false, sample_collection RUNNING).
Proof.
  split; [reflexivity |].
  apply (delete_scan_gated (sample_collection RUNNING) "scan-1"
           (sample_info RUNNING)); reflexivity.
Defined.

(** C9: on a scan that is present, [set_progress] never raises; a value
    outside (0, 100] leaves the whole collection as it was; a value in
    range becomes the progress; the value 100 stamps [end_time] with the
    current time; and a record in which progress 100 implied a stamped
    [end_time] before the call is in that state after it. *)
Theorem set_progress_guarded (c : ScanCollection) (scan_id : string)
    (info : ScanInfo) (p now : Z) :
  scans_table c !! scan_id = Some info ->
  exists c' info',
    set_progress scan_id p now c = (Ok tt, c')
    /\ scans_table c' !! scan_id = Some info'
    /\ (p <= 0 \/ 100 < p -> c' = c /\ progress info' = progress info)
    /\ (0 < p <= 100 -> progress info' = p)
    /\ (p = 100 -> end_time info' = TimeInt now)
    /\ (progress_invariant info -> progress_invariant info').
Proof.
  intros Hget. unfold set_progress, call_bind, call_ret.
  destruct ((0 <? p) && (p <=? 100)) eqn:Hrange.
  - apply andb_true_iff in Hrange. destruct Hrange as [H0 H100].
    apply Z.ltb_lt in H0. apply Z.leb_le in H100.
    rewrite (set_field_present _ _ _ _ Hget).
    destruct (p =? 100) eqn:Hp.
    + apply Z.eqb_eq in Hp.
      rewrite (set_field_present _ _ _ _ (with_table_lookup _ _ _)).
      eexists. eexists. split; [reflexivity |].
      split; [apply with_table_lookup |].
      repeat split; simpl; try lia; try reflexivity.
    + apply Z.eqb_neq in Hp.
      eexists. eexists. split; [reflexivity |].
      split; [apply with_table_lookup |].
      repeat split; simpl; try lia.
      intros _ Habs. simpl in Habs. lia.
  - apply andb_false_iff in Hrange.
    assert (Hout : p <= 0 \/ 100 < p).
    { destruct Hrange as [H | H];
        [apply Z.ltb_ge in H | apply Z.leb_gt in H]; lia. }
    assert (Hp : (p =? 100) = false) by (apply Z.eqb_neq; lia).
    rewrite Hp. exists c, info. split; [reflexivity |].
    split; [exact Hget |].
    repeat split; try lia. intros Hinv. exact Hinv.
Qed.

Lemma set_progress_guarded_witness :
  scans_table (sample_collection RUNNING) !! "scan-1"
  = Some (sample_info RUNNING)
  /\ exists c' info',
       set_progress "scan-1" 100 2000 (sample_collection RUNNING) = (Ok tt, c')
       /\ scans_table c' !! "scan-1" = Some info'
       /\ (100 <= 0 \/ 100 < 100 ->
           c' = sample_collection RUNNING
           /\ progress info' = progress (sample_info RUNNING))
       /\ (0 < 100 <= 100 -> progress info' = 100)
       /\ (100 = 100 -> end_time info' = TimeInt 2000)
       /\ (progress_invariant (sample_info RUNNING) -> progress_invariant info').
Proof.
  split; [reflexivity |].
  apply (set_progress_guarded (sample_collection RUNNING) "scan-1"
           (sample_info RUNNING) 100 2000).
  reflexivity.
Defined.

(** A record as [create_scan] builds it has progress 0, so the invariant
    holds of it. *)
Lemma new_scan_info_invariant (scan_id : string) (targets : list target_entry)
    (options : option (dict string)) (vts : string) (now : Z) :
  progress_invariant (new_scan_info scan_id targets options vts now).
Proof. unfold progress_invariant. simpl. intros H. discriminate H. Qed.

Lemma call_bind_ok {A B : Type} (m : call A) (k : A -> call B)
    (c c' : ScanCollection) (a : A) :
  m c = (Ok a, c') -> call_bind m k c = k a c'.
Proof. intros H. unfold call_bind. rewrite H. reflexivity. Qed.

Lemma call_bind_raise {A B : Type} (m : call A) (k : A -> call B)
    (c c' : ScanCollection) (e : exn) :
  m c = (Raise e, c') -> call_bind m k c = (Raise e, c').
Proof. intros H. unfold call_bind. rewrite H. reflexivity. Qed.





Lemma del_results_loop_snd (scan_id : string) (unfinished : list string)
    (rs : list ScanResult) (c : ScanCollection) :
  snd (del_results_loop scan_id unfinished rs c) = c.
Proof.
  induction rs as [| r rs IH]; [reflexivity |].
  cbn [del_results_loop]. unfold call_bind.
  destruct (existsb (String.eqb (res_host r)) unfinished).
  - unfold remove_single_result, call_bind, get_scan, lift, list_delitem.
    destruct (scans_table c !! scan_id); reflexivity.
  - unfold call_ret. apply IH.
Qed.

Lemma del_results_snd (scan_id : string) (c : ScanCollection) :
  snd (del_results_for_stopped_hosts scan_id c) = c.
Proof.
  unfold del_results_for_stopped_hosts, get_hosts_unfinished,
    results_iterator, call_bind, get_scan, lift, call_ret.
  destruct (scans_table c !! scan_id) as [i |] eqn:E; [| reflexivity].
  destruct (hosts_unfinished (finished_hosts i)); [| reflexivity].
  rewrite E. apply del_results_loop_snd.
Qed.

Lemma del_results_loop_none (scan_id : string) (unfinished : list string)
    (rs : list ScanResult) (c : ScanCollection) :
  (forall r, In r rs -> ~ In (res_host r) unfinished) ->
  del_results_loop scan_id unfinished rs c = (Ok tt, c).
Proof.
  induction rs as [| r rs IH]; intros Hrs; simpl.
  - reflexivity.
  - assert (Hr : existsb (String.eqb (res_host r)) unfinished = false).
    { destruct (existsb (String.eqb (res_host r)) unfinished) eqn:E; [| reflexivity].
      apply existsb_exists in E. destruct E as (h & Hin & Heq).
      apply String.eqb_eq in Heq. subst h.
      exfalso. apply (Hrs r); [left; reflexivity | exact Hin]. }
    rewrite Hr.
    rewrite (call_bind_ok (call_ret tt) _ c c tt eq_refl).
    apply IH. intros r' Hin. apply Hrs. right. exact Hin.
Qed.

(** The first stored result of an unfinished host stops the loop with a
    [TypeError]; the collection is as it was. *)
Lemma del_results_loop_raises (scan_id : string) (unfinished : list string)
    (rs : list ScanResult) (c : ScanCollection) (i : ScanInfo) :
  scans_table c !! scan_id = Some i ->
  (exists r, In r rs /\ In (res_host r) unfinished) ->
  del_results_loop scan_id unfinished rs c = (Raise TypeError, c).
Proof.
  intros Hget. induction rs as [| r rs IH]; intros (r0 & Hin & Hhost).
  - destruct Hin.
  - simpl.
    destruct (existsb (String.eqb (res_host r)) unfinished) eqn:E.
    + apply call_bind_raise. unfold remove_single_result.
      rewrite (call_bind_ok _ _ c c i (get_scan_present _ _ _ Hget)).
      reflexivity.
    + rewrite (call_bind_ok (call_ret tt) _ c c tt eq_refl).
      apply IH. destruct Hin as [-> | Hin].
      * exfalso.
        assert (Habs : existsb (String.eqb (res_host r0)) unfinished = true).
        { apply existsb_exists. exists (res_host r0).
          split; [exact Hhost | apply String.eqb_refl]. }
        rewrite Habs in E. discriminate E.
      * exists r0. split; assumption.
Qed.

Lemma del_results_none (scan_id : string) (c : ScanCollection) (i : ScanInfo)
    (unfinished : list string) :
  scans_table c !! scan_id = Some i ->
  hosts_unfinished (finished_hosts i) = Ok unfinished ->
  (forall r, In r (results i) -> ~ In (res_host r) unfinished) ->
  del_results_for_stopped_hosts scan_id c = (Ok tt, c).
Proof.
  intros Hget Hun Hrs. unfold del_results_for_stopped_hosts.
  rewrite (call_bind_ok _ _ c c unfinished).
  - rewrite (call_bind_ok _ _ c c (results i)).
    + apply del_results_loop_none, Hrs.
    + unfold results_iterator.
      rewrite (call_bind_ok _ _ c c i (get_scan_present _ _ _ Hget)).
      reflexivity.
  - unfold get_hosts_unfinished.
    rewrite (call_bind_ok _ _ c c i (get_scan_present _ _ _ Hget)).
    unfold lift. rewrite Hun. reflexivity.
Qed.







(** The sample scan of the specification: 10.0.0.1 finished, 10.0.0.2 not,
    one result for each.  Resuming it raises [TypeError] when the result
    of 10.0.0.2 is to be removed, and both results are still stored. *)
Lemma resume_with_stale_result_raises :
  exists c',
    create_scan "scan-1" [] (Some [("exclude", "10.0.0.3")]) "" 2000 "unused"
      (sample_collection STOPPED)
    = (Raise TypeError, c')
    /\ (results <$> scans_table c' !! "scan-1")
       = Some [sample_result "10.0.0.1"; sample_result "10.0.0.2"].
Proof. eexists. split; vm_compute; reflexivity. Qed.


(** ** The target resolver on the specification's examples *)

(** C4 (as amended): the long-range matcher rejects
    "192.168.1.10-192.168.1.5", whose end lies below its start, but the
    resolver goes on to the hostname matcher, which accepts the text, and
    returns it as the only host; "192.168.1.5-192.168.1.10" resolves to
    the six addresses from .5 to .10 in ascending order. *)
Theorem long_range_examples :
  target_to_ipv4_long "192.168.1.10-192.168.1.5" = Ok None
  /\ target_to_list "192.168.1.10-192.168.1.5"
     = Ok (Some ["192.168.1.10-192.168.1.5"])
  /\ target_str_to_list "192.168.1.10-192.168.1.5"
     = Ok (Some ["192.168.1.10-192.168.1.5"])
  /\ target_str_to_list "192.168.1.5-192.168.1.10"
     = Ok (Some ["192.168.1.5"; "192.168.1.6"; "192.168.1.7";
                 "192.168.1.8"; "192.168.1.9"; "192.168.1.10"]).
Proof. repeat split; vm_compute; reflexivity. Qed.

(** C4, the counterexample: the resolver does not return Invalid for the
    descending range. *)
Lemma descending_long_range_not_invalid :
  target_str_to_list "192.168.1.10-192.168.1.5" <> Ok None.
Proof. vm_compute. discriminate. Qed.

(** C5, at the failing input: the start address ends in octet 0, the
    start value is read from [bytes(0)], the empty octet string, and the
    conversion raises [ValueError] out of the matcher. *)
Theorem short_range_zero_octet_raises :
  target_to_ipv4_short "192.168.1.0-5" = Raise ValueError.
Proof. vm_compute. reflexivity. Qed.

(** With a start octet above 0 the start value read is 0 whatever the
    octet, so an end below the start is not refused: the matcher hands
    back the empty list. *)
Lemma short_range_descending_is_empty :
  target_to_ipv4_short "192.168.1.10-5" = Ok (Some []).
Proof. vm_compute. reflexivity. Qed.

Lemma short_range_ascending_example :
  target_to_ipv4_short "192.168.1.3-5"
  = Ok (Some ["192.168.1.3"; "192.168.1.4"; "192.168.1.5"]).
Proof. vm_compute. reflexivity. Qed.

(** C3, at the failing input: the second piece resolves to no host list,
    yet the resolver does not return Invalid; the [ValueError] of the
    first piece leaves [target_str_to_list]. *)
Theorem resolver_raises_before_invalid :
  target_to_list "/" = Ok None
  /\ target_str_to_list "192.168.1.0-5,/" = Raise ValueError
  /\ target_str_to_list "192.168.1.0-5" = Raise ValueError.
Proof. repeat split; vm_compute; reflexivity. Qed.

(** ** The port parser *)

Lemma ports_of_sorted (xports : string) (l : list Z) :
  ports_of xports = Ok l -> Sorted Z.le l.
Proof.
  unfold ports_of. destruct (Str.is_empty xports).
  - intros H. injection H as <-. constructor.
  - destruct (ports_loop (Str.split "," xports) []) as [l0 | e]; simpl.
    + intros H. injection H as <-. apply Sorted_merge_sort. apply _.
    + discriminate.
Qed.

(** C6 (as amended): the two lists of an accepted port string are sorted
    in ascending order.  The order is not strict: the lists may hold a
    port more than once (see the counterexample). *)
Theorem ports_as_list_sorted (port_str : string) (tcp_list udp_list : list Z) :
  ports_as_list port_str = Ok (Some tcp_list, Some udp_list) ->
  Sorted Z.le tcp_list /\ Sorted Z.le udp_list.
Proof.
  unfold ports_as_list.
  destruct (Str.is_empty port_str); [discriminate |].
  destruct (ports_str_check_failed port_str); [discriminate |].
  destruct (drop_comma_before _ _) as [p1 | e]; simpl; [| discriminate].
  destruct (drop_comma_before _ p1) as [p2 | e]; simpl; [| discriminate].
  match goal with
  | |- bind ?m _ = _ -> _ => destruct m as [tu | e]; simpl; [| discriminate]
  end.
  destruct (ports_of (fst tu)) as [t |e] eqn:Ht; simpl; [| discriminate].
  destruct (ports_of (snd tu)) as [u |e] eqn:Hu; simpl; [| discriminate].
  intros H. injection H as <- <-.
  split; eapply ports_of_sorted; eassumption.
Qed.

Lemma ports_as_list_sorted_witness :
  ports_as_list "T:1,2,3,5-8 U:22,80,600-602"
  = Ok (Some [1; 2; 3; 5; 6; 7; 8], Some [22; 80; 600; 601; 602])
  /\ Sorted Z.le [1; 2; 3; 5; 6; 7; 8]
  /\ Sorted Z.le [22; 80; 600; 601; 602].
Proof.
  split; [vm_compute; reflexivity |].
  apply (ports_as_list_sorted "T:1,2,3,5-8 U:22,80,600-602").
  vm_compute. reflexivity.
Defined.

(** C6, the counterexample: "10,10" is accepted and port 10 is in the TCP
    list twice. *)
Lemma ports_as_list_keeps_duplicates :
  exists tcp_list udp_list,
    ports_as_list "10,10" = Ok (Some tcp_list, Some udp_list)
    /\ ~ NoDup tcp_list.
Proof.
  exists [10; 10], []. split; [vm_compute; reflexivity |].
  intros H. inversion H as [| x l Hnotin _]; subst.
  apply Hnotin. left.
Qed.

(** C7, at the failing input: "1,3" is the compressed form of the ports 1
    and 3, but parsing it gives the single port 13, which compresses to
    "13".  The comma before the last character is taken for a comma
    before a [T] that is not there. *)
Theorem compress_parse_bare_list :
  port_list_compress [1; 3] = "1,3"
  /\ ports_as_list "1,3" = Ok (Some [13], Some [])
  /\ port_list_compress [13] = "13".
Proof. repeat split; vm_compute; reflexivity. Qed.

(** A bare list of a single one-digit port is not parsed at all: the look
    at the character before the missing [T] leaves the string. *)
Lemma ports_as_list_single_digit_raises :
  ports_as_list "5" = Raise IndexError.
Proof. vm_compute. reflexivity. Qed.

(** ** Strings: membership, splitting and stripping *)

Lemma mem_cons (c d : ascii) (s : string) :
  Str.mem c (String d s) = Ascii.eqb c d || Str.mem c s.
Proof. reflexivity. Qed.

Lemma all_cons (p : ascii -> bool) (d : ascii) (s : string) :
  Str.all p (String d s) = p d && Str.all p s.
Proof. reflexivity. Qed.

Lemma append_nil (b : string) : "" +:+ b = b.
Proof. reflexivity. Qed.

Lemma append_cons (d : ascii) (a b : string) :
  String d a +:+ b = String d (a +:+ b).
Proof. reflexivity. Qed.

Lemma mem_app (c : ascii) (a b : string) :
  Str.mem c (a +:+ b) = Str.mem c a || Str.mem c b.
Proof.
  induction a as [| d a IH].
  - reflexivity.
  - rewrite append_cons, !mem_cons, IH. apply orb_assoc.
Qed.

Lemma all_app (p : ascii -> bool) (a b : string) :
  Str.all p (a +:+ b) = Str.all p a && Str.all p b.
Proof.
  induction a as [| d a IH].
  - reflexivity.
  - rewrite append_cons, !all_cons, IH. apply andb_assoc.
Qed.

Lemma all_not_mem (p : ascii -> bool) (c : ascii) (s : string) :
  Str.all p s = true -> p c = false -> Str.mem c s = false.
Proof.
  intros Hall Hc. induction s as [| d s IH].
  - reflexivity.
  - rewrite all_cons in Hall. apply andb_true_iff in Hall.
    destruct Hall as [Hd Hs]. rewrite mem_cons, (IH Hs), orb_false_r.
    destruct (Ascii.eqb_spec c d) as [-> | Hne]; [congruence | reflexivity].
Qed.

Lemma split_nonempty (sep : ascii) (s : string) : Str.split sep s <> [].
Proof.
  induction s as [| d s IH]; simpl.
  - discriminate.
  - destruct (Ascii.eqb d sep); [discriminate |].
    destruct (Str.split sep s); [contradiction | discriminate].
Qed.

Lemma split_no_sep (sep : ascii) (s : string) :
  Str.mem sep s = false -> Str.split sep s = [s].
Proof.
  induction s as [| d s IH]; intros H.
  - reflexivity.
  - rewrite mem_cons in H. apply orb_false_iff in H. destruct H as [Hd Hs].
    simpl. rewrite Ascii.eqb_sym, Hd, (IH Hs). reflexivity.
Qed.

Lemma split_app_sep (sep : ascii) (a b : string) :
  Str.mem sep a = false ->
  Str.split sep (a +:+ String sep b) = a :: Str.split sep b.
Proof.
  induction a as [| d a IH]; intros H.
  - rewrite append_nil. simpl. rewrite Ascii.eqb_refl. reflexivity.
  - rewrite mem_cons in H. apply orb_false_iff in H. destruct H as [Hd Hs].
    rewrite append_cons. simpl. rewrite Ascii.eqb_sym, Hd, (IH Hs).
    reflexivity.
Qed.

(** A character other than the separator that occurs in a string occurs
    in one of its pieces. *)
Lemma mem_split (c sep : ascii) (s : string) :
  Str.mem c s = true -> c <> sep ->
  exists piece, In piece (Str.split sep s) /\ Str.mem c piece = true.
Proof.
  intros H Hne. induction s as [| d s IH].
  - discriminate H.
  - rewrite mem_cons in H. simpl.
    destruct (Ascii.eqb_spec d sep) as [-> | Hd].
    + destruct (Ascii.eqb_spec c sep) as [-> | _]; [contradiction |].
      simpl in H. destruct (IH H) as (piece & Hin & Hm).
      exists piece. split; [right; exact Hin | exact Hm].
    + destruct (Str.split sep s) as [| w ws] eqn:E.
      * exfalso. apply (split_nonempty sep s E).
      * apply orb_true_iff in H. destruct H as [H | H].
        -- exists (String d w). split; [left; reflexivity |].
           rewrite mem_cons, H. reflexivity.
        -- destruct (IH H) as (piece & [<- | Hin] & Hm).
           ++ exists (String d w). split; [left; reflexivity |].
              rewrite mem_cons, Hm. apply orb_true_r.
           ++ exists piece. split; [right; exact Hin | exact Hm].
Qed.

Lemma lstrip_by_id (p : ascii -> bool) (s : string) :
  Str.all (fun c => negb (p c)) s = true -> Str.lstrip_by p s = s.
Proof.
  destruct s as [| d s]; [reflexivity |]. rewrite all_cons. intros H.
  apply andb_true_iff in H. destruct H as [Hd _].
  simpl. apply negb_true_iff in Hd. rewrite Hd. reflexivity.
Qed.

Lemma rstrip_by_id (p : ascii -> bool) (s : string) :
  Str.all (fun c => negb (p c)) s = true -> Str.rstrip_by p s = s.
Proof.
  induction s as [| d s IH]; [reflexivity |]. rewrite all_cons. intros H.
  apply andb_true_iff in H. destruct H as [Hd Hs].
  simpl. rewrite (IH Hs). apply negb_true_iff in Hd. rewrite Hd. reflexivity.
Qed.

Lemma strip_by_id (p : ascii -> bool) (s : string) :
  Str.all (fun c => negb (p c)) s = true -> Str.strip_by p s = s.
Proof.
  intros H. unfold Str.strip_by. rewrite (lstrip_by_id p s H).
  apply rstrip_by_id, H.
Qed.

Lemma all_impl (p q : ascii -> bool) (s : string) :
  (forall c, p c = true -> q c = true) ->
  Str.all p s = true -> Str.all q s = true.
Proof.
  intros Hpq. induction s as [| d s IH]; [reflexivity |].
  rewrite !all_cons. intros H. apply andb_true_iff in H.
  destruct H as [Hd Hs]. rewrite (Hpq d Hd), (IH Hs). reflexivity.
Qed.

(** A property of characters checked on all 256 of them. *)
Lemma for_all_ascii (P : ascii -> bool) :
  forallb (fun n => P (ascii_of_nat n)) (seq 0 256) = true ->
  forall c, P c = true.
Proof.
  intros H c. rewrite forallb_forall in H.
  rewrite <- (ascii_nat_embedding c). apply H.
  apply in_seq. pose proof (nat_ascii_bounded c). lia.
Qed.

(** A property of integers checked on a whole interval starting at 0. *)
Lemma for_all_below (P : Z -> bool) (n : nat) :
  forallb (fun k => P (Z.of_nat k)) (seq 0 n) = true ->
  forall z, 0 <= z < Z.of_nat n -> P z = true.
Proof.
  intros H z Hz. rewrite forallb_forall in H.
  rewrite <- (Z2Nat.id z) by lia. apply H. apply in_seq. lia.
Qed.

(** ** Dotted quads *)

Lemma octet_text (o : Z) :
  0 <= o <= 255 ->
  Str.all is_digit (py_str o) = true /\ parse_octet (py_str o) = Some o.
Proof.
  intros Ho.
  assert (H : octet_text_ok o = true).
  { apply (for_all_below octet_text_ok 256); [vm_compute; reflexivity | lia]. }
  unfold octet_text_ok in H. apply andb_true_iff in H. destruct H as [H1 H2].
  split; [exact H1 |].
  destruct (parse_octet (py_str o)) as [v |]; [| discriminate H2].
  apply Z.eqb_eq in H2. subst v. reflexivity.
Qed.

Lemma int_text (n : Z) :
  0 <= n <= 32 ->
  Str.all is_digit (py_str n) = true /\ py_int 10 (py_str n) = Some n.
Proof.
  intros Hn.
  assert (H : int_text_ok n = true).
  { apply (for_all_below int_text_ok 33); [vm_compute; reflexivity | lia]. }
  unfold int_text_ok in H. apply andb_true_iff in H. destruct H as [H1 H2].
  split; [exact H1 |].
  destruct (py_int 10 (py_str n)) as [v |]; [| discriminate H2].
  apply Z.eqb_eq in H2. subst v. reflexivity.
Qed.

Lemma digits_not_mem (c : ascii) (s : string) :
  is_digit c = false -> Str.all is_digit s = true -> Str.mem c s = false.
Proof. intros Hc Hs. apply (all_not_mem is_digit); assumption. Qed.

Lemma inet_ntop4_quad (a b c d : Z) :
  inet_ntop4 [a; b; c; d]
  = py_str a +:+ String "." (py_str b +:+ String "." (py_str c
      +:+ String "." (py_str d))).
Proof. reflexivity. Qed.

Lemma inet_pton4_ntop4 (a b c d : Z) :
  0 <= a <= 255 -> 0 <= b <= 255 -> 0 <= c <= 255 -> 0 <= d <= 255 ->
  inet_pton4 (inet_ntop4 [a; b; c; d]) = Some [a; b; c; d].
Proof.
  intros Ha Hb Hc Hd.
  destruct (octet_text a Ha) as [Da Pa]. destruct (octet_text b Hb) as [Db Pb].
  destruct (octet_text c Hc) as [Dc Pc]. destruct (octet_text d Hd) as [Dd Pd].
  unfold inet_pton4. rewrite inet_ntop4_quad.
  rewrite !split_app_sep by (apply digits_not_mem; [reflexivity | assumption]).
  rewrite split_no_sep by (apply digits_not_mem; [reflexivity | assumption]).
  rewrite Pa, Pb, Pc, Pd. reflexivity.
Qed.

Lemma parse_octet_rejects (c : ascii) (piece : string) :
  Str.mem c piece = true -> is_digit c = false -> parse_octet piece = None.
Proof.
  intros Hm Hc. unfold parse_octet. destruct piece as [| x r]; [reflexivity |].
  destruct (Str.all is_digit (String x r)) eqn:Hall; [| reflexivity].
  rewrite (all_not_mem is_digit c _ Hall Hc) in Hm. discriminate Hm.
Qed.

(** [inet_pton(AF_INET, s)] fails on a text holding a character that is
    neither a digit nor a dot. *)
Lemma inet_pton4_rejects (c : ascii) (s : string) :
  Str.mem c s = true -> is_digit c = false -> c <> "."%char ->
  inet_pton4 s = None.
Proof.
  intros Hm Hc Hdot. destruct (mem_split c "." s Hm Hdot) as (piece & Hin & Hp).
  pose proof (parse_octet_rejects c piece Hp Hc) as Hnone.
  unfold inet_pton4.
  destruct (Str.split "." s) as [| p1 [| p2 [| p3 [| p4 [| p5 l]]]]];
    try reflexivity.
  simpl in Hin.
  destruct Hin as [<- | [<- | [<- | [<- | []]]]]; rewrite Hnone;
    repeat match goal with
           | |- context [match parse_octet ?x with _ => _ end] =>
               destruct (parse_octet x)
           end; reflexivity.
Qed.

Lemma pton6_loop_rejects (c : ascii) :
  digit_value c = None -> is_digit c = false ->
  c <> ":"%char -> c <> "."%char ->
  forall (src curtok : string) (tp : bytes) (colonp : option nat)
         (seen : nat) (val : Z),
    Str.mem c src = true -> Str.mem c curtok = true ->
    pton6_loop src curtok tp colonp seen val = None.
Proof.
  intros Hdv Hdig Hcolon Hdot.
  induction src as [| ch rest IH]; intros curtok tp colonp seen val Hsrc Hcur.
  - discriminate Hsrc.
  - rewrite mem_cons in Hsrc. simpl.
    destruct (digit_value ch) as [dg |] eqn:Hch.
    + assert (Hrest : Str.mem c rest = true).
      { destruct (Ascii.eqb_spec c ch) as [-> | _]; [congruence | exact Hsrc]. }
      destruct (seen =? 4)%nat; [reflexivity |].
      destruct (Z.lor (Z.shiftl val 4) dg >? 65535); [reflexivity |].
      apply IH; assumption.
    + destruct (Ascii.eqb_spec ch ":") as [-> | Hnc].
      * assert (Hrest : Str.mem c rest = true).
        { destruct (Ascii.eqb_spec c ":") as [-> | _];
            [contradiction | exact Hsrc]. }
        destruct (seen =? 0)%nat.
        -- destruct colonp; [reflexivity | apply IH; assumption].
        -- destruct (Str.is_empty rest); [reflexivity |].
           destruct (16 <? length tp + 2)%nat; [reflexivity |].
           apply IH; assumption.
      * destruct (Ascii.eqb ch "." && (length tp + 4 <=? 16)%nat);
          [| reflexivity].
        rewrite (inet_pton4_rejects c curtok Hcur Hdig Hdot). reflexivity.
Qed.

(** [inet_pton(AF_INET6, s)] fails on a text holding a character that is
    not a hexadecimal digit, a colon or a dot. *)
Lemma inet_pton6_rejects (c : ascii) (s : string) :
  Str.mem c s = true -> digit_value c = None -> is_digit c = false ->
  c <> ":"%char -> c <> "."%char ->
  inet_pton6 s = None.
Proof.
  intros Hm Hdv Hdig Hcolon Hdot. unfold inet_pton6.
  assert (Hloop : forall src, Str.mem c src = true ->
            pton6_loop src src [] None 0 0 = None).
  { intros src Hsrc. apply (pton6_loop_rejects c); assumption. }
  destruct s as [| x r]; [reflexivity |].
  destruct (Ascii.eqb_spec x ":") as [-> | Hx].
  - rewrite mem_cons in Hm.
    destruct (Ascii.eqb_spec c ":") as [-> | _]; [contradiction |].
    simpl in Hm. destruct r as [| y r']; [reflexivity |].
    destruct (Ascii.eqb_spec y ":") as [-> | Hy].
    + rewrite (Hloop _ Hm). reflexivity.
    + destruct y as [[] [] [] [] [] [] [] []]; try reflexivity.
      exfalso. apply Hy. reflexivity.
  - assert (E : match String x r with
                | String ":" (String ":" _ as r0) => Some r0
                | String ":" _ => None
                | _ => Some (String x r)
                end = Some (String x r)).
    { destruct x as [[] [] [] [] [] [] [] []]; try reflexivity.
      exfalso. apply Hx. reflexivity. }
    rewrite E, (Hloop _ Hm). reflexivity.
Qed.

(** ** Octet strings as integers *)

Lemma hex_byte (x : Z) : is_octet x -> hex_byte_ok x = true.
Proof.
  intros Hx. unfold is_octet in Hx.
  apply (for_all_below hex_byte_ok 256); [vm_compute; reflexivity | lia].
Qed.

Lemma hex_char_ok_inv (c : ascii) (v : Z) :
  hex_char_ok c v = true ->
  digit_value c = Some v
  /\ Str.is_c_space c = false
  /\ c <> "-"%char /\ c <> "+"%char /\ c <> "_"%char
  /\ c <> "x"%char /\ c <> "X"%char.
Proof.
  unfold hex_char_ok. intros H.
  repeat (apply andb_true_iff in H; destruct H as [H ?]).
  repeat match goal with
         | K : negb _ = true |- _ => apply negb_true_iff in K
         end.
  destruct (digit_value c) as [d |]; [| discriminate H].
  apply Z.eqb_eq in H. subst d.
  repeat split; try assumption;
    intros ->; match goal with
               | K : Ascii.eqb ?a ?a = false |- _ =>
                   rewrite Ascii.eqb_refl in K; discriminate K
               end.
Qed.

Lemma int_digits_hexlify (b : bytes) :
  Forall is_octet b ->
  forall (seen : bool) (acc : Z),
    seen = true \/ b <> [] ->
    int_digits 16 (hexlify b) false seen acc
    = Some (fold_left (fun a x => a * 256 + x) b acc).
Proof.
  induction 1 as [| x xs Hx Hxs IH]; intros seen acc Hseen.
  - destruct Hseen as [-> | Hne]; [reflexivity | contradiction].
  - pose proof (hex_byte x Hx) as Hb. unfold hex_byte_ok in Hb.
    apply andb_true_iff in Hb. destruct Hb as [H1 H2].
    apply hex_char_ok_inv in H1. apply hex_char_ok_inv in H2.
    destruct H1 as (D1 & _ & _ & _ & U1 & _).
    destruct H2 as (D2 & _ & _ & _ & U2 & _).
    unfold is_octet in Hx.
    assert (Hhi : 0 <= x / 16 < 16)
      by (split; [apply Z.div_pos | apply Z.div_lt_upper_bound]; lia).
    assert (Hlo : 0 <= x mod 16 < 16) by (apply Z.mod_pos_bound; lia).
    cbn [hexlify int_digits].
    apply Ascii.eqb_neq in U1. apply Ascii.eqb_neq in U2.
    rewrite U1, D1. replace (x / 16 <? 16) with true by (symmetry; apply Z.ltb_lt; lia).
    cbn [int_digits]. rewrite U2, D2.
    replace (x mod 16 <? 16) with true by (symmetry; apply Z.ltb_lt; lia).
    rewrite IH by (left; reflexivity). cbn [fold_left].
    f_equal. f_equal. pose proof (Z.div_mod x 16). lia.
Qed.

Lemma hexlify_no_space (b : bytes) :
  Forall is_octet b ->
  Str.all (fun c => negb (Str.is_c_space c)) (hexlify b) = true.
Proof.
  induction 1 as [| x xs Hx Hxs IH]; [reflexivity |].
  pose proof (hex_byte x Hx) as Hb. unfold hex_byte_ok in Hb.
  apply andb_true_iff in Hb. destruct Hb as [H1 H2].
  apply hex_char_ok_inv in H1. apply hex_char_ok_inv in H2.
  destruct H1 as (_ & S1 & _). destruct H2 as (_ & S2 & _).
  cbn [hexlify]. rewrite !all_cons, S1, S2, IH. reflexivity.
Qed.

Lemma int_sign_plain (c : ascii) (r : string) :
  c <> "-"%char -> c <> "+"%char -> int_sign (String c r) = (false, String c r).
Proof.
  intros Hm Hp. destruct c as [[] [] [] [] [] [] [] []];
    try reflexivity; exfalso; (apply Hm; reflexivity) || (apply Hp; reflexivity).
Qed.

Lemma int_prefix_plain (base : Z) (c x : ascii) (r : string) :
  x <> "x"%char -> x <> "X"%char ->
  int_prefix base (String c (String x r)) = String c (String x r).
Proof.
  intros H1 H2. apply Ascii.eqb_neq in H1. apply Ascii.eqb_neq in H2.
  unfold int_prefix. rewrite H1, H2, andb_false_r.
  destruct c as [[] [] [] [] [] [] [] []]; reflexivity.
Qed.

(** [int(binascii.hexlify(b), 16)] is the big-endian value of a non-empty
    octet string. *)
Lemma int_hexlify_value (b : bytes) :
  Forall is_octet b -> b <> [] -> int_hexlify b = Ok (be_value b).
Proof.
  intros Hb Hne. unfold int_hexlify, py_int.
  rewrite (strip_by_id _ _ (hexlify_no_space b Hb)).
  pose proof (int_digits_hexlify b Hb false 0 (or_intror Hne)) as Hd.
  destruct b as [| x xs]; [contradiction |].
  inversion Hb as [| ? ? Hx Hxs]; subst.
  pose proof (hex_byte x Hx) as Hk. unfold hex_byte_ok in Hk.
  apply andb_true_iff in Hk. destruct Hk as [H1 H2].
  apply hex_char_ok_inv in H1. apply hex_char_ok_inv in H2.
  destruct H1 as (_ & _ & M1 & P1 & _). destruct H2 as (_ & _ & _ & _ & _ & X1 & X2).
  cbn [hexlify] in *.
  rewrite (int_sign_plain _ _ M1 P1), (int_prefix_plain _ _ _ _ X1 X2), Hd.
  reflexivity.
Qed.

Lemma be_bytes_length (n : nat) (v : Z) : length (be_bytes n v) = n.
Proof.
  revert v. induction n as [| n IH]; intros v; [reflexivity |].
  cbn [be_bytes]. rewrite length_app, IH. simpl. lia.
Qed.

Lemma be_bytes_octets (n : nat) (v : Z) : Forall is_octet (be_bytes n v).
Proof.
  revert v. induction n as [| n IH]; intros v; [constructor |].
  cbn [be_bytes]. apply Forall_app. split; [apply IH |].
  constructor; [| constructor]. unfold is_octet.
  pose proof (Z.mod_pos_bound v 256). lia.
Qed.

Lemma fold_left_be_app (a b : bytes) (acc : Z) :
  fold_left (fun a x => a * 256 + x) (a ++ b) acc
  = fold_left (fun a x => a * 256 + x) b
      (fold_left (fun a x => a * 256 + x) a acc).
Proof. apply fold_left_app. Qed.

Lemma be_value_be_bytes (n : nat) (v : Z) :
  0 <= v < 256 ^ Z.of_nat n -> be_value (be_bytes n v) = v.
Proof.
  unfold be_value. revert v. induction n as [| n IH]; intros v Hv.
  - simpl in *. lia.
  - cbn [be_bytes]. rewrite fold_left_be_app, IH.
    + cbn [fold_left]. pose proof (Z.div_mod v 256). lia.
    + rewrite Nat2Z.inj_succ, Z.pow_succ_r in Hv by lia.
      split; [apply Z.div_pos; lia | apply Z.div_lt_upper_bound; lia].
Qed.

(** ** The arithmetic of an IPv4 block *)

Lemma host_mask (n : Z) :
  0 < n <= 30 ->
  Z.shiftr 4294967295 n = 2 ^ (32 - n) - 1
  /\ Z.lor 1 (2 ^ (32 - n) - 1) = 2 ^ (32 - n) - 1
  /\ 4 <= 2 ^ (32 - n)
  /\ 2 ^ (32 - n) * 2 ^ n = 4294967296.
Proof.
  intros Hn.
  assert (H : host_mask_ok n = true).
  { apply (for_all_below host_mask_ok 31); [vm_compute; reflexivity | lia]. }
  unfold host_mask_ok in H.
  replace (n =? 0) with false in H by (symmetry; apply Z.eqb_neq; lia).
  replace (30 <? n) with false in H by (symmetry; apply Z.ltb_ge; lia).
  simpl in H.
  repeat (apply andb_true_iff in H; destruct H as [H ?]).
  repeat split;
    [apply Z.eqb_eq | apply Z.eqb_eq | apply Z.leb_le | apply Z.eqb_eq];
    assumption.
Qed.

Lemma network_bounds (addr n : Z) :
  0 <= addr < 4294967296 -> 0 < n <= 30 ->
  0 <= network addr n
  /\ network addr n <= addr
  /\ broadcast addr n < 4294967296.
Proof.
  intros Ha Hn. destruct (host_mask n Hn) as (_ & _ & H4 & Hp).
  unfold broadcast, network. set (m := 2 ^ (32 - n)) in *.
  assert (Hm : 0 < m) by lia.
  pose proof (Z.div_mod addr m ltac:(lia)) as Hdm.
  pose proof (Z.mod_pos_bound addr m Hm) as Hmod.
  assert (Hq : 0 <= addr / m) by (apply Z.div_pos; lia).
  assert (Hq2 : addr / m < 2 ^ n).
  { apply Z.div_lt_upper_bound; lia. }
  split; [nia |]. split; [nia |]. nia.
Qed.

(** The two bounds computed by [target_to_ipv4_cidr]. *)
Lemma cidr_bounds (addr n : Z) :
  0 <= addr < 4294967296 -> 0 < n <= 30 ->
  Z.shiftl (Z.shiftr addr (32 - n)) (32 - n) + 1 = network addr n + 1
  /\ Z.lor (network addr n + 1) (Z.shiftr 4294967295 n) - 1
     = broadcast addr n - 1.
Proof.
  intros Ha Hn. destruct (host_mask n Hn) as (Hmask & Hone & H4 & Hp).
  assert (Hk : 0 <= 32 - n) by lia.
  assert (Hnet : Z.shiftl (Z.shiftr addr (32 - n)) (32 - n) = network addr n).
  { rewrite Z.shiftl_mul_pow2, Z.shiftr_div_pow2 by lia. reflexivity. }
  split; [rewrite Hnet; reflexivity |].
  rewrite Hmask. unfold broadcast.
  assert (Hlow : Z.land (network addr n) (2 ^ (32 - n) - 1) = 0).
  { change (2 ^ (32 - n) - 1) with (Z.pred (2 ^ (32 - n))).
    rewrite <- Z.ones_equiv, Z.land_ones by lia.
    unfold network. apply Z.mod_mul. lia. }
  assert (Hbit : Z.land (network addr n) 1 = 0).
  { change 1 with (Z.ones 1). rewrite Z.land_ones by lia.
    unfold network.
    replace (2 ^ (32 - n)) with (2 ^ (32 - n - 1) * 2 ^ 1)
      by (rewrite <- Z.pow_add_r by lia; f_equal; lia).
    rewrite Z.mul_assoc. apply Z.mod_mul. lia. }
  rewrite (Z.add_nocarry_lor _ _ Hbit), <- Z.lor_assoc, Hone.
  rewrite <- (Z.add_nocarry_lor _ _ Hlow). lia.
Qed.

(** ** Ranges of addresses *)

Lemma in_py_range (x a b : Z) : In x (py_range a b) <-> a <= x < b.
Proof.
  unfold py_range. rewrite in_map_iff. split.
  - intros (i & <- & Hi). apply in_seq in Hi. lia.
  - intros Hx. exists (Z.to_nat (x - a)). split; [lia |].
    apply in_seq. lia.
Qed.

Lemma py_range_length (a b : Z) : length (py_range a b) = Z.to_nat (b - a).
Proof. unfold py_range. rewrite length_map, length_seq. reflexivity. Qed.

Lemma py_range_NoDup (a b : Z) : NoDup (py_range a b).
Proof.
  unfold py_range. apply NoDup_fmap_2_strong; [| apply NoDup_seq].
  intros i j _ _ H. lia.
Qed.

Lemma mapM_ok {A B : Type} (f : A -> result B) (g : A -> B) (l : list A) :
  (forall x, In x l -> f x = Ok (g x)) -> mapM f l = Ok (map g l).
Proof.
  induction l as [| x xs IH]; intros H; [reflexivity |].
  cbn [mapM map]. rewrite (H x (or_introl eq_refl)). cbn [bind].
  rewrite IH by (intros y Hy; apply H; right; exact Hy). reflexivity.
Qed.

Lemma struct_pack_ok (n : nat) (v : Z) :
  0 <= v < 256 ^ Z.of_nat n -> struct_pack n v = Ok (be_bytes n v).
Proof.
  intros Hv. unfold struct_pack.
  replace (0 <=? v) with true by (symmetry; apply Z.leb_le; lia).
  replace (v <? 256 ^ Z.of_nat n) with true by (symmetry; apply Z.ltb_lt; lia).
  reflexivity.
Qed.

(** Between two packed 32-bit values, [ipv4_range_to_list] writes out
    every address from the first to the second, in ascending order. *)
Lemma ipv4_range_to_list_packed (s e : Z) :
  0 <= s < 4294967296 -> 0 <= e < 4294967296 ->
  ipv4_range_to_list (be_bytes 4 s) (be_bytes 4 e)
  = Ok (map dotted (py_range s (e + 1))).
Proof.
  intros Hs He. unfold ipv4_range_to_list, struct_unpack_L.
  rewrite !be_bytes_length. cbn [Nat.eqb bind].
  rewrite !be_value_be_bytes by (change (256 ^ Z.of_nat 4) with 4294967296; lia).
  apply mapM_ok. intros x Hx. apply in_py_range in Hx.
  rewrite struct_pack_ok by (change (256 ^ Z.of_nat 4) with 4294967296; lia).
  cbn [bind]. unfold inet_ntoa. rewrite be_bytes_length. reflexivity.
Qed.

Lemma inet_pton4_dotted (v : Z) :
  inet_pton4 (dotted v) = Some (be_bytes 4 v).
Proof.
  unfold dotted.
  pose proof (be_bytes_octets 4 v) as H. cbn [be_bytes app] in *.
  inversion H as [| ? ? H1 H']; subst. inversion H' as [| ? ? H2 H'']; subst.
  inversion H'' as [| ? ? H3 H''']; subst. inversion H''' as [| ? ? H4 _]; subst.
  apply inet_pton4_ntop4; assumption.
Qed.

Lemma dotted_injective (v w : Z) :
  0 <= v < 4294967296 -> 0 <= w < 4294967296 -> dotted v = dotted w -> v = w.
Proof.
  intros Hv Hw H.
  assert (E : Some (be_bytes 4 v) = Some (be_bytes 4 w)).
  { rewrite <- !inet_pton4_dotted, H. reflexivity. }
  assert (E' : be_value (be_bytes 4 v) = be_value (be_bytes 4 w))
    by congruence.
  rewrite !be_value_be_bytes in E'
    by (change (256 ^ Z.of_nat 4) with 4294967296; lia).
  exact E'.
Qed.

(** ** IPv4 blocks through the resolver *)

Lemma fromkeys_NoDup (l seen : list string) :
  NoDup (seen ++ l) -> fromkeys seen l = seen ++ l.
Proof.
  revert seen. induction l as [| x r IH]; intros seen H.
  - cbn [fromkeys]. rewrite app_nil_r. reflexivity.
  - cbn [fromkeys].
    assert (Hx : existsb (String.eqb x) seen = false).
    { destruct (existsb (String.eqb x) seen) eqn:E; [| reflexivity].
      apply existsb_exists in E. destruct E as (y & Hy & Heq).
      apply String.eqb_eq in Heq. subst y.
      apply NoDup_app in H. destruct H as (_ & Hdis & _).
      exfalso. apply (Hdis x); [apply list_elem_of_In; exact Hy | left]. }
    rewrite Hx, IH; rewrite <- app_assoc; [reflexivity | exact H].
Qed.

Lemma cidr_char_facts (c : ascii) :
  is_cidr_char c = true ->
  Str.is_space c = false /\ c <> ","%char /\ c <> "000"%char.
Proof.
  intros Hc.
  assert (H : cidr_char_plain c = true).
  { apply (for_all_ascii cidr_char_plain). vm_compute. reflexivity. }
  unfold cidr_char_plain in H. rewrite Hc in H. simpl in H.
  repeat (apply andb_true_iff in H; destruct H as [H ?]).
  repeat match goal with
         | K : negb _ = true |- _ => apply negb_true_iff in K
         end.
  repeat split; try assumption; intros ->; discriminate.
Qed.

Lemma cidr_text_plain (s : string) :
  Str.all is_cidr_char s = true ->
  Str.all (fun c => negb (Str.is_space c)) s = true
  /\ Str.mem "," s = false
  /\ Str.mem "000" s = false.
Proof.
  intros H. split; [| split].
  - revert H. apply all_impl. intros c Hc.
    destruct (cidr_char_facts c Hc) as (Hs & _). rewrite Hs. reflexivity.
  - apply (all_not_mem is_cidr_char); [exact H | reflexivity].
  - apply (all_not_mem is_cidr_char); [exact H | reflexivity].
Qed.

Lemma digits_are_cidr (s : string) :
  Str.all is_digit s = true -> Str.all is_cidr_char s = true.
Proof.
  apply all_impl. intros c Hc. unfold is_cidr_char. rewrite Hc. reflexivity.
Qed.

Lemma quad_text (a b c d : Z) :
  is_octet a -> is_octet b -> is_octet c -> is_octet d ->
  Str.all is_cidr_char (inet_ntop4 [a; b; c; d]) = true
  /\ Str.mem "/" (inet_ntop4 [a; b; c; d]) = false.
Proof.
  intros Ha Hb Hc Hd.
  destruct (octet_text a Ha) as [Da _]. destruct (octet_text b Hb) as [Db _].
  destruct (octet_text c Hc) as [Dc _]. destruct (octet_text d Hd) as [Dd _].
  rewrite inet_ntop4_quad. split.
  - repeat first [rewrite all_app | rewrite all_cons].
    rewrite !digits_are_cidr by assumption. reflexivity.
  - repeat first [rewrite mem_app | rewrite mem_cons].
    rewrite !(digits_not_mem "/") by (reflexivity || assumption).
    reflexivity.
Qed.

Lemma cidr_token_text (a b c d n : Z) :
  is_octet a -> is_octet b -> is_octet c -> is_octet d -> 0 < n <= 30 ->
  Str.all is_cidr_char (cidr_token a b c d n) = true
  /\ Str.mem "/" (cidr_token a b c d n) = true
  /\ Str.split "/" (cidr_token a b c d n)
     = [inet_ntop4 [a; b; c; d]; py_str n].
Proof.
  intros Ha Hb Hc Hd Hn.
  destruct (quad_text a b c d Ha Hb Hc Hd) as [Qall Qmem].
  destruct (int_text n ltac:(lia)) as [Dn _].
  unfold cidr_token.
  change ("/" +:+ py_str n) with (String "/" (py_str n)).
  split; [| split].
  - rewrite all_app, all_cons, Qall, (digits_are_cidr _ Dn). reflexivity.
  - rewrite mem_app, mem_cons. simpl. apply orb_true_r.
  - rewrite (split_app_sep _ _ _ Qmem), split_no_sep; [reflexivity |].
    apply digits_not_mem; [reflexivity | exact Dn].
Qed.

Lemma inet_pton_rejects (af : family) (s : string) :
  Str.mem "000" s = false -> Str.mem "/" s = true ->
  inet_pton af s = Raise SocketError.
Proof.
  intros Hnul Hslash. unfold inet_pton. rewrite Hnul. destruct af.
  - rewrite (inet_pton4_rejects "/" s Hslash); [reflexivity | reflexivity |].
    discriminate.
  - rewrite (inet_pton6_rejects "/" s Hslash); try reflexivity; discriminate.
Qed.

Lemma be_value_quad (a b c d : Z) :
  is_octet a -> is_octet b -> is_octet c -> is_octet d ->
  0 <= be_value [a; b; c; d] < 4294967296.
Proof. unfold is_octet, be_value. cbn [fold_left]. lia. Qed.

(** The IPv4 CIDR matcher on the text of a block. *)
Lemma target_to_ipv4_cidr_token (a b c d n : Z) :
  is_octet a -> is_octet b -> is_octet c -> is_octet d -> 0 < n <= 30 ->
  target_to_ipv4_cidr (cidr_token a b c d n)
  = Ok (Some (map dotted
                (py_range (network (be_value [a; b; c; d]) n + 1)
                          (broadcast (be_value [a; b; c; d]) n)))).
Proof.
  intros Ha Hb Hc Hd Hn.
  destruct (cidr_token_text a b c d n Ha Hb Hc Hd Hn) as (_ & _ & Hsplit).
  destruct (quad_text a b c d Ha Hb Hc Hd) as [Qall _].
  destruct (cidr_text_plain _ Qall) as (_ & _ & Qnul).
  destruct (int_text n ltac:(lia)) as [_ Hint].
  pose proof (be_value_quad a b c d Ha Hb Hc Hd) as Haddr.
  set (addr := be_value [a; b; c; d]) in *.
  destruct (cidr_bounds addr n Haddr Hn) as [Hstart Hend].
  destruct (network_bounds addr n Haddr Hn) as (N0 & N1 & B1).
  destruct (host_mask n Hn) as (_ & _ & H4 & _).
  unfold target_to_ipv4_cidr. rewrite Hsplit. cbn [length Nat.eqb negb nth].
  unfold inet_pton. rewrite Qnul, (inet_pton4_ntop4 a b c d Ha Hb Hc Hd).
  unfold int_of_str. rewrite Hint. cbn [bind try_or_none].
  replace (n <=? 0) with false by (symmetry; apply Z.leb_gt; lia).
  replace (30 <? n) with false by (symmetry; apply Z.ltb_ge; lia).
  cbn [orb].
  assert (Hoct : Forall is_octet [a; b; c; d]).
  { repeat (constructor; [assumption |]). constructor. }
  rewrite (int_hexlify_value _ Hoct) by discriminate.
  cbn [bind]. fold addr. rewrite Hstart, Hend.
  unfold broadcast in B1 |- *.
  rewrite !struct_pack_ok
    by (change (256 ^ Z.of_nat 4) with 4294967296; lia).
  cbn [bind]. rewrite ipv4_range_to_list_packed by lia. cbn [bind].
  repeat f_equal. lia.
Qed.

Lemma or_else_keeps (h : string) (t : list string) (next : result hosts) :
  or_else (Some (h :: t)) next = Ok (Some (h :: t)).
Proof. reflexivity. Qed.

(** Once a matcher has produced a non-empty list, [target_to_list]
    returns it whatever the later matchers would have said. *)
Lemma target_to_list_cidr (target : string) (h : string) (t : list string) :
  target_to_ipv4 target = Ok None ->
  target_to_ipv6 target = Ok None ->
  target_to_ipv4_cidr target = Ok (Some (h :: t)) ->
  target_to_list target = Ok (Some (h :: t)).
Proof.
  intros H4 H6 Hc. unfold target_to_list.
  rewrite H4. cbn [bind or_else falsy]. rewrite H6. cbn [bind or_else falsy].
  rewrite Hc. cbn [bind]. rewrite !or_else_keeps. reflexivity.
Qed.

Lemma target_str_to_list_single (target : string) (h : string)
    (t : list string) :
  Str.mem "," target = false ->
  Str.all (fun c => negb (Str.is_space c)) target = true ->
  target_to_list target = Ok (Some (h :: t)) ->
  NoDup (h :: t) ->
  target_str_to_list target = Ok (Some (h :: t)).
Proof.
  intros Hcomma Hspace Hlist Hnd. unfold target_str_to_list.
  rewrite (split_no_sep _ _ Hcomma). cbn [target_str_loop].
  unfold Str.strip. rewrite (strip_by_id _ _ Hspace), Hlist.
  cbn [bind app target_str_loop].
  rewrite (fromkeys_NoDup (h :: t) [] Hnd). reflexivity.
Qed.

Lemma dotted_range_NoDup (s e : Z) :
  0 <= s -> e <= 4294967296 -> NoDup (map dotted (py_range s e)).
Proof.
  intros Hs He. apply NoDup_fmap_2_strong; [| apply py_range_NoDup].
  intros x y Hx Hy. apply list_elem_of_In, in_py_range in Hx.
  apply list_elem_of_In, in_py_range in Hy. apply dotted_injective; lia.
Qed.

Lemma dotted_not_in_range (v s e : Z) :
  0 <= v < 4294967296 -> 0 <= s -> e <= 4294967296 ->
  ~ (s <= v < e) -> ~ In (dotted v) (map dotted (py_range s e)).
Proof.
  intros Hv Hs He Hout Hin. apply in_map_iff in Hin.
  destruct Hin as (w & Heq & Hw). apply in_py_range in Hw.
  apply dotted_injective in Heq; lia.
Qed.

(** C2: for every IPv4 block written "A.B.C.D/n" with octets A, B, C, D
    and 0 < n <= 30, the CIDR matcher, the per-token resolver and the
    resolver of whole specifications all return the same list: the dotted
    quads of network+1, network+2, ..., broadcast-1 in ascending order.
    The list has 2^(32-n) - 2 entries and holds neither the network nor
    the broadcast address. *)
Theorem ipv4_cidr_expands (a b c d n : Z) :
  is_octet a -> is_octet b -> is_octet c -> is_octet d -> 0 < n <= 30 ->
  let addr := be_value [a; b; c; d] in
  let usable :=
    map dotted (py_range (network addr n + 1) (broadcast addr n)) in
  target_to_ipv4_cidr (cidr_token a b c d n) = Ok (Some usable)
  /\ target_to_list (cidr_token a b c d n) = Ok (Some usable)
  /\ target_str_to_list (cidr_token a b c d n) = Ok (Some usable)
  /\ Z.of_nat (length usable) = 2 ^ (32 - n) - 2
  /\ ~ In (dotted (network addr n)) usable
  /\ ~ In (dotted (broadcast addr n)) usable.
Proof.
  intros Ha Hb Hc Hd Hn addr usable.
  pose proof (target_to_ipv4_cidr_token a b c d n Ha Hb Hc Hd Hn) as Hcidr.
  fold addr in Hcidr. fold usable in Hcidr.
  destruct (cidr_token_text a b c d n Ha Hb Hc Hd Hn) as (Tall & Tslash & _).
  destruct (cidr_text_plain _ Tall) as (Tspace & Tcomma & Tnul).
  pose proof (be_value_quad a b c d Ha Hb Hc Hd) as Haddr. fold addr in Haddr.
  destruct (network_bounds addr n Haddr Hn) as (N0 & N1 & B1).
  destruct (host_mask n Hn) as (_ & _ & H4 & _).
  assert (Hlen : Z.of_nat (length usable) = 2 ^ (32 - n) - 2).
  { unfold usable. rewrite length_map, py_range_length.
    unfold broadcast. lia. }
  assert (Hnd : NoDup usable) by (apply dotted_range_NoDup; lia).
  assert (H4' : target_to_ipv4 (cidr_token a b c d n) = Ok None).
  { unfold target_to_ipv4.
    rewrite (inet_pton_rejects AF_INET _ Tnul Tslash). reflexivity. }
  assert (H6' : target_to_ipv6 (cidr_token a b c d n) = Ok None).
  { unfold target_to_ipv6.
    rewrite (inet_pton_rejects AF_INET6 _ Tnul Tslash). reflexivity. }
  destruct usable as [| h t] eqn:Husable; [simpl in Hlen; lia |].
  pose proof (target_to_list_cidr _ h t H4' H6' Hcidr) as Hlist.
  split; [exact Hcidr |]. split; [exact Hlist |].
  split; [apply target_str_to_list_single; assumption |].
  split; [exact Hlen |].
  rewrite <- Husable. unfold broadcast in *.
  split; apply dotted_not_in_range; lia.
Qed.

Lemma ipv4_cidr_expands_witness :
  target_str_to_list "10.0.0.0/30" = Ok (Some ["10.0.0.1"; "10.0.0.2"])
  /\ ~ In "10.0.0.0" ["10.0.0.1"; "10.0.0.2"]
  /\ ~ In "10.0.0.3" ["10.0.0.1"; "10.0.0.2"].
Proof.
  assert (Ho : forall x, 0 <= x <= 255 -> is_octet x) by (intros x H; exact H).
  destruct (ipv4_cidr_expands 10 0 0 0 30
              (Ho 10 ltac:(lia)) (Ho 0 ltac:(lia)) (Ho 0 ltac:(lia))
              (Ho 0 ltac:(lia)) ltac:(lia))
    as (_ & _ & H3 & _ & H5 & H6).
  split; [exact H3 |]. split; [exact H5 | exact H6].
Defined.

(** ** The progress invariant over every reachable collection *)

Lemma set_field_snd (scan_id : string) (f : ScanInfo -> ScanInfo)
    (c : ScanCollection) :
  snd (set_field scan_id f c)
  = match scans_table c !! scan_id with
    | Some i => with_table (<[scan_id := f i]> (scans_table c)) c
    | None => c
    end.
Proof. unfold set_field. destruct (scans_table c !! scan_id); reflexivity. Qed.

Lemma invariant_insert (c : ScanCollection) (scan_id : string) (i : ScanInfo) :
  registry_invariant c -> progress_invariant i ->
  registry_invariant (with_table (<[scan_id := i]> (scans_table c)) c).
Proof.
  intros Hc Hi other j. simpl. rewrite lookup_insert.
  destruct (decide (scan_id = other)) as [-> | Hne].
  - intros H. injection H as <-. exact Hi.
  - apply Hc.
Qed.

Lemma set_field_invariant (scan_id : string) (f : ScanInfo -> ScanInfo)
    (c : ScanCollection) :
  registry_invariant c ->
  (forall i, progress_invariant i -> progress_invariant (f i)) ->
  registry_invariant (snd (set_field scan_id f c)).
Proof.
  intros Hc Hf. rewrite set_field_snd.
  destruct (scans_table c !! scan_id) as [i |] eqn:E; [| exact Hc].
  apply invariant_insert; [exact Hc |]. apply Hf. apply (Hc scan_id i E).
Qed.

Lemma get_scan_bind_snd {B : Type} (scan_id : string)
    (k : ScanInfo -> call B) (c : ScanCollection) :
  snd (call_bind (get_scan scan_id) k c)
  = match scans_table c !! scan_id with
    | Some i => snd (k i c)
    | None => c
    end.
Proof.
  unfold call_bind, get_scan. destruct (scans_table c !! scan_id); reflexivity.
Qed.

Lemma set_progress_invariant (scan_id : string) (p now : Z)
    (c : ScanCollection) :
  registry_invariant c ->
  registry_invariant (snd (set_progress scan_id p now c)).
Proof.
  intros Hc. unfold set_progress, call_bind, call_ret.
  destruct (scans_table c !! scan_id) as [info |] eqn:E.
  - destruct ((0 <? p) && (p <=? 100)) eqn:Hrange.
    + rewrite (set_field_present _ _ _ _ E).
      destruct (p =? 100) eqn:Hp.
      * rewrite (set_field_present _ _ _ _ (with_table_lookup _ _ _)).
        intros other j. simpl. rewrite lookup_insert.
        destruct (decide (scan_id = other)) as [-> | Hne].
        -- intros H. injection H as <-. intros _. exact I.
        -- rewrite lookup_insert_ne by exact Hne. apply Hc.
      * apply invariant_insert; [exact Hc |].
        intros Habs. simpl in Habs. apply Z.eqb_neq in Hp. contradiction.
    + destruct (p =? 100) eqn:Hp; [| exact Hc].
      apply Z.eqb_eq in Hp. subst p. discriminate Hrange.
  - destruct ((0 <? p) && (p <=? 100)).
    + unfold set_field. rewrite E. exact Hc.
    + destruct (p =? 100); [| exact Hc].
      unfold set_field. simpl. rewrite E. exact Hc.
Qed.

Lemma call_bind_snd_invariant {A B : Type} (m : call A) (k : A -> call B)
    (c : ScanCollection) :
  registry_invariant (snd (m c)) ->
  (forall a c', registry_invariant c' -> registry_invariant (snd (k a c'))) ->
  registry_invariant (snd (call_bind m k c)).
Proof.
  intros Hm Hk. unfold call_bind. destruct (m c) as [[a | e] c']; simpl in *.
  - apply Hk, Hm.
  - exact Hm.
Qed.

Lemma resume_scan_invariant (scan_id : string) (options : option (dict string))
    (c : ScanCollection) :
  registry_invariant c ->
  registry_invariant (snd (resume_scan scan_id options c)).
Proof.
  intros Hc. unfold resume_scan.
  apply call_bind_snd_invariant.
  { apply set_field_invariant; [exact Hc | intros i Hi; exact Hi]. }
  intros _ c1 Hc1. apply call_bind_snd_invariant.
  { destruct (options_truthy options); [| exact Hc1].
    apply set_field_invariant; [exact Hc1 | intros i Hi; exact Hi]. }
  intros _ c2 Hc2. apply call_bind_snd_invariant.
  { rewrite del_results_snd. exact Hc2. }
  intros _ c3 Hc3. exact Hc3.
Qed.

Lemma can_resume_snd (scan_id : string) (c : ScanCollection) :
  snd (can_resume scan_id c) = c.
Proof.
  unfold can_resume. destruct (Str.is_empty scan_id); [reflexivity |].
  unfold call_bind at 1. unfold id_exists.
  destruct (bool_decide (is_Some (scans_table c !! scan_id))); [| reflexivity].
  unfold get_status, call_bind, get_scan, call_ret.
  destruct (scans_table c !! scan_id); reflexivity.
Qed.

Lemma create_scan_invariant (scan_id : string) (targets : list target_entry)
    (options : option (dict string)) (vts : string) (now : Z) (fresh : string)
    (c : ScanCollection) :
  registry_invariant c ->
  registry_invariant (snd (create_scan scan_id targets options vts now fresh c)).
Proof.
  intros Hc. unfold create_scan.
  apply call_bind_snd_invariant; [exact Hc |].
  intros _ c1 Hc1. apply call_bind_snd_invariant.
  { rewrite can_resume_snd. exact Hc1. }
  intros resume c2 Hc2. destruct resume.
  - apply resume_scan_invariant, Hc2.
  - apply call_bind_snd_invariant.
    + apply invariant_insert; [exact Hc2 | apply new_scan_info_invariant].
    + intros _ c3 Hc3. exact Hc3.
Qed.

Lemma delete_scan_invariant (scan_id : string) (c : ScanCollection) :
  registry_invariant c -> registry_invariant (snd (delete_scan scan_id c)).
Proof.
  intros Hc. unfold delete_scan, get_status, call_bind, call_ret, get_scan.
  destruct (scans_table c !! scan_id) as [i |]; [| exact Hc].
  destruct (ScanStatus_eqb (status i) RUNNING); [exact Hc |].
  intros other j. simpl. rewrite lookup_delete.
  destruct (decide (scan_id = other)); [discriminate | apply Hc].
Qed.

Lemma serve_invariant (c : ScanCollection) (r : request) :
  registry_invariant c -> registry_invariant (serve c r).
Proof.
  intros Hc.
  destruct r as [id ts os v n f | id p n | id st
                | id ty h nm vl po ti se q | id t h | id | id]; cbn [serve].
  - apply create_scan_invariant, Hc.
  - apply set_progress_invariant, Hc.
  - apply set_field_invariant; [exact Hc | intros i Hi; exact Hi].
  - unfold add_result.
    destruct (Str.is_empty id); [exact Hc |].
    destruct (Str.is_empty nm && Str.is_empty vl); [exact Hc |].
    rewrite get_scan_bind_snd.
    destruct (scans_table c !! id) as [i |] eqn:E; [| exact Hc].
    apply set_field_invariant; [exact Hc | intros j Hj; exact Hj].
  - unfold set_host_finished. rewrite get_scan_bind_snd.
    destruct (scans_table c !! id) as [i |] eqn:E; [| exact Hc].
    destruct (dict_get t (finished_hosts i)); [| exact Hc].
    apply set_field_invariant; [exact Hc | intros j Hj; exact Hj].
  - unfold results_iterator. rewrite get_scan_bind_snd.
    destruct (scans_table c !! id) as [i |] eqn:E; [| exact Hc].
    apply call_bind_snd_invariant.
    + apply set_field_invariant; [exact Hc | intros j Hj; exact Hj].
    + intros _ c' Hc'. exact Hc'.
  - apply delete_scan_invariant, Hc.
Qed.

(** X1: in every collection reached from the empty one by calls of the
    registry, whether they returned or raised, a scan whose progress is
    100 has its [end_time] stamped. *)
Theorem reachable_progress_invariant (requests : list request) :
  registry_invariant (serve_all requests).
Proof.
  unfold serve_all.
  assert (H : forall c, registry_invariant c ->
                registry_invariant (fold_left serve requests c)).
  { induction requests as [| r rs IH]; intros c Hc; [exact Hc |].
    cbn [fold_left]. apply IH, serve_invariant, Hc. }
  apply H. intros scan_id i Hget. simpl in Hget.
  rewrite lookup_empty in Hget. discriminate Hget.
Qed.

(** ** The loop of the resolver when no matcher raises *)

Lemma filter_twice {A : Type} (f g : A -> bool) (l : list A) :
  List.filter f (List.filter g l) = List.filter (fun x => g x && f x) l.
Proof.
  induction l as [| x r IH]; [reflexivity |]. cbn [List.filter].
  destruct (g x); cbn [andb List.filter]; [destruct (f x) |];
    rewrite IH; reflexivity.
Qed.

Lemma fromkeys_app_bounded (n : nat) :
  forall (l seen : list string),
    (length l <= n)%nat ->
    fromkeys seen l
    = seen ++ fromkeys []
                (List.filter (fun x => negb (existsb (String.eqb x) seen)) l).
Proof.
  induction n as [| n IH]; intros l seen Hlen.
  - destruct l; [| cbn [length] in Hlen; lia].
    cbn. rewrite app_nil_r. reflexivity.
  - destruct l as [| x r].
    + cbn. rewrite app_nil_r. reflexivity.
    + cbn [length] in Hlen. cbn [fromkeys List.filter].
      destruct (existsb (String.eqb x) seen) eqn:E; cbn [negb].
      * apply IH. lia.
      * cbn [fromkeys existsb app].
        rewrite (IH r (seen ++ [x])) by lia.
        rewrite (IH (List.filter _ r) [x])
          by (pose proof (filter_length_le
                (fun y => negb (existsb (String.eqb y) seen)) r); lia).
        rewrite <- app_assoc. cbn [app]. do 3 f_equal.
        rewrite filter_twice. apply filter_ext. intros y.
        rewrite existsb_app. cbn [existsb]. rewrite orb_false_r, negb_orb.
        reflexivity.
Qed.

Lemma fromkeys_app (seen l : list string) :
  fromkeys seen l
  = seen ++ fromkeys []
              (List.filter (fun x => negb (existsb (String.eqb x) seen)) l).
Proof. apply (fromkeys_app_bounded (length l)). lia. Qed.

(** [fromkeys] keeps the first occurrence of every host and drops the
    later ones. *)
Lemma fromkeys_cons (x : string) (l : list string) :
  fromkeys [] (x :: l)
  = x :: fromkeys [] (List.filter (fun y => negb (String.eqb y x)) l).
Proof.
  cbn [fromkeys existsb app]. rewrite fromkeys_app. cbn [app].
  do 2 f_equal. apply filter_ext. intros y. cbn [existsb].
  rewrite orb_false_r. reflexivity.
Qed.

Lemma fromkeys_In (x : string) (l : list string) :
  In x (fromkeys [] l) <-> In x l.
Proof.
  remember (length l) as n eqn:Hn. revert l Hn.
  induction n as [n IH] using lt_wf_ind. intros l Hn.
  destruct l as [| y r]; [reflexivity |].
  rewrite fromkeys_cons. cbn [In].
  rewrite (IH (length (List.filter (fun z => negb (String.eqb z y)) r)));
    [| subst n; cbn [length]; pose proof (filter_length_le
         (fun z => negb (String.eqb z y)) r); lia | reflexivity].
  rewrite filter_In. split.
  - intros [H | [H _]]; [left | right]; assumption.
  - intros [H | H]; [left; exact H |].
    destruct (String.eqb_spec x y) as [-> | Hne]; [left; reflexivity |].
    right. split; [exact H | reflexivity].
Qed.

Lemma fromkeys_is_NoDup (l : list string) : NoDup (fromkeys [] l).
Proof.
  remember (length l) as n eqn:Hn. revert l Hn.
  induction n as [n IH] using lt_wf_ind. intros l Hn.
  destruct l as [| y r]; [constructor |].
  rewrite fromkeys_cons. constructor.
  - rewrite list_elem_of_In, fromkeys_In, filter_In.
    intros [_ H]. rewrite String.eqb_refl in H. discriminate H.
  - apply (IH (length (List.filter (fun z => negb (String.eqb z y)) r)));
      [| reflexivity].
    subst n. cbn [length].
    pose proof (filter_length_le (fun z => negb (String.eqb z y)) r). lia.
Qed.

(** Every piece resolves to a non-empty list: the loop returns the lists
    joined in order, each host once, at its first position. *)
Lemma target_str_loop_all (pieces : list string) (lists : list (list string))
    (new_list : list string) :
  Forall2 (fun piece l =>
             l <> [] /\ target_to_list (Str.strip piece) = Ok (Some l))
          pieces lists ->
  target_str_loop pieces new_list
  = Ok (Some (fromkeys [] (new_list ++ concat lists))).
Proof.
  intros H. revert new_list.
  induction H as [| piece l pieces lists [Hne Hl] _ IH]; intros new_list.
  - cbn. rewrite app_nil_r. reflexivity.
  - cbn [target_str_loop concat]. rewrite Hl. cbn [bind].
    destruct l as [| h t]; [contradiction |].
    rewrite IH, <- app_assoc. reflexivity.
Qed.

(** Pieces that resolve, then one that resolves to no host list: the loop
    returns [None], whatever follows. *)
Lemma target_str_loop_invalid (good : list string) (lists : list (list string))
    (bad : string) (rest : list string) (r : hosts) (new_list : list string) :
  Forall2 (fun piece l =>
             l <> [] /\ target_to_list (Str.strip piece) = Ok (Some l))
          good lists ->
  target_to_list (Str.strip bad) = Ok r ->
  falsy r = true ->
  target_str_loop (good ++ bad :: rest) new_list = Ok None.
Proof.
  intros H Hbad Hr. revert new_list.
  induction H as [| piece l pieces lists [Hne Hl] _ IH]; intros new_list.
  - cbn [app target_str_loop]. rewrite Hbad. cbn [bind].
    destruct r as [[| h t] |]; [reflexivity | discriminate Hr | reflexivity].
  - cbn [app target_str_loop]. rewrite Hl. cbn [bind].
    destruct l as [| h t]; [contradiction |]. apply IH.
Qed.

(** A piece that raises before any piece has failed to resolve: the
    exception leaves the loop. *)
Lemma target_str_loop_raises (good : list string) (lists : list (list string))
    (bad : string) (rest : list string) (e : exn) (new_list : list string) :
  Forall2 (fun piece l =>
             l <> [] /\ target_to_list (Str.strip piece) = Ok (Some l))
          good lists ->
  target_to_list (Str.strip bad) = Raise e ->
  target_str_loop (good ++ bad :: rest) new_list = Raise e.
Proof.
  intros H Hbad. revert new_list.
  induction H as [| piece l pieces lists [Hne Hl] _ IH]; intros new_list.
  - cbn [app target_str_loop]. rewrite Hbad. reflexivity.
  - cbn [app target_str_loop]. rewrite Hl. cbn [bind].
    destruct l as [| h t]; [contradiction |]. apply IH.
Qed.

(** ** The start value of a short range *)

Lemma be_value_zeros (k : nat) : be_value (repeat 0 k) = 0.
Proof.
  unfold be_value. induction k as [| k IH]; [reflexivity |].
  cbn [repeat fold_left]. exact IH.
Qed.

(** What [int(binascii.hexlify(bytes(x)), 16)] yields for the last octet
    [x] of the start address: nothing for 0, and 0 for every other octet,
    never [x] itself. *)
Lemma start_value_of_last_octet (x : Z) :
  is_octet x ->
  int_hexlify (bytes_of_int x)
  = if x =? 0 then Raise ValueError else Ok 0.
Proof.
  intros Hx. unfold is_octet in Hx. unfold bytes_of_int.
  destruct (x =? 0) eqn:E.
  - apply Z.eqb_eq in E. subst x. reflexivity.
  - apply Z.eqb_neq in E.
    rewrite int_hexlify_value.
    + rewrite be_value_zeros. reflexivity.
    + apply Forall_forall. intros y Hy.
      apply list_elem_of_In, repeat_spec in Hy. subst y.
      unfold is_octet. lia.
    + destruct (Z.to_nat x) eqn:K; [lia | discriminate].
Qed.

(** * Further properties of the registry *)

(** X2: result types and their names are in one-to-one correspondence:
    [get_str] gives the name [s] for the type [t] exactly when [get_type]
    gives [t] for [s]; both raise on everything else, [get_str] outside
    the four codes 0 to 3. *)
Theorem result_type_round_trip (t : Z) (s : string) :
  (ResultType.get_str t = Ok s <-> ResultType.get_type s = Ok t)
  /\ (ResultType.get_str t = Raise AssertionError <-> t < 0 \/ 3 < t).
Proof.
  unfold ResultType.get_str, ResultType.get_type, ResultType.ALARM,
    ResultType.LOG, ResultType.ERROR, ResultType.HOST_DETAIL.
  split; [split |].
  - intros H.
    destruct (t =? 0) eqn:E0; [apply Z.eqb_eq in E0; injection H as <-; subst; reflexivity |].
    destruct (t =? 1) eqn:E1; [apply Z.eqb_eq in E1; injection H as <-; subst; reflexivity |].
    destruct (t =? 2) eqn:E2; [apply Z.eqb_eq in E2; injection H as <-; subst; reflexivity |].
    destruct (t =? 3) eqn:E3; [apply Z.eqb_eq in E3; injection H as <-; subst; reflexivity |].
    discriminate H.
  - destruct (String.eqb s "Alarm") eqn:S0;
      [apply String.eqb_eq in S0; intros H; injection H as <-; subst s; reflexivity |].
    destruct (String.eqb s "Log Message") eqn:S1;
      [apply String.eqb_eq in S1; intros H; injection H as <-; subst s; reflexivity |].
    destruct (String.eqb s "Error Message") eqn:S2;
      [apply String.eqb_eq in S2; intros H; injection H as <-; subst s; reflexivity |].
    destruct (String.eqb s "Host Detail") eqn:S3;
      [apply String.eqb_eq in S3; intros H; injection H as <-; subst s; reflexivity |].
    discriminate.
  - destruct (t =? 0) eqn:E0; [apply Z.eqb_eq in E0; split; [discriminate | lia] |].
    destruct (t =? 1) eqn:E1; [apply Z.eqb_eq in E1; split; [discriminate | lia] |].
    destruct (t =? 2) eqn:E2; [apply Z.eqb_eq in E2; split; [discriminate | lia] |].
    destruct (t =? 3) eqn:E3; [apply Z.eqb_eq in E3; split; [discriminate | lia] |].
    apply Z.eqb_neq in E0, E1, E2, E3. split; [lia | reflexivity].
Qed.

Lemma can_resume_absent (c : ScanCollection) (scan_id : string) :
  scan_id = "" \/ scans_table c !! scan_id = None ->
  can_resume scan_id c = (Ok false, c).
Proof.
  intros H. unfold can_resume.
  destruct (Str.is_empty scan_id) eqn:E; [reflexivity |].
  destruct H as [-> | H]; [discriminate E |].
  unfold call_bind, id_exists. rewrite H.
  rewrite bool_decide_eq_false_2; [reflexivity |].
  intros [x Hx]. discriminate Hx.
Qed.

(** X3: with no identifier, or with one that is not in the table,
    [create_scan] stores a record built from its arguments, in state INIT
    with no results and progress 0, under the generated identifier or the
    given one; it returns that identifier, leaves every other record as
    it was, and the record is then found by [id_exists] and
    [get_status]. *)
Theorem create_scan_stores_new (c : ScanCollection) (scan_id : string)
    (new_targets : list target_entry) (new_options : option (dict string))
    (new_vts : string) (now : Z) (fresh : string) :
  scan_id = "" \/ scans_table c !! scan_id = None ->
  let id := if Str.is_empty scan_id then fresh else scan_id in
  let info := new_scan_info id new_targets new_options new_vts now in
  exists c',
    create_scan scan_id new_targets new_options new_vts now fresh c
    = (Ok id, c')
    /\ scans_table c' = <[id := info]> (scans_table c)
    /\ data_manager c' = true
    /\ (forall other, other <> id ->
          scans_table c' !! other = scans_table c !! other)
    /\ id_exists id c' = (Ok true, c')
    /\ get_status id c' = (Ok INIT, c')
    /\ results info = [] /\ progress info = 0
    /\ targets info = new_targets /\ vts info = new_vts.
Proof.
  intros H id info.
  exists {| data_manager := true;
            scans_table := <[id := info]> (scans_table c) |}.
  split.
  - unfold create_scan.
    rewrite (call_bind_ok ensure_manager _ c _ tt eq_refl).
    rewrite (call_bind_ok _ _ _ _ _
               (can_resume_absent
                  {| data_manager := true; scans_table := scans_table c |}
                  scan_id H)).
    reflexivity.
  - cbn [scans_table data_manager].
    split; [reflexivity |]. split; [reflexivity |].
    split; [intros other Hother; apply lookup_insert_ne; congruence |].
    split.
    + unfold id_exists. cbn [scans_table]. rewrite lookup_insert_eq.
      rewrite bool_decide_eq_true_2 by (eexists; reflexivity). reflexivity.
    + split; [| repeat split].
      unfold get_status, call_bind, get_scan, call_ret. cbn [scans_table].
      rewrite lookup_insert_eq. reflexivity.
Qed.

Lemma create_scan_stores_new_witness :
  exists c',
    create_scan "" [("10.0.0.9", "T:80", "")] None "" 2000
      "6f2c1d0e-3b7a-4c55-9d61-0a1b2c3d4e5f" empty_collection
    = (Ok "6f2c1d0e-3b7a-4c55-9d61-0a1b2c3d4e5f", c')
    /\ get_status "6f2c1d0e-3b7a-4c55-9d61-0a1b2c3d4e5f" c' = (Ok INIT, c').
Proof.
  destruct (create_scan_stores_new empty_collection ""
              [("10.0.0.9", "T:80", "")] None "" 2000
              "6f2c1d0e-3b7a-4c55-9d61-0a1b2c3d4e5f")
    as (c' & H1 & _ & _ & _ & _ & H6 & _).
  - left. reflexivity.
  - exists c'. split; [exact H1 | exact H6].
Defined.

(** X4: creating a scan under an identifier that is not in the table and
    deleting it again gives the table back as it was; the delete returns
    true, and the manager object is released exactly when the table is
    empty again. *)
Theorem create_then_delete (c : ScanCollection) (scan_id : string)
    (new_targets : list target_entry) (new_options : option (dict string))
    (new_vts : string) (now : Z) (fresh : string) :
  scan_id <> "" ->
  scans_table c !! scan_id = None ->
  exists c' c'',
    create_scan scan_id new_targets new_options new_vts now fresh c
    = (Ok scan_id, c')
    /\ delete_scan scan_id c' = (Ok true, c'')
    /\ scans_table c'' = scans_table c
    /\ data_manager c'' = negb (bool_decide (scans_table c = ∅)).
Proof.
  intros Hid Hnone.
  exists {| data_manager := true;
            scans_table :=
              <[scan_id := new_scan_info scan_id new_targets new_options
                             new_vts now]> (scans_table c) |}.
  eexists. split; [| split].
  - unfold create_scan.
    rewrite (call_bind_ok ensure_manager _ c _ tt eq_refl).
    rewrite (call_bind_ok _ _ _ _ _
               (can_resume_absent
                  {| data_manager := true; scans_table := scans_table c |}
                  scan_id (or_intror Hnone))).
    rewrite (is_empty_false _ Hid). reflexivity.
  - unfold delete_scan, get_status, call_bind, get_scan, call_ret.
    cbn [scans_table]. rewrite lookup_insert_eq. reflexivity.
  - cbn [scans_table data_manager].
    rewrite (delete_insert_id _ _ _ Hnone). split; [reflexivity |].
    destruct (decide (scans_table c = ∅)) as [E | E].
    + rewrite E, map_size_empty. reflexivity.
    + rewrite bool_decide_eq_false_2
        by (intros Hs; apply E, map_size_empty_iff, Hs).
      rewrite (bool_decide_eq_false_2 _ E). reflexivity.
Qed.

Lemma create_then_delete_witness :
  exists c' c'',
    create_scan "scan-9" [] None "" 2000 "unused" (sample_collection RUNNING)
    = (Ok "scan-9", c')
    /\ delete_scan "scan-9" c' = (Ok true, c'')
    /\ scans_table c'' = scans_table (sample_collection RUNNING).
Proof.
  destruct (create_then_delete (sample_collection RUNNING) "scan-9" [] None
              "" 2000 "unused")
    as (c' & c'' & H1 & H2 & H3 & _).
  - discriminate.
  - reflexivity.
  - exists c', c''. repeat split; assumption.
Defined.

(** X5: [add_result] on a scan that is present, with a non-empty
    identifier and a name or a value, appends exactly one entry, holding
    the arguments of the call, at the end of the scan's results; nothing
    else in the record and no other record changes.  With neither name
    nor value it raises [AssertionError] and changes nothing. *)
Theorem add_result_appends (c : ScanCollection) (scan_id : string)
    (info : ScanInfo) (result_type : Z)
    (host name value port test_id severity qod : string) :
  scans_table c !! scan_id = Some info ->
  scan_id <> "" ->
  (name = "" /\ value = "" ->
   add_result scan_id result_type host name value port test_id severity qod c
   = (Raise AssertionError, c))
  /\ (name <> "" \/ value <> "" ->
      let entry :=
        {| res_type := result_type; res_name := name;
           res_severity := severity; res_test_id := test_id;
           res_value := value; res_host := host; res_port := port;
           res_qod := qod |} in
      exists c',
        add_result scan_id result_type host name value port test_id
          severity qod c = (Ok tt, c')
        /\ scans_table c'
           = <[scan_id := with_results (results info ++ [entry]) info]>
               (scans_table c)
        /\ data_manager c' = data_manager c).
Proof.
  intros Hget Hid. unfold add_result. rewrite (is_empty_false _ Hid). split.
  - intros [-> ->]. reflexivity.
  - intros Hnv.
    assert (E : Str.is_empty name && Str.is_empty value = false).
    { destruct Hnv as [H | H]; rewrite (is_empty_false _ H);
        [reflexivity | apply andb_false_r]. }
    rewrite E.
    rewrite (call_bind_ok _ _ c c info (get_scan_present _ _ _ Hget)).
    rewrite (set_field_present _ _ _ _ Hget).
    eexists. split; [reflexivity |]. split; reflexivity.
Qed.

Lemma add_result_appends_witness :
  exists c',
    add_result "scan-1" 0 "10.0.0.2" "CVE-1" "" "443" "" "" ""
      (sample_collection RUNNING) = (Ok tt, c')
    /\ (results <$> scans_table c' !! "scan-1")
       = Some [sample_result "10.0.0.1"; sample_result "10.0.0.2";
               {| res_type := 0; res_name := "CVE-1"; res_severity := "";
                  res_test_id := ""; res_value := ""; res_host := "10.0.0.2";
                  res_port := "443"; res_qod := "" |}].
Proof.
  destruct (add_result_appends (sample_collection RUNNING) "scan-1"
              (sample_info RUNNING) 0 "10.0.0.2" "CVE-1" "" "443" "" "" "")
    as [_ H].
  - reflexivity.
  - discriminate.
  - destruct H as (c' & H1 & H2 & _); [left; discriminate |].
    exists c'. split; [exact H1 |]. rewrite H2, lookup_insert_eq. reflexivity.
Defined.

(** X6: [results_iterator] with [pop_res] hands over the stored results in
    order and leaves the scan with an empty result list, so that asking
    again at once yields nothing; without [pop_res] it hands over the
    same results and changes nothing.  On a scan that is not in the table
    both raise [KeyError]. *)
Theorem results_iterator_drains (c : ScanCollection) (scan_id : string) :
  match scans_table c !! scan_id with
  | Some info =>
      results_iterator scan_id false c = (Ok (results info), c)
      /\ exists c',
           results_iterator scan_id true c = (Ok (results info), c')
           /\ scans_table c' = <[scan_id := with_results [] info]> (scans_table c)
           /\ results_iterator scan_id true c' = (Ok [], c')
  | None =>
      results_iterator scan_id false c = (Raise KeyError, c)
      /\ results_iterator scan_id true c = (Raise KeyError, c)
  end.
Proof.
  destruct (scans_table c !! scan_id) as [info |] eqn:Hget.
  - split.
    + unfold results_iterator.
      rewrite (call_bind_ok _ _ c c info (get_scan_present _ _ _ Hget)).
      reflexivity.
    + exists (with_table (<[scan_id := with_results [] info]> (scans_table c)) c).
      split; [| split; [reflexivity |]].
      * unfold results_iterator.
        rewrite (call_bind_ok _ _ c c info (get_scan_present _ _ _ Hget)).
        rewrite (call_bind_ok _ _ _ _ _ (set_field_present _ _ _ _ Hget)).
        reflexivity.
      * set (c' := with_table _ c).
        assert (Hget' : scans_table c' !! scan_id = Some (with_results [] info))
          by apply with_table_lookup.
        unfold results_iterator.
        rewrite (call_bind_ok _ _ c' c' _ (get_scan_present _ _ _ Hget')).
        rewrite (call_bind_ok _ _ _ _ _ (set_field_present _ _ _ _ Hget')).
        unfold call_ret, c', with_table. cbn [scans_table data_manager results with_results].
        rewrite insert_insert_eq. reflexivity.
  - unfold results_iterator, call_bind, get_scan. rewrite Hget.
    split; reflexivity.
Qed.

(** X7: [del_results_for_stopped_hosts] never removes a result: whatever
    it is called on, the collection is the same afterwards.  On a scan
    whose unfinished hosts can be computed it returns normally when no
    stored result belongs to one of them and raises [TypeError] when one
    does. *)
Theorem del_results_never_removes (c : ScanCollection) (scan_id : string) :
  snd (del_results_for_stopped_hosts scan_id c) = c
  /\ forall info unfinished,
       scans_table c !! scan_id = Some info ->
       hosts_unfinished (finished_hosts info) = Ok unfinished ->
       fst (del_results_for_stopped_hosts scan_id c)
       = if existsb (fun r => existsb (String.eqb (res_host r)) unfinished)
                    (results info)
         then Raise TypeError else Ok tt.
Proof.
  split; [apply del_results_snd |].
  intros info unfinished Hget Hun.
  destruct (existsb _ (results info)) eqn:E.
  - apply existsb_exists in E. destruct E as (r & Hr & Hhost).
    apply existsb_exists in Hhost. destruct Hhost as (h & Hh & Heq).
    apply String.eqb_eq in Heq. subst h.
    unfold del_results_for_stopped_hosts.
    rewrite (call_bind_ok _ _ c c unfinished).
    + rewrite (call_bind_ok _ _ c c (results info)).
      * rewrite (del_results_loop_raises scan_id unfinished (results info) c
                   info Hget); [reflexivity |].
        exists r. split; assumption.
      * unfold results_iterator.
        rewrite (call_bind_ok _ _ c c info (get_scan_present _ _ _ Hget)).
        reflexivity.
    + unfold get_hosts_unfinished.
      rewrite (call_bind_ok _ _ c c info (get_scan_present _ _ _ Hget)).
      unfold lift. rewrite Hun. reflexivity.
  - rewrite (del_results_none scan_id c info unfinished Hget Hun);
      [reflexivity |].
    intros r Hr Hhost.
    assert (Habs : existsb
              (fun r => existsb (String.eqb (res_host r)) unfinished)
              (results info) = true).
    { apply existsb_exists. exists r. split; [exact Hr |].
      apply existsb_exists. exists (res_host r).
      split; [exact Hhost | apply String.eqb_refl]. }
    rewrite Habs in E. discriminate E.
Qed.

Lemma dict_get_set_eq {V : Type} (k : string) (v : V) (d : dict V) :
  dict_get k (dict_set k v d) = Some v.
Proof.
  induction d as [| [k' v'] r IH]; cbn [dict_set dict_get].
  - rewrite String.eqb_refl. reflexivity.
  - destruct (String.eqb k k') eqn:E; cbn [dict_get].
    + rewrite String.eqb_refl. reflexivity.
    + rewrite E. exact IH.
Qed.

Lemma dict_get_set_ne {V : Type} (k k0 : string) (v : V) (d : dict V) :
  k0 <> k -> dict_get k0 (dict_set k v d) = dict_get k0 d.
Proof.
  intros Hne. induction d as [| [k' v'] r IH]; cbn [dict_set dict_get].
  - apply String.eqb_neq in Hne. rewrite Hne. reflexivity.
  - destruct (String.eqb k k') eqn:E; cbn [dict_get].
    + apply String.eqb_eq in E. subst k'.
      apply String.eqb_neq in Hne. rewrite Hne. reflexivity.
    + rewrite IH. reflexivity.
Qed.

Lemma dict_set_keys {V : Type} (k : string) (v : V) (d : dict V) :
  map fst (dict_set k v d)
  = if existsb (String.eqb k) (map fst d) then map fst d
    else map fst d ++ [k].
Proof.
  induction d as [| [k' v'] r IH]; cbn [dict_set map existsb fst app].
  - reflexivity.
  - destruct (String.eqb k k') eqn:E; cbn [map fst orb].
    + apply String.eqb_eq in E. subst k'. reflexivity.
    + rewrite IH. destruct (existsb (String.eqb k) (map fst r)); reflexivity.
Qed.

(** X8: [set_target_progress] with a progress outside (0, 100] does
    nothing at all, even for a scan or target that does not exist.  With a
    progress in range, on a scan that is present and a target it was
    created with, the host's entry under that target becomes the new
    progress; the entries of other hosts and of other targets, and the
    scan's overall progress, stay as they were.  A target the scan does
    not have raises [KeyError] and changes nothing. *)
Theorem set_target_progress_guarded (c : ScanCollection)
    (scan_id target host : string) (p : Z) :
  (p <= 0 \/ 100 < p ->
   set_target_progress scan_id target host p c = (Ok tt, c))
  /\ (0 < p <= 100 ->
      forall info,
        scans_table c !! scan_id = Some info ->
        match dict_get target (target_progress info) with
        | None =>
            set_target_progress scan_id target host p c = (Raise KeyError, c)
        | Some hosts =>
            exists c' info',
              set_target_progress scan_id target host p c = (Ok tt, c')
              /\ scans_table c' = <[scan_id := info']> (scans_table c)
              /\ progress info' = progress info
              /\ results info' = results info
              /\ (exists hosts',
                    dict_get target (target_progress info') = Some hosts'
                    /\ dict_get host hosts' = Some p
                    /\ forall h, h <> host ->
                         dict_get h hosts' = dict_get h hosts)
              /\ (forall t, t <> target ->
                    dict_get t (target_progress info')
                    = dict_get t (target_progress info))
        end).
Proof.
  unfold set_target_progress. split.
  - intros Hout.
    replace ((0 <? p) && (p <=? 100)) with false; [reflexivity |].
    symmetry. apply andb_false_iff.
    destruct Hout; [left; apply Z.ltb_ge | right; apply Z.leb_gt]; lia.
  - intros Hin info Hget.
    replace ((0 <? p) && (p <=? 100)) with true
      by (symmetry; apply andb_true_iff; split;
          [apply Z.ltb_lt | apply Z.leb_le]; lia).
    rewrite (call_bind_ok _ _ c c info (get_scan_present _ _ _ Hget)).
    destruct (dict_get target (target_progress info)) as [hosts |] eqn:E.
    + rewrite (set_field_present _ _ _ _ Hget).
      eexists. eexists. split; [reflexivity |].
      split; [reflexivity |]. split; [reflexivity |]. split; [reflexivity |].
      cbn [target_progress with_target_progress]. split.
      * exists (dict_set host p hosts). split; [apply dict_get_set_eq |].
        split; [apply dict_get_set_eq |].
        intros h Hh. apply dict_get_set_ne, Hh.
      * intros t Ht. apply dict_get_set_ne, Ht.
    + reflexivity.
Qed.

Lemma find_target_first (target ports creds : string)
    (pre post : list target_entry) :
  ~ In target (map (fun item => fst (fst item)) pre) ->
  find_target target (pre ++ (target, ports, creds) :: post)
  = Some (target, ports, creds).
Proof.
  induction pre as [| [[t p] cr] pre IH]; intros Hnot; cbn [app find_target fst].
  - rewrite String.eqb_refl. reflexivity.
  - cbn [map In fst] in Hnot.
    destruct (String.eqb_spec target t) as [-> | _].
    + exfalso. apply Hnot. left. reflexivity.
    + apply IH. intros H. apply Hnot. right. exact H.
Qed.

Lemma find_target_none (target : string) (items : list target_entry) :
  ~ In target (map (fun item => fst (fst item)) items) ->
  find_target target items = None.
Proof.
  induction items as [| [[t p] cr] items IH]; intros Hnot; cbn [find_target fst].
  - reflexivity.
  - cbn [map In fst] in Hnot.
    destruct (String.eqb_spec target t) as [-> | _].
    + exfalso. apply Hnot. left. reflexivity.
    + apply IH. intros H. apply Hnot. right. exact H.
Qed.

(** X9: for a scan in the table, [get_ports] and [get_credentials] with a
    non-empty target give the ports and the credentials of the first
    target group written with that target.  For a target no group has,
    [get_credentials] gives [None] while [get_ports] falls back to the
    ports of the scan's first group. *)
Theorem get_ports_and_credentials (c : ScanCollection) (scan_id : string)
    (info : ScanInfo) (target : string) :
  scans_table c !! scan_id = Some info ->
  target <> "" ->
  (forall pre post ports creds,
     targets info = pre ++ (target, ports, creds) :: post ->
     ~ In target (map (fun item => fst (fst item)) pre) ->
     get_ports scan_id target c = (Ok ports, c)
     /\ get_credentials scan_id target c = (Ok (Some creds), c))
  /\ (~ In target (map (fun item => fst (fst item)) (targets info)) ->
      get_credentials scan_id target c = (Ok None, c)
      /\ get_ports scan_id target c
         = match targets info with
           | first :: _ => (Ok (snd (fst first)), c)
           | [] => (Raise IndexError, c)
           end).
Proof.
  intros Hget Ht. unfold get_ports, get_credentials.
  rewrite (is_empty_false _ Ht).
  rewrite !(call_bind_ok _ _ c c info (get_scan_present _ _ _ Hget)).
  split.
  - intros pre post ports creds Hsplit Hpre.
    rewrite Hsplit, (find_target_first _ _ _ _ _ Hpre). split; reflexivity.
  - intros Hnot. rewrite (find_target_none _ _ Hnot).
    split; [reflexivity |]. destruct (targets info); reflexivity.
Qed.

Lemma get_ports_and_credentials_witness :
  get_ports "scan-1" "10.0.0.0/30" (sample_collection RUNNING)
  = (Ok "T:80", sample_collection RUNNING)
  /\ get_credentials "scan-1" "10.0.0.0/30" (sample_collection RUNNING)
     = (Ok (Some ""), sample_collection RUNNING).
Proof.
  destruct (get_ports_and_credentials (sample_collection RUNNING) "scan-1"
              (sample_info RUNNING) "10.0.0.0/30") as [H _].
  - reflexivity.
  - discriminate.
  - apply (H [] [] "T:80" ""); [reflexivity |]. intros [].
Defined.

(** * Further properties of the target resolver *)

Lemma range_char_facts (c : ascii) :
  is_range_char c = true ->
  Str.is_space c = false /\ c <> ","%char /\ c <> "/"%char
  /\ c <> "000"%char /\ is_hostname_char c = true.
Proof.
  intros Hc.
  assert (H : range_char_plain c = true).
  { apply (for_all_ascii range_char_plain). vm_compute. reflexivity. }
  unfold range_char_plain in H. rewrite Hc in H. simpl in H.
  repeat (apply andb_true_iff in H; destruct H as [H ?]).
  repeat match goal with
         | K : negb _ = true |- _ => apply negb_true_iff in K
         end.
  repeat split; try assumption; intros ->; discriminate.
Qed.

Lemma range_text_plain (s : string) :
  Str.all is_range_char s = true ->
  Str.all (fun c => negb (Str.is_space c)) s = true
  /\ Str.mem "," s = false
  /\ Str.mem "/" s = false
  /\ Str.mem "000" s = false.
Proof.
  intros H. split; [| repeat split].
  - revert H. apply all_impl. intros c Hc.
    destruct (range_char_facts c Hc) as (Hs & _). rewrite Hs. reflexivity.
  - apply (all_not_mem is_range_char); [exact H | reflexivity].
  - apply (all_not_mem is_range_char); [exact H | reflexivity].
  - apply (all_not_mem is_range_char); [exact H | reflexivity].
Qed.

Lemma digits_are_range (s : string) :
  Str.all is_digit s = true -> Str.all is_range_char s = true.
Proof.
  apply all_impl. intros c Hc. unfold is_range_char. rewrite Hc. reflexivity.
Qed.

Lemma be_bytes_4 (v : Z) :
  exists a b c d,
    be_bytes 4 v = [a; b; c; d]
    /\ is_octet a /\ is_octet b /\ is_octet c /\ is_octet d.
Proof.
  pose proof (be_bytes_octets 4 v) as H. cbn [be_bytes app] in *.
  inversion H as [| ? ? H1 H']; subst. inversion H' as [| ? ? H2 H'']; subst.
  inversion H'' as [| ? ? H3 H''']; subst. inversion H''' as [| ? ? H4 _]; subst.
  do 4 eexists. split; [reflexivity |].
  split; [exact H1 |]. split; [exact H2 |]. split; [exact H3 | exact H4].
Qed.

(** A dotted quad is made of digits and dots and holds no hyphen. *)
Lemma dotted_text (v : Z) :
  Str.all is_range_char (dotted v) = true
  /\ Str.mem "-" (dotted v) = false
  /\ Str.mem "." (dotted v) = true.
Proof.
  unfold dotted. destruct (be_bytes_4 v) as (a & b & c & d & -> & Ha & Hb & Hc & Hd).
  destruct (octet_text a Ha) as [Da _]. destruct (octet_text b Hb) as [Db _].
  destruct (octet_text c Hc) as [Dc _]. destruct (octet_text d Hd) as [Dd _].
  rewrite inet_ntop4_quad. split; [| split].
  - repeat first [rewrite all_app | rewrite all_cons].
    rewrite !digits_are_range by assumption. reflexivity.
  - repeat first [rewrite mem_app | rewrite mem_cons].
    rewrite !(digits_not_mem "-") by (reflexivity || assumption).
    reflexivity.
  - rewrite mem_app, mem_cons. simpl. apply orb_true_r.
Qed.

Lemma inet_pton_dotted (v : Z) :
  inet_pton AF_INET (dotted v) = Ok (be_bytes 4 v).
Proof.
  destruct (dotted_text v) as (Hall & _).
  destruct (range_text_plain _ Hall) as (_ & _ & _ & Hnul).
  unfold inet_pton. rewrite Hnul, inet_pton4_dotted. reflexivity.
Qed.

Lemma target_to_list_ipv4 (target : string) (b : bytes) :
  inet_pton AF_INET target = Ok b ->
  target_to_list target = Ok (Some [target]).
Proof.
  intros H. unfold target_to_list, target_to_ipv4. rewrite H.
  cbn [try_or_none bind]. rewrite !or_else_keeps. reflexivity.
Qed.

(** X10: every IPv4 address resolves to itself: for all octets A, B, C, D
    the text "A.B.C.D" is accepted by the first matcher, and the resolver
    returns the one-element list holding that text. *)
Theorem ipv4_literal_resolves (a b c d : Z) :
  is_octet a -> is_octet b -> is_octet c -> is_octet d ->
  target_to_ipv4 (inet_ntop4 [a; b; c; d]) = Ok (Some [inet_ntop4 [a; b; c; d]])
  /\ target_to_list (inet_ntop4 [a; b; c; d])
     = Ok (Some [inet_ntop4 [a; b; c; d]])
  /\ target_str_to_list (inet_ntop4 [a; b; c; d])
     = Ok (Some [inet_ntop4 [a; b; c; d]]).
Proof.
  intros Ha Hb Hc Hd.
  destruct (quad_text a b c d Ha Hb Hc Hd) as [Qall _].
  destruct (cidr_text_plain _ Qall) as (Qspace & Qcomma & Qnul).
  assert (Hp : inet_pton AF_INET (inet_ntop4 [a; b; c; d]) = Ok [a; b; c; d]).
  { unfold inet_pton.
    rewrite Qnul, (inet_pton4_ntop4 a b c d Ha Hb Hc Hd). reflexivity. }
  pose proof (target_to_list_ipv4 _ _ Hp) as Hlist.
  split; [| split].
  - unfold target_to_ipv4. rewrite Hp. reflexivity.
  - exact Hlist.
  - apply target_str_to_list_single; try assumption.
    apply NoDup_singleton.
Qed.

Lemma ipv4_literal_resolves_witness :
  target_str_to_list "192.168.1.77" = Ok (Some ["192.168.1.77"]).
Proof.
  assert (Ho : forall x, 0 <= x <= 255 -> is_octet x) by (intros x H; exact H).
  apply (ipv4_literal_resolves 192 168 1 77
           (Ho 192 ltac:(lia)) (Ho 168 ltac:(lia)) (Ho 1 ltac:(lia))
           (Ho 77 ltac:(lia))).
Defined.

Lemma fold_be_acc (l : bytes) (acc : Z) :
  fold_left (fun a x => a * 256 + x) l acc
  = acc * 256 ^ Z.of_nat (length l) + fold_left (fun a x => a * 256 + x) l 0.
Proof.
  revert acc. induction l as [| x xs IH]; intros acc.
  - cbn. lia.
  - cbn [fold_left length]. rewrite IH, (IH (0 * 256 + x)).
    rewrite Nat2Z.inj_succ, Z.pow_succ_r by lia. lia.
Qed.

Lemma be_value_cons (x : Z) (xs : bytes) :
  be_value (x :: xs) = x * 256 ^ Z.of_nat (length xs) + be_value xs.
Proof.
  unfold be_value. cbn [fold_left]. rewrite fold_be_acc. lia.
Qed.

Lemma be_value_bound (l : bytes) :
  Forall is_octet l -> 0 <= be_value l < 256 ^ Z.of_nat (length l).
Proof.
  induction 1 as [| x xs Hx _ IH].
  - cbn. lia.
  - rewrite be_value_cons. cbn [length].
    rewrite Nat2Z.inj_succ, Z.pow_succ_r by lia.
    unfold is_octet in Hx.
    assert (0 < 256 ^ Z.of_nat (length xs)) by (apply Z.pow_pos_nonneg; lia).
    nia.
Qed.

(** Packed addresses of the same length compare as the numbers they
    stand for. *)
Lemma bytes_lt_be_value (a b : bytes) :
  length a = length b -> Forall is_octet a -> Forall is_octet b ->
  bytes_lt a b = (be_value a <? be_value b).
Proof.
  revert b. induction a as [| x xs IH]; intros [| y ys] Hlen Ha Hb;
    try discriminate Hlen.
  - reflexivity.
  - injection Hlen as Hlen.
    inversion Ha as [| ? ? Hx Hxs]; subst. inversion Hb as [| ? ? Hy Hys]; subst.
    cbn [bytes_lt]. rewrite (IH ys Hlen Hxs Hys), !be_value_cons, Hlen.
    pose proof (be_value_bound xs Hxs) as Bx.
    pose proof (be_value_bound ys Hys) as By. rewrite Hlen in Bx.
    set (P := 256 ^ Z.of_nat (length ys)) in *.
    set (u := be_value xs) in *. set (w := be_value ys) in *.
    destruct (Z.ltb_spec x y) as [Hlt | Hge]; cbn [orb].
    + symmetry. apply Z.ltb_lt. nia.
    + destruct (Z.eqb_spec x y) as [-> | Hne]; cbn [andb].
      * destruct (Z.ltb_spec u w); symmetry;
          [apply Z.ltb_lt | apply Z.ltb_ge]; lia.
      * symmetry. apply Z.ltb_ge. nia.
Qed.

Lemma mem_lstrip_by (p : ascii -> bool) (c : ascii) (s : string) :
  p c = false -> Str.mem c (Str.lstrip_by p s) = Str.mem c s.
Proof.
  intros Hc. induction s as [| d s IH]; [reflexivity |].
  cbn [Str.lstrip_by]. destruct (p d) eqn:Hd; [| reflexivity].
  rewrite IH, mem_cons.
  destruct (Ascii.eqb_spec c d) as [-> | _]; [congruence | reflexivity].
Qed.

Lemma mem_rstrip_by (p : ascii -> bool) (c : ascii) (s : string) :
  p c = false -> Str.mem c (Str.rstrip_by p s) = Str.mem c s.
Proof.
  intros Hc. induction s as [| d s IH]; [reflexivity |].
  cbn [Str.rstrip_by]. rewrite mem_cons, <- IH.
  destruct (p d && Str.is_empty (Str.rstrip_by p s)) eqn:E.
  - apply andb_true_iff in E. destruct E as [Hd He].
    destruct (Str.rstrip_by p s); [| discriminate He].
    destruct (Ascii.eqb_spec c d) as [-> | _]; [congruence | reflexivity].
  - rewrite mem_cons. reflexivity.
Qed.

Lemma int_digits_rejects (base : Z) (c : ascii) (s : string) :
  digit_value c = None -> c <> "_"%char -> Str.mem c s = true ->
  forall (prev_us seen : bool) (acc : Z),
    int_digits base s prev_us seen acc = None.
Proof.
  intros Hdv Hus. induction s as [| d s IH]; intros Hm prev_us seen acc.
  - discriminate Hm.
  - rewrite mem_cons in Hm. cbn [int_digits].
    destruct (Ascii.eqb_spec c d) as [<- | Hne].
    + apply Ascii.eqb_neq in Hus. rewrite Hus, Hdv. reflexivity.
    + cbn [orb] in Hm.
      destruct (Ascii.eqb d "_").
      * destruct (prev_us || negb seen); [reflexivity | apply IH, Hm].
      * destruct (digit_value d) as [v |]; [| reflexivity].
        destruct (v <? base); [apply IH, Hm | reflexivity].
Qed.

Lemma int_sign_mem (c : ascii) (s : string) :
  c <> "-"%char -> c <> "+"%char ->
  Str.mem c (snd (int_sign s)) = Str.mem c s.
Proof.
  intros Hm Hp. destruct s as [| d s]; [reflexivity |].
  assert (E : int_sign (String d s) = (true, s) /\ (d = "-"%char)
              \/ int_sign (String d s) = (false, s) /\ (d = "+"%char)
              \/ int_sign (String d s) = (false, String d s)).
  { destruct d as [[] [] [] [] [] [] [] []];
      first [right; right; reflexivity
            | left; split; reflexivity
            | right; left; split; reflexivity]. }
  destruct E as [[-> ->] | [[-> ->] | ->]]; cbn [snd]; try reflexivity;
    rewrite mem_cons;
    [apply Ascii.eqb_neq in Hm; rewrite Hm
    | apply Ascii.eqb_neq in Hp; rewrite Hp]; reflexivity.
Qed.

Lemma int_prefix_base10 (s : string) : int_prefix 10 s = s.
Proof.
  destruct s as [| d [| x r]]; try reflexivity;
    destruct d as [[] [] [] [] [] [] [] []]; reflexivity.
Qed.

(** [int(s)] refuses any text holding a character that is neither a
    digit, an underscore, a sign nor white space. *)
Lemma py_int_rejects (c : ascii) (s : string) :
  Str.mem c s = true -> digit_value c = None -> Str.is_c_space c = false ->
  c <> "_"%char -> c <> "-"%char -> c <> "+"%char ->
  py_int 10 s = None.
Proof.
  intros Hm Hdv Hsp Hus Hmi Hpl. unfold py_int.
  assert (H1 : Str.mem c (Str.strip_by Str.is_c_space s) = true).
  { unfold Str.strip_by. rewrite mem_rstrip_by, mem_lstrip_by; assumption. }
  pose proof (int_sign_mem c (Str.strip_by Str.is_c_space s) Hmi Hpl) as H2.
  destruct (int_sign (Str.strip_by Str.is_c_space s)) as [neg s2].
  cbn [snd] in H2. rewrite H1 in H2.
  rewrite int_prefix_base10, (int_digits_rejects 10 c s2 Hdv Hus H2).
  reflexivity.
Qed.

Lemma long_range_token_text (s e : Z) :
  Str.all is_range_char (long_range_token s e) = true
  /\ Str.mem "-" (long_range_token s e) = true
  /\ Str.split "-" (long_range_token s e) = [dotted s; dotted e].
Proof.
  destruct (dotted_text s) as (As & Ms & _).
  destruct (dotted_text e) as (Ae & Me & _).
  unfold long_range_token.
  change ("-" +:+ dotted e) with (String "-" (dotted e)).
  split; [| split].
  - rewrite all_app, all_cons, As, Ae. reflexivity.
  - rewrite mem_app, mem_cons. simpl. apply orb_true_r.
  - rewrite (split_app_sep _ _ _ Ms), (split_no_sep _ _ Me). reflexivity.
Qed.

Lemma no_slash_no_cidr (target : string) :
  Str.mem "/" target = false ->
  target_to_ipv4_cidr target = Ok None /\ target_to_ipv6_cidr target = Ok None.
Proof.
  intros H. unfold target_to_ipv4_cidr, target_to_ipv6_cidr.
  rewrite (split_no_sep _ _ H). split; reflexivity.
Qed.

Lemma inet_pton_rejects_char (af : family) (c : ascii) (s : string) :
  Str.mem "000" s = false -> Str.mem c s = true ->
  digit_value c = None -> is_digit c = false ->
  c <> ":"%char -> c <> "."%char ->
  inet_pton af s = Raise SocketError.
Proof.
  intros Hnul Hc Hdv Hdig Hcolon Hdot. unfold inet_pton. rewrite Hnul.
  destruct af.
  - rewrite (inet_pton4_rejects c s Hc Hdig Hdot). reflexivity.
  - rewrite (inet_pton6_rejects c s Hc Hdv Hdig Hcolon Hdot). reflexivity.
Qed.

(** The long-range matcher on the text of two addresses. *)
Lemma target_to_ipv4_long_token (s e : Z) :
  0 <= s < 4294967296 -> 0 <= e < 4294967296 ->
  target_to_ipv4_long (long_range_token s e)
  = if e <? s then Ok None
    else Ok (Some (map dotted (py_range s (e + 1)))).
Proof.
  intros Hs He.
  destruct (long_range_token_text s e) as (_ & _ & Hsplit).
  unfold target_to_ipv4_long. rewrite Hsplit. cbn [length Nat.eqb negb nth].
  rewrite !inet_pton_dotted. cbn [bind try_or_none].
  rewrite bytes_lt_be_value
    by (rewrite ?be_bytes_length; reflexivity || apply be_bytes_octets).
  rewrite !be_value_be_bytes
    by (change (256 ^ Z.of_nat 4) with 4294967296; lia).
  destruct (e <? s); [reflexivity |].
  rewrite ipv4_range_to_list_packed by lia. reflexivity.
Qed.

Lemma target_to_ipv4_short_long_token (s e : Z) :
  target_to_ipv4_short (long_range_token s e) = Ok None.
Proof.
  destruct (long_range_token_text s e) as (_ & _ & Hsplit).
  destruct (dotted_text e) as (_ & _ & Hdot).
  unfold target_to_ipv4_short. rewrite Hsplit. cbn [length Nat.eqb negb nth].
  rewrite inet_pton_dotted. unfold int_of_str.
  rewrite (py_int_rejects "." (dotted e) Hdot);
    try reflexivity; discriminate.
Qed.

(** X11: an IPv4 long range "addr1-addr2" of two 32-bit addresses with
    addr2 >= addr1 resolves to every address from addr1 to addr2
    inclusive, in ascending order, through the long-range matcher, the
    per-token resolver and the resolver of whole specifications; with
    addr2 < addr1 the long-range matcher returns no list. *)
Theorem ipv4_long_range_expands (s e : Z) :
  0 <= s < 4294967296 -> 0 <= e < 4294967296 ->
  (e < s -> target_to_ipv4_long (long_range_token s e) = Ok None)
  /\ (s <= e ->
      let addresses := map dotted (py_range s (e + 1)) in
      target_to_ipv4_long (long_range_token s e) = Ok (Some addresses)
      /\ target_to_list (long_range_token s e) = Ok (Some addresses)
      /\ target_str_to_list (long_range_token s e) = Ok (Some addresses)
      /\ Z.of_nat (length addresses) = e - s + 1).
Proof.
  intros Hs He. pose proof (target_to_ipv4_long_token s e Hs He) as Hlong.
  split.
  - intros Hlt. rewrite Hlong.
    replace (e <? s) with true by (symmetry; apply Z.ltb_lt; lia). reflexivity.
  - intros Hle addresses.
    replace (e <? s) with false in Hlong by (symmetry; apply Z.ltb_ge; lia).
    fold addresses in Hlong.
    destruct (long_range_token_text s e) as (Tall & Tdash & _).
    destruct (range_text_plain _ Tall) as (Tspace & Tcomma & Tslash & Tnul).
    destruct (no_slash_no_cidr _ Tslash) as [Hc4 Hc6].
    assert (Hlen : Z.of_nat (length addresses) = e - s + 1).
    { unfold addresses. rewrite length_map, py_range_length. lia. }
    assert (Hnd : NoDup addresses) by (apply dotted_range_NoDup; lia).
    destruct addresses as [| h t] eqn:Haddr; [simpl in Hlen; lia |].
    assert (Hlist : target_to_list (long_range_token s e) = Ok (Some (h :: t))).
    { unfold target_to_list, target_to_ipv4, target_to_ipv6.
      rewrite !(inet_pton_rejects_char _ "-" _ Tnul Tdash)
        by (reflexivity || discriminate).
      cbn [try_or_none is_socket_error bind or_else falsy].
      rewrite Hc4. cbn [bind or_else falsy]. rewrite Hc6.
      cbn [bind or_else falsy]. rewrite target_to_ipv4_short_long_token.
      cbn [bind or_else falsy]. rewrite Hlong. cbn [bind].
      rewrite !or_else_keeps. reflexivity. }
    split; [exact Hlong |]. split; [exact Hlist |].
    split; [apply target_str_to_list_single; assumption | exact Hlen].
Qed.

Lemma ipv4_long_range_expands_witness :
  target_str_to_list "10.0.0.254-10.0.1.1"
  = Ok (Some ["10.0.0.254"; "10.0.0.255"; "10.0.1.0"; "10.0.1.1"]).
Proof.
  destruct (ipv4_long_range_expands 167772414 167772417 ltac:(lia) ltac:(lia))
    as [_ H].
  destruct (H ltac:(lia)) as (_ & _ & H3 & _). exact H3.
Defined.

Lemma bind_ok_inv {A B : Type} (m : result A) (k : A -> result B) (b : B) :
  bind m k = Ok b -> exists a, m = Ok a /\ k a = Ok b.
Proof.
  destruct m as [a | e]; cbn [bind]; [| discriminate].
  intros H. exists a. split; [reflexivity | exact H].
Qed.

Lemma or_else_hostname_not_empty (new_list : hosts) (target : string)
    (l : list string) :
  or_else new_list (target_to_hostname target) = Ok (Some l) -> l <> [].
Proof.
  unfold or_else. destruct new_list as [[| h t] |]; cbn [falsy].
  - unfold target_to_hostname.
    destruct ((Str.len target =? 0) || (255 <? Str.len target));
      [discriminate |].
    destruct (negb (hostname_match target)); [discriminate |].
    intros H. injection H as <-. discriminate.
  - intros H. injection H as <-. discriminate.
  - unfold target_to_hostname.
    destruct ((Str.len target =? 0) || (255 <? Str.len target));
      [discriminate |].
    destruct (negb (hostname_match target)); [discriminate |].
    intros H. injection H as <-. discriminate.
Qed.

(** Whatever matcher answers, [target_to_list] never hands back an empty
    list. *)
Lemma target_to_list_not_empty (target : string) (l : list string) :
  target_to_list target = Ok (Some l) -> l <> [].
Proof.
  unfold target_to_list. intros H.
  repeat (apply bind_ok_inv in H; destruct H as (? & ? & H)).
  injection H as ->.
  eapply or_else_hostname_not_empty. eassumption.
Qed.

Lemma target_str_loop_inv (pieces : list string) (new_list l : list string) :
  target_str_loop pieces new_list = Ok (Some l) ->
  exists lists,
    Forall2 (fun piece lp =>
               lp <> [] /\ target_to_list (Str.strip piece) = Ok (Some lp))
            pieces lists
    /\ l = fromkeys [] (new_list ++ concat lists).
Proof.
  revert new_list. induction pieces as [| piece rest IH]; intros new_list H.
  - cbn [target_str_loop] in H. injection H as <-.
    exists []. split; [constructor |]. cbn [concat]. rewrite app_nil_r.
    reflexivity.
  - cbn [target_str_loop] in H. apply bind_ok_inv in H.
    destruct H as (r & Hr & H). destruct r as [[| h t] |];
      try discriminate H.
    destruct (IH _ H) as (lists & Hall & ->).
    exists ((h :: t) :: lists). split.
    + constructor; [split; [discriminate | exact Hr] | exact Hall].
    + cbn [concat]. rewrite <- app_assoc. reflexivity.
Qed.

(** X12: a host list returned by [target_str_to_list] is never empty and
    holds no host twice; a host is in it exactly when it is in the list
    that [target_to_list] returns for one of the comma-separated pieces,
    stripped of surrounding white space. *)
Theorem target_str_to_list_result (target_str : string) (l : list string) :
  target_str_to_list target_str = Ok (Some l) ->
  l <> []
  /\ NoDup l
  /\ forall host,
       In host l <->
       exists piece lp,
         In piece (Str.split "," target_str)
         /\ target_to_list (Str.strip piece) = Ok (Some lp)
         /\ In host lp.
Proof.
  unfold target_str_to_list. intros H.
  destruct (target_str_loop_inv _ _ _ H) as (lists & Hall & ->).
  cbn [app] in *.
  assert (Hin : forall host,
            In host (concat lists) <->
            exists piece lp,
              In piece (Str.split "," target_str)
              /\ target_to_list (Str.strip piece) = Ok (Some lp)
              /\ In host lp).
  { intros host. clear H.
    induction Hall as [| piece lp pieces lists' [Hne Hlp] _ IH].
    - cbn. split; [intros [] | intros (? & ? & [] & _)].
    - cbn [concat]. rewrite in_app_iff, IH. split.
      + intros [Hh | (p & q & Hp & Hq & Hh)].
        * exists piece, lp. split; [left; reflexivity | split; assumption].
        * exists p, q. split; [right; exact Hp | split; assumption].
      + intros (p & q & [<- | Hp] & Hq & Hh).
        * left. rewrite Hlp in Hq. injection Hq as <-. exact Hh.
        * right. exists p, q. split; [exact Hp | split; assumption]. }
  split; [| split].
  - pose proof (split_nonempty "," target_str) as Hne.
    destruct Hall as [| piece lp pieces lists' [Hlp _] _]; [contradiction |].
    destruct lp as [| h t]; [contradiction |].
    intros Habs.
    assert (Hh : In h (fromkeys [] (concat ((h :: t) :: lists')))).
    { apply fromkeys_In. cbn [concat app]. left. reflexivity. }
    rewrite Habs in Hh. destruct Hh.
  - apply fromkeys_is_NoDup.
  - intros host. rewrite fromkeys_In. apply Hin.
Qed.

Lemma target_str_to_list_result_witness :
  NoDup ["10.0.0.1"; "10.0.0.2"; "scanme"]
  /\ target_str_to_list "10.0.0.0/30, scanme ,10.0.0.1"
     = Ok (Some ["10.0.0.1"; "10.0.0.2"; "scanme"]).
Proof.
  assert (H : target_str_to_list "10.0.0.0/30, scanme ,10.0.0.1"
              = Ok (Some ["10.0.0.1"; "10.0.0.2"; "scanme"]))
    by (vm_compute; reflexivity).
  split; [| exact H].
  apply (target_str_to_list_result _ _ H).
Defined.

Lemma octet_int_text (y : Z) :
  0 <= y <= 255 ->
  Str.all is_digit (py_str y) = true /\ py_int 10 (py_str y) = Some y.
Proof.
  intros Hy.
  assert (H : int_text_ok y = true).
  { apply (for_all_below int_text_ok 256); [vm_compute; reflexivity | lia]. }
  unfold int_text_ok in H. apply andb_true_iff in H. destruct H as [H1 H2].
  split; [exact H1 |].
  destruct (py_int 10 (py_str y)) as [v |]; [| discriminate H2].
  apply Z.eqb_eq in H2. subst v. reflexivity.
Qed.

Lemma be_value_snoc (l : bytes) (x : Z) :
  be_value (l ++ [x]) = be_value l * 256 + x.
Proof. unfold be_value. rewrite fold_left_app. reflexivity. Qed.

(** Packing the value of an octet string gives the string back. *)
Lemma be_bytes_be_value (l : bytes) :
  Forall is_octet l -> be_bytes (length l) (be_value l) = l.
Proof.
  induction l as [| x l IH] using rev_ind; intros H; [reflexivity |].
  apply Forall_app in H. destruct H as [Hl Hx].
  inversion Hx as [| ? ? Hx' _]; subst. unfold is_octet in Hx'.
  rewrite length_app, Nat.add_comm, be_value_snoc. cbn [length Nat.add be_bytes].
  replace ((be_value l * 256 + x) / 256) with (be_value l)
    by (apply Z.div_unique with (r := x); lia).
  replace ((be_value l * 256 + x) mod 256) with x
    by (apply Z.mod_unique with (q := be_value l); lia).
  rewrite (IH Hl). reflexivity.
Qed.

Lemma dotted_be_value (a b c d : Z) :
  is_octet a -> is_octet b -> is_octet c -> is_octet d ->
  dotted (be_value [a; b; c; d]) = inet_ntop4 [a; b; c; d].
Proof.
  intros Ha Hb Hc Hd. unfold dotted.
  assert (Hoct : Forall is_octet [a; b; c; d]).
  { repeat (constructor; [assumption |]). constructor. }
  pose proof (be_bytes_be_value [a; b; c; d] Hoct) as E.
  cbn [length] in E. rewrite E. reflexivity.
Qed.

(** The addresses between two packed addresses that differ in the last
    octet only. *)
Lemma last_octet_range (a b c x y : Z) :
  is_octet a -> is_octet b -> is_octet c -> is_octet x -> is_octet y ->
  map dotted (py_range (be_value [a; b; c; x]) (be_value [a; b; c; y] + 1))
  = map (fun o => inet_ntop4 [a; b; c; o]) (py_range x (y + 1)).
Proof.
  intros Ha Hb Hc Hx Hy. unfold py_range. rewrite !map_map.
  replace (be_value [a; b; c; y] + 1 - be_value [a; b; c; x])
    with (y + 1 - x) by (unfold be_value; cbn [fold_left]; lia).
  apply map_ext_in. intros i Hi. apply in_seq in Hi.
  unfold is_octet in *.
  rewrite <- (dotted_be_value a b c (x + Z.of_nat i)) by (unfold is_octet; lia).
  f_equal. unfold be_value. cbn [fold_left]. lia.
Qed.

Lemma ipv4_range_to_list_octets (p q : bytes) :
  Forall is_octet p -> Forall is_octet q -> length p = 4%nat ->
  length q = 4%nat ->
  ipv4_range_to_list p q
  = Ok (map dotted (py_range (be_value p) (be_value q + 1))).
Proof.
  intros Hp Hq Lp Lq.
  pose proof (be_value_bound p Hp) as Bp. pose proof (be_value_bound q Hq) as Bq.
  rewrite Lp in Bp. rewrite Lq in Bq.
  change (256 ^ Z.of_nat 4) with 4294967296 in *.
  rewrite <- (be_bytes_be_value p Hp) at 1.
  rewrite <- (be_bytes_be_value q Hq) at 1. rewrite Lp, Lq.
  apply ipv4_range_to_list_packed; assumption.
Qed.

Lemma short_range_token_text (a b c x y : Z) :
  is_octet a -> is_octet b -> is_octet c -> is_octet x -> is_octet y ->
  Str.all is_range_char (short_range_token a b c x y) = true
  /\ Str.mem "-" (short_range_token a b c x y) = true
  /\ Str.split "-" (short_range_token a b c x y)
     = [inet_ntop4 [a; b; c; x]; py_str y].
Proof.
  intros Ha Hb Hc Hx Hy.
  pose proof (dotted_be_value a b c x Ha Hb Hc Hx) as Hd.
  destruct (dotted_text (be_value [a; b; c; x])) as (As & Ms & _).
  rewrite Hd in As, Ms.
  destruct (octet_int_text y Hy) as [Dy _].
  unfold short_range_token.
  change ("-" +:+ py_str y) with (String "-" (py_str y)).
  split; [| split].
  - rewrite all_app, all_cons, As, (digits_are_range _ Dy). reflexivity.
  - rewrite mem_app, mem_cons. simpl. apply orb_true_r.
  - rewrite (split_app_sep _ _ _ Ms), split_no_sep; [reflexivity |].
    apply digits_not_mem; [reflexivity | exact Dy].
Qed.

(** X13: the short-range matcher on "A.B.C.x-y", for octets A, B, C, x and
    0 <= y <= 255, as it runs under Python 3.  When x is 0 it raises
    [ValueError], whatever y is.  When x is not 0 it returns the
    addresses A.B.C.x, ..., A.B.C.y in ascending order; the comparison of
    y with x is made against 0 instead of x, so for y < x the answer is
    the empty list and not [None]. *)
Theorem ipv4_short_range_behaviour (a b c x y : Z) :
  is_octet a -> is_octet b -> is_octet c -> is_octet x -> is_octet y ->
  target_to_ipv4_short (short_range_token a b c x y)
  = if x =? 0 then Raise ValueError
    else Ok (Some (map (fun o => inet_ntop4 [a; b; c; o]) (py_range x (y + 1)))).
Proof.
  intros Ha Hb Hc Hx Hy.
  destruct (short_range_token_text a b c x y Ha Hb Hc Hx Hy) as (_ & _ & Hsplit).
  destruct (quad_text a b c x Ha Hb Hc Hx) as [Qall _].
  destruct (cidr_text_plain _ Qall) as (_ & _ & Qnul).
  destruct (octet_int_text y Hy) as [_ Hint].
  unfold target_to_ipv4_short. rewrite Hsplit. cbn [length Nat.eqb negb nth].
  unfold inet_pton. rewrite Qnul, (inet_pton4_ntop4 a b c x Ha Hb Hc Hx).
  unfold int_of_str. rewrite Hint. cbn [bind try_or_none bytes_getitem nth_error].
  rewrite (start_value_of_last_octet x Hx).
  destruct (x =? 0) eqn:Ex; [reflexivity |]. cbn [bind].
  unfold is_octet in Hy.
  replace (y <? 0) with false by (symmetry; apply Z.ltb_ge; lia).
  replace (255 <? y) with false by (symmetry; apply Z.ltb_ge; lia).
  cbn [orb].
  rewrite struct_pack_ok by (change (256 ^ Z.of_nat 1) with 256; lia).
  cbn [bind be_bytes bytes_slice Nat.sub skipn firstn app].
  replace (y mod 256) with y by (symmetry; apply Z.mod_small; lia).
  rewrite ipv4_range_to_list_octets;
    try reflexivity;
    try (repeat (constructor; [assumption |]); constructor).
  cbn [bind]. rewrite (last_octet_range a b c x y Ha Hb Hc Hx Hy). reflexivity.
Qed.

Lemma ipv4_short_range_behaviour_witness :
  target_to_ipv4_short "192.168.1.0-5" = Raise ValueError
  /\ target_to_ipv4_short "192.168.1.4-6"
     = Ok (Some ["192.168.1.4"; "192.168.1.5"; "192.168.1.6"])
  /\ target_to_ipv4_short "192.168.1.4-2" = Ok (Some []).
Proof.
  assert (Ho : forall v, 0 <= v <= 255 -> is_octet v) by (intros v H; exact H).
  split; [| split].
  - apply (ipv4_short_range_behaviour 192 168 1 0 5); apply Ho; lia.
  - apply (ipv4_short_range_behaviour 192 168 1 4 6); apply Ho; lia.
  - apply (ipv4_short_range_behaviour 192 168 1 4 2); apply Ho; lia.
Defined.

(** * Further properties of the port parser *)

Lemma index_raises (sub s : string) (e : exn) :
  Str.index sub s = Raise e -> e = ValueError.
Proof.
  unfold Str.index. destruct (Str.find_from sub s 0); [discriminate |].
  intros H. injection H as <-. reflexivity.
Qed.

Lemma int_of_str_raises (base : Z) (s : string) (e : exn) :
  int_of_str base s = Raise e -> e = ValueError.
Proof.
  unfold int_of_str. destruct (py_int base s); [discriminate |].
  intros H. injection H as <-. reflexivity.
Qed.

Lemma getitem_raises (s : string) (i : Z) (e : exn) :
  Str.getitem s i = Raise e -> e = IndexError.
Proof.
  unfold Str.getitem.
  destruct ((_ <? 0) || (Str.len s <=? _));
    [intros H; injection H as <-; reflexivity |].
  destruct (String.get _ s); [discriminate |].
  intros H; injection H as <-; reflexivity.
Qed.

(** On a piece that holds a hyphen, [port_range_expand] returns a list or
    raises [ValueError]; it never returns [None]. *)
Lemma port_range_expand_outcome (portrange : string) :
  Str.mem "-" portrange = true ->
  match port_range_expand portrange with
  | Ok (Some _) => True
  | Ok None => False
  | Raise e => e = ValueError
  end.
Proof.
  intros Hm. unfold port_range_expand. rewrite Hm.
  destruct portrange as [| ch r]; [discriminate Hm |]. cbn [Str.is_empty orb negb].
  destruct (Str.index "-" (String ch r)) as [i | e] eqn:Ei;
    [| cbn [bind]; apply (index_raises _ _ _ Ei)].
  cbn [bind].
  destruct (int_of_str 10 (Str.slice_to (String ch r) i)) as [lo | e] eqn:El;
    [| cbn [bind]; apply (int_of_str_raises _ _ _ El)].
  cbn [bind].
  destruct (int_of_str 10 (Str.slice_from (String ch r) (i + 1)))
    as [hi | e] eqn:Eh;
    [exact I | cbn [bind]; apply (int_of_str_raises _ _ _ Eh)].
Qed.

Lemma ports_loop_raises (pieces : list string) (port_list : list Z) (e : exn) :
  ports_loop pieces port_list = Raise e -> e = ValueError.
Proof.
  revert port_list. induction pieces as [| port rest IH]; intros port_list.
  - discriminate.
  - cbn [ports_loop]. destruct (Str.mem "-" port) eqn:Hm.
    + pose proof (port_range_expand_outcome port Hm) as Hr.
      destruct (port_range_expand port) as [[l |] | e0]; cbn [bind].
      * apply IH.
      * destruct Hr.
      * intros H. injection H as <-. exact Hr.
    + destruct (int_of_str 10 port) as [v | e0] eqn:Ev; cbn [bind].
      * apply IH.
      * intros H. injection H as <-. apply (int_of_str_raises _ _ _ Ev).
Qed.

Lemma ports_of_raises (xports : string) (e : exn) :
  ports_of xports = Raise e -> e = ValueError.
Proof.
  unfold ports_of. destruct (Str.is_empty xports); [discriminate |].
  destruct (ports_loop (Str.split "," xports) []) as [l | e0] eqn:El;
    cbn [bind]; [discriminate |].
  intros H. injection H as <-. apply (ports_loop_raises _ _ _ El).
Qed.

Lemma drop_comma_before_raises (b : Z) (ports : string) (e : exn) :
  drop_comma_before b ports = Raise e -> e = IndexError.
Proof.
  unfold drop_comma_before.
  destruct (Str.getitem ports (b - 1)) as [ch | e0] eqn:Eg; cbn [bind].
  - destruct (Ascii.eqb ch ","); discriminate.
  - intros H. injection H as <-. apply (getitem_raises _ _ _ Eg).
Qed.

(** X14: what [ports_as_list] can do with a string.  It returns the pair
    [None, None] exactly for the empty string and for strings that fail
    [ports_str_check_failed]; for every other string it either returns
    two lists or raises [ValueError] or [IndexError].  It never returns
    one list beside a [None], and no other exception leaves it. *)
Theorem ports_as_list_outcomes (port_str : string) :
  (ports_as_list port_str = Ok (None, None)
   <-> port_str = "" \/ ports_str_check_failed port_str = true)
  /\ match ports_as_list port_str with
     | Ok (Some _, Some _) | Ok (None, None) => True
     | Ok (Some _, None) | Ok (None, Some _) => False
     | Raise e => e = ValueError \/ e = IndexError
     end.
Proof.
  unfold ports_as_list.
  destruct port_str as [| ch r].
  { cbn [Str.is_empty]. split; [| exact I].
    split; [intros _; left; reflexivity | reflexivity]. }
  cbn [Str.is_empty].
  destruct (ports_str_check_failed (String ch r)) eqn:Hc.
  { split; [| exact I]. split; [intros _; right; reflexivity | reflexivity]. }
  set (ports0 := Str.remove " " (String ch r)).
  assert (Hshape :
    match (do ports <- drop_comma_before (Str.find "T" ports0) ports0;
           do ports1 <- drop_comma_before (Str.find "U" ports0) ports;
           let ports2 := port_str_arrange ports1 in
           do tu <-
             (if negb (Str.find "U" ports0 =? -1)
                 && negb (Str.find "T" ports0 =? -1)
              then
                do t <- Str.index "T:" ports2;
                do u <- Str.index "U:" ports2;
                let tports := Str.slice ports2 (t + 2) u in
                do u' <- Str.index "U:" ports2;
                Ok (tports, Str.slice_from ports2 (u' + 2))
              else if (Str.find "T" ports0 =? -1)
                      && negb (Str.find "U" ports0 =? -1)
              then
                do u <- Str.index "U:" ports2;
                Ok (EmptyString, Str.slice_from ports2 (u + 2))
              else if (Str.find "U" ports0 =? -1)
                      && negb (Str.find "T" ports0 =? -1)
              then
                do t <- Str.index "T:" ports2;
                Ok (Str.slice_from ports2 (t + 2), EmptyString)
              else Ok (ports2, EmptyString));
           do tcp_list <- ports_of (fst tu);
           do udp_list <- ports_of (snd tu);
           Ok (Some tcp_list, Some udp_list)) with
    | Ok (Some _, Some _) => True
    | Ok _ => False
    | Raise e => e = ValueError \/ e = IndexError
    end).
  { destruct (drop_comma_before (Str.find "T" ports0) ports0)
      as [p1 | e] eqn:E1; cbn [bind];
      [| right; apply (drop_comma_before_raises _ _ _ E1)].
    destruct (drop_comma_before (Str.find "U" ports0) p1)
      as [p2 | e] eqn:E2; cbn [bind];
      [| right; apply (drop_comma_before_raises _ _ _ E2)].
    cbv zeta.
    match goal with
    | |- match bind ?m _ with _ => _ end =>
        assert (Htu : forall e, m = Raise e -> e = ValueError);
        [| destruct m as [tu | e] eqn:Etu; cbn [bind];
           [| left; apply Htu; reflexivity]]
    end.
    { intros e.
      destruct (negb (Str.find "U" ports0 =? -1)
                && negb (Str.find "T" ports0 =? -1)).
      - destruct (Str.index "T:" (port_str_arrange p2)) as [t | e0] eqn:Et;
          cbn [bind];
          [| intros H; injection H as <-; apply (index_raises _ _ _ Et)].
        destruct (Str.index "U:" (port_str_arrange p2)) as [u | e0] eqn:Eu;
          cbn [bind];
          [discriminate
          | intros H; injection H as <-; apply (index_raises _ _ _ Eu)].
      - destruct ((Str.find "T" ports0 =? -1)
                  && negb (Str.find "U" ports0 =? -1)).
        + destruct (Str.index "U:" (port_str_arrange p2)) as [u | e0] eqn:Eu;
            cbn [bind];
            [discriminate
            | intros H; injection H as <-; apply (index_raises _ _ _ Eu)].
        + destruct ((Str.find "U" ports0 =? -1)
                    && negb (Str.find "T" ports0 =? -1)); [| discriminate].
          destruct (Str.index "T:" (port_str_arrange p2)) as [t | e0] eqn:Et;
            cbn [bind];
            [discriminate
            | intros H; injection H as <-; apply (index_raises _ _ _ Et)]. }
    destruct (ports_of (fst tu)) as [tl | e] eqn:Ht; cbn [bind];
      [| left; apply (ports_of_raises _ _ Ht)].
    destruct (ports_of (snd tu)) as [ul | e] eqn:Hu; cbn [bind];
      [exact I | left; apply (ports_of_raises _ _ Hu)]. }
  fold ports0.
  match type of Hshape with
  | match ?m with _ => _ end => destruct m as [[[tl |] [ul |]] | e]
  end.
  - split; [| exact I]. split; [discriminate | intros [H | H]; discriminate H].
  - destruct Hshape.
  - destruct Hshape.
  - destruct Hshape.
  - split; [| exact Hshape].
    split; [discriminate | intros [H | H]; discriminate H].
Qed.

Lemma py_range_cons (a b : Z) :
  a < b -> py_range a b = a :: py_range (a + 1) b.
Proof.
  intros H. unfold py_range.
  replace (Z.to_nat (b - a)) with (S (Z.to_nat (b - (a + 1)))) by lia.
  cbn [seq map]. f_equal; [lia |].
  rewrite <- seq_shift, map_map. apply map_ext. intros i. lia.
Qed.

Lemma py_range_empty (a b : Z) : b <= a -> py_range a b = [].
Proof.
  intros H. unfold py_range. replace (Z.to_nat (b - a)) with 0%nat by lia.
  reflexivity.
Qed.

Lemma sorted_le_distinct (l : list Z) :
  Sorted Z.le l -> NoDup l -> Sorted Z.lt l.
Proof.
  induction 1 as [| x l Hs IH Hhd]; intros Hnd; [constructor |].
  apply NoDup_cons in Hnd. destruct Hnd as [Hx Hl].
  constructor; [apply IH, Hl |].
  destruct Hhd as [| y l' Hxy]; constructor.
  assert (x <> y) by (intros ->; apply Hx; left). lia.
Qed.

Lemma enumerate_from_steps (l : list Z) (k : nat) :
  Sorted Z.lt l ->
  Sorted enum_step (combine (map Z.of_nat (seq k (length l))) l)
  /\ map snd (combine (map Z.of_nat (seq k (length l))) l) = l.
Proof.
  intros Hs. revert k. induction Hs as [| x l Hs IH Hhd]; intros k.
  - split; [constructor | reflexivity].
  - cbn [length seq map combine]. destruct (IH (S k)) as [IH1 IH2]. split.
    + constructor; [exact IH1 |].
      destruct Hhd as [| y l' Hxy]; cbn [length seq map combine];
        constructor.
      split; cbn [fst snd]; lia.
    + cbn [snd]. rewrite IH2. reflexivity.
Qed.

Lemma group_run_cons (x y : Z * Z) (g : list (Z * Z)) :
  group_run (x :: y :: g) = (snd x, snd (group_run (y :: g))).
Proof. reflexivity. Qed.

(** Over an enumerated, strictly ascending list [groupby] on value minus
    index cuts the list into non-empty groups of consecutive ports, and
    the last port of a group is at least two below the first port of the
    next one. *)
Lemma groupby_runs (l : list (Z * Z)) :
  Sorted enum_step l ->
  concat (groupby (fun t => snd t - fst t) l) = l
  /\ Forall (fun g => g <> [] /\ Sorted unit_step g)
            (groupby (fun t => snd t - fst t) l)
  /\ Sorted (fun g1 g2 => run_gap (group_run g1) (group_run g2))
            (groupby (fun t => snd t - fst t) l).
Proof.
  induction 1 as [| x r Hs IH Hhd].
  - cbn. repeat split; constructor.
  - destruct IH as (C & F & HS). cbn [groupby].
    destruct (groupby (fun t => snd t - fst t) r) as [| [| y g] gs] eqn:EG.
    + cbn in C. subst r. cbn. split; [reflexivity |]. split.
      * constructor; [split; [discriminate | repeat constructor] | constructor].
      * repeat constructor.
    + inversion F as [| ? ? [Habs _] _]; subst. contradiction.
    + cbn [concat] in C.
      assert (Hxy : enum_step x y).
      { rewrite <- C in Hhd. cbn [app] in Hhd.
        inversion Hhd; subst. assumption. }
      destruct Hxy as [Hi Hv].
      inversion F as [| ? ? [_ Hg] Fgs]; subst.
      apply Sorted_inv in HS. destruct HS as [Sgs Hgap].
      destruct (Z.eqb_spec (snd x - fst x) (snd y - fst y)) as [Ek | Ek].
      * split; [reflexivity |]. split.
        -- constructor; [| exact Fgs]. split; [discriminate |].
           constructor; [exact Hg |]. constructor. split; lia.
        -- constructor; [exact Sgs |].
           destruct Hgap as [| g' gs' Hgg]; constructor.
           unfold run_gap in *. rewrite group_run_cons. exact Hgg.
      * split; [reflexivity |]. split.
        -- constructor; [split; [discriminate | repeat constructor] |].
           constructor; [split; [discriminate | exact Hg] | exact Fgs].
        -- constructor; [constructor; assumption |]. constructor.
           unfold run_gap, group_run. cbn [hd List.last fst snd]. lia.
Qed.

Lemma group_is_range (g : list (Z * Z)) :
  g <> [] -> Sorted unit_step g ->
  map snd g = py_range (fst (group_run g)) (snd (group_run g) + 1)
  /\ fst (group_run g) <= snd (group_run g).
Proof.
  intros Hne Hs. induction Hs as [| x g Hs IH Hhd]; [contradiction |].
  destruct g as [| y g'].
  - unfold group_run. cbn [hd List.last fst snd map]. split; [| lia].
    rewrite py_range_cons by lia. rewrite py_range_empty by lia. reflexivity.
  - destruct (IH ltac:(discriminate)) as [IH1 IH2].
    inversion Hhd as [| ? ? [_ Hv]]; subst.
    rewrite group_run_cons. cbn [fst snd].
    change (fst (group_run (y :: g'))) with (snd y) in IH1, IH2.
    split; [| lia].
    rewrite py_range_cons by lia.
    change (map snd (x :: y :: g')) with (snd x :: map snd (y :: g')).
    f_equal. rewrite IH1, Hv. reflexivity.
Qed.

Lemma runs_cover (G : list (list (Z * Z))) :
  Forall (fun g => g <> [] /\ Sorted unit_step g) G ->
  concat (map (fun r => py_range (fst r) (snd r + 1)) (map group_run G))
  = map snd (concat G)
  /\ Forall (fun r => fst r <= snd r) (map group_run G).
Proof.
  induction 1 as [| g G [Hne Hs] _ [IH1 IH2]].
  - split; [reflexivity | constructor].
  - destruct (group_is_range g Hne Hs) as [Hr Hle].
    cbn [map concat]. rewrite map_app, IH1, Hr. split; [reflexivity |].
    constructor; assumption.
Qed.

Lemma sorted_map_runs (G : list (list (Z * Z))) :
  Sorted (fun g1 g2 => run_gap (group_run g1) (group_run g2)) G ->
  Sorted run_gap (map group_run G).
Proof.
  induction 1 as [| g G Hs IH Hhd]; [constructor |].
  cbn [map]. constructor; [exact IH |].
  destruct Hhd; cbn [map]; constructor. assumption.
Qed.

(** X15: for a non-empty list of ports that [str] can print (fewer than
    4301 digits each), [port_list_compress] returns the comma-joined
    renderings ("a", or "a-b" when a < b) of runs (a, b) with these
    properties: expanded in order the runs give exactly the ports of the
    list, sorted in strictly ascending order with each port once; and
    between the end of a run and the start of the next at least one port
    is missing, so no two runs could be merged. *)
Theorem port_list_compress_runs (port_list : list Z) :
  port_list <> [] ->
  Forall within_str_digits port_list ->
  let ports := merge_sort Z.le (remove_dups port_list) in
  let runs := port_runs port_list in
  port_list_compress port_list = Str.join "," (map render_run runs)
  /\ concat (map (fun r => py_range (fst r) (snd r + 1)) runs) = ports
  /\ Forall (fun r => fst r <= snd r) runs
  /\ Sorted run_gap runs
  /\ Sorted Z.lt ports
  /\ forall p, In p ports <-> In p port_list.
Proof.
  intros Hne _ ports runs.
  assert (Hperm : ports ≡ₚ remove_dups port_list)
    by apply merge_sort_Permutation.
  assert (Hnd : NoDup ports) by (rewrite Hperm; apply NoDup_remove_dups).
  assert (Hlt : Sorted Z.lt ports).
  { apply sorted_le_distinct; [| exact Hnd].
    apply Sorted_merge_sort. apply _. }
  destruct (enumerate_from_steps ports 0 Hlt) as [Hsteps Hsnd].
  fold (enumerate ports) in Hsteps, Hsnd.
  destruct (groupby_runs (enumerate ports) Hsteps) as (C & F & HS).
  destruct (runs_cover _ F) as [Hcover Hle].
  split; [| split; [| split; [| split; [| split]]]].
  - destruct port_list as [| p l]; [contradiction |].
    unfold port_list_compress, runs, port_runs. rewrite map_map. reflexivity.
  - unfold runs, port_runs. fold ports. rewrite Hcover, C. exact Hsnd.
  - exact Hle.
  - apply sorted_map_runs, HS.
  - exact Hlt.
  - intros p. rewrite <- !list_elem_of_In, Hperm. apply elem_of_remove_dups.
Qed.

Lemma port_list_compress_runs_witness :
  port_list_compress [80; 22; 8080; 21; 23; 80] = "21-23,80,8080"
  /\ port_runs [80; 22; 8080; 21; 23; 80] = [(21, 23); (80, 80); (8080, 8080)].
Proof.
  destruct (port_list_compress_runs [80; 22; 8080; 21; 23; 80])
    as (H1 & _); [discriminate | |].
  - repeat (constructor; [unfold within_str_digits; vm_compute; reflexivity |]).
    constructor.
  - split; [exact H1 | vm_compute; reflexivity].
Defined.

(** * Finished and unfinished hosts *)

Lemma list_remove_perm (x : string) (l l' : list string) :
  list_remove x l = Ok l' -> l ≡ₚ x :: l'.
Proof.
  revert l'. induction l as [| y r IH]; intros l'; cbn [list_remove].
  - discriminate.
  - destruct (String.eqb_spec y x) as [-> | Hne].
    + intros H. injection H as <-. reflexivity.
    + destruct (list_remove x r) as [r' |] eqn:E; cbn [bind]; [| discriminate].
      intros H. injection H as <-. rewrite (IH r' eq_refl). apply perm_swap.
Qed.

Lemma list_remove_miss (x : string) (l : list string) :
  ~ In x l -> list_remove x l = Raise ValueError.
Proof.
  induction l as [| y r IH]; intros Hnot; cbn [list_remove]; [reflexivity |].
  destruct (String.eqb_spec y x) as [-> | Hne].
  - exfalso. apply Hnot. left. reflexivity.
  - rewrite IH; [reflexivity |]. intros H. apply Hnot. right. exact H.
Qed.

Lemma list_remove_raises (x : string) (l : list string) (e : exn) :
  list_remove x l = Raise e -> e = ValueError.
Proof.
  induction l as [| y r IH]; cbn [list_remove].
  - intros H. injection H as <-. reflexivity.
  - destruct (String.eqb y x); [discriminate |].
    destruct (list_remove x r) as [r' | e0]; cbn [bind]; [discriminate |].
    intros H. injection H as <-. apply IH. reflexivity.
Qed.

Lemma remove_hosts_perm (hs acc acc' : list string) :
  remove_hosts hs acc = Ok acc' -> acc ≡ₚ hs ++ acc'.
Proof.
  revert acc acc'. induction hs as [| h r IH]; intros acc acc';
    cbn [remove_hosts].
  - intros H. injection H as <-. reflexivity.
  - destruct (list_remove h acc) as [a1 |] eqn:E; cbn [bind]; [| discriminate].
    intros H. rewrite (list_remove_perm _ _ _ E), (IH _ _ H). reflexivity.
Qed.

Lemma remove_hosts_raises (hs acc : list string) (e : exn) :
  remove_hosts hs acc = Raise e -> e = ValueError.
Proof.
  revert acc. induction hs as [| h r IH]; intros acc; cbn [remove_hosts].
  - discriminate.
  - destruct (list_remove h acc) as [a1 | e0] eqn:El; cbn [bind].
    + apply IH.
    + intros H. injection H as <-. apply (list_remove_raises _ _ _ El).
Qed.

(** Taking out a host that is not there stops with [ValueError]. *)
Lemma remove_hosts_miss (host : string) (hs acc : list string) :
  In host hs -> ~ In host acc -> remove_hosts hs acc = Raise ValueError.
Proof.
  revert acc. induction hs as [| h r IH]; intros acc Hi Hn; [destruct Hi |].
  cbn [remove_hosts].
  destruct (list_remove h acc) as [a1 | e] eqn:El; cbn [bind].
  - destruct Hi as [-> | Hi].
    + rewrite (list_remove_miss _ _ Hn) in El. discriminate El.
    + apply IH; [exact Hi |]. intros Ha. apply Hn.
      apply list_remove_perm in El.
      apply list_elem_of_In. rewrite El. right. apply list_elem_of_In, Ha.
  - rewrite (list_remove_raises _ _ _ El). reflexivity.
Qed.

Lemma remove_finished_perm (fh : dict (list string)) (acc acc' : list string) :
  remove_finished fh acc = Ok acc' ->
  acc ≡ₚ concat (map snd fh) ++ acc'.
Proof.
  revert acc acc'. induction fh as [| [t hs] r IH]; intros acc acc';
    cbn [remove_finished].
  - intros H. injection H as <-. reflexivity.
  - destruct (remove_hosts hs acc) as [a1 |] eqn:E; cbn [bind];
      [| discriminate].
    intros H. cbn [map concat snd].
    rewrite (remove_hosts_perm _ _ _ E), (IH _ _ H), app_assoc. reflexivity.
Qed.

Lemma extend_targets_inv (fh : dict (list string)) (acc all : list string) :
  extend_targets fh acc = Ok all ->
  exists lists,
    Forall2 (fun entry l => target_str_to_list (fst entry) = Ok (Some l))
            fh lists
    /\ all = acc ++ concat lists.
Proof.
  revert acc. induction fh as [| [t hs] r IH]; intros acc;
    cbn [extend_targets].
  - intros H. injection H as <-. exists []. split; [constructor |].
    cbn. rewrite app_nil_r. reflexivity.
  - destruct (target_str_to_list t) as [[l |] |] eqn:E; cbn [bind];
      try discriminate.
    intros H. destruct (IH _ H) as (lists & Hall & ->).
    exists (l :: lists). split; [constructor; [exact E | exact Hall] |].
    cbn [concat]. rewrite app_assoc. reflexivity.
Qed.

(** X16: when [get_hosts_unfinished] returns for a scan, every target of
    the scan resolved to a host list, and the returned hosts together
    with the hosts recorded as finished are a rearrangement of the hosts
    of all targets: each finished host has been taken out once, and
    nothing else.  A target that does not resolve makes the call raise
    [TypeError], and a finished host that is not among the hosts of the
    targets makes it raise [ValueError]. *)
Theorem get_hosts_unfinished_accounts (c : ScanCollection) (scan_id : string)
    (info : ScanInfo) :
  scans_table c !! scan_id = Some info ->
  (forall unfinished,
     get_hosts_unfinished scan_id c = (Ok unfinished, c) ->
     exists lists,
       Forall2 (fun entry l => target_str_to_list (fst entry) = Ok (Some l))
               (finished_hosts info) lists
       /\ concat lists ≡ₚ all_finished info ++ unfinished)
  /\ (forall target hs,
        In (target, hs) (finished_hosts info) ->
        target_str_to_list target = Ok None ->
        (forall entry, In entry (finished_hosts info) ->
           exists r, target_str_to_list (fst entry) = Ok r) ->
        get_hosts_unfinished scan_id c = (Raise TypeError, c))
  /\ (forall all host,
        extend_targets (finished_hosts info) [] = Ok all ->
        In host (all_finished info) -> ~ In host all ->
        get_hosts_unfinished scan_id c = (Raise ValueError, c)).
Proof.
  intros Hget. unfold get_hosts_unfinished.
  rewrite (call_bind_ok _ _ c c info (get_scan_present _ _ _ Hget)).
  unfold lift, hosts_unfinished, all_finished. split; [| split].
  - intros unfinished H. injection H as H.
    destruct (extend_targets (finished_hosts info) []) as [all |] eqn:E;
      cbn [bind] in H; [| discriminate H].
    destruct (extend_targets_inv _ _ _ E) as (lists & Hall & ->).
    exists lists. split; [exact Hall |].
    cbn [app]. apply remove_finished_perm, H.
  - intros target hs Hin Hnone Hok.
    assert (E : forall fh acc,
              In (target, hs) fh ->
              (forall entry, In entry fh ->
                 exists r, target_str_to_list (fst entry) = Ok r) ->
              extend_targets fh acc = Raise TypeError).
    { induction fh as [| [t0 h0] r IH]; intros acc Hi Hr; [destruct Hi |].
      cbn [extend_targets].
      destruct (Hr (t0, h0) (or_introl eq_refl)) as [r0 Hr0].
      cbn [fst] in Hr0. rewrite Hr0. cbn [bind].
      destruct r0 as [l |].
      - destruct Hi as [Hi | Hi].
        + injection Hi as -> ->. rewrite Hnone in Hr0. discriminate Hr0.
        + apply IH; [exact Hi |]. intros entry He. apply Hr. right. exact He.
      - reflexivity. }
    rewrite (E _ [] Hin Hok). reflexivity.
  - intros all host Hall Hin Hnot. rewrite Hall. cbn [bind].
    assert (E : forall fh acc,
              In host (concat (map snd fh)) -> ~ In host acc ->
              remove_finished fh acc = Raise ValueError).
    { induction fh as [| [t0 h0] r IH]; intros acc Hi Hn; [destruct Hi |].
      cbn [remove_finished]. cbn [map concat snd] in Hi.
      apply in_app_iff in Hi.
      destruct (remove_hosts h0 acc) as [a1 | e] eqn:Er; cbn [bind].
      - destruct Hi as [Hi | Hi].
        + rewrite (remove_hosts_miss _ _ _ Hi Hn) in Er. discriminate Er.
        + apply IH; [exact Hi |]. intros Ha. apply Hn.
          apply remove_hosts_perm in Er.
          apply list_elem_of_In. rewrite Er. apply elem_of_app. right.
          apply list_elem_of_In, Ha.
      - rewrite (remove_hosts_raises _ _ _ Er). reflexivity. }
    rewrite (E _ _ Hin Hnot). reflexivity.
Qed.

Lemma get_hosts_unfinished_accounts_witness :
  get_hosts_unfinished "scan-1" (sample_collection STOPPED)
  = (Ok ["10.0.0.2"], sample_collection STOPPED)
  /\ exists lists,
       Forall2 (fun entry l => target_str_to_list (fst entry) = Ok (Some l))
               (finished_hosts (sample_info STOPPED)) lists
       /\ concat lists ≡ₚ all_finished (sample_info STOPPED) ++ ["10.0.0.2"].
Proof.
  assert (H : get_hosts_unfinished "scan-1" (sample_collection STOPPED)
              = (Ok ["10.0.0.2"], sample_collection STOPPED))
    by (vm_compute; reflexivity).
  split; [exact H |].
  destruct (get_hosts_unfinished_accounts (sample_collection STOPPED) "scan-1"
              (sample_info STOPPED) eq_refl) as [H1 _].
  apply (H1 _ H).
Defined.

(** ** Marking hosts as finished *)

Lemma extend_targets_keys (fh fh' : dict (list string)) :
  map fst fh = map fst fh' ->
  forall acc, extend_targets fh acc = extend_targets fh' acc.
Proof.
  revert fh'. induction fh as [| [t hs] r IH]; intros [| [t' hs'] r'] E acc;
    try discriminate E; [reflexivity |].
  cbn [map fst] in E. injection E as -> E.
  cbn [extend_targets].
  destruct (target_str_to_list t') as [[l |] |]; cbn [bind];
    [apply IH, E | reflexivity | reflexivity].
Qed.

Lemma dict_set_present_keys {V : Type} (k : string) (v v0 : V) (d : dict V) :
  dict_get k d = Some v0 -> map fst (dict_set k v d) = map fst d.
Proof.
  induction d as [| [k' v'] r IH]; cbn [dict_get dict_set]; [discriminate |].
  destruct (String.eqb_spec k k') as [-> | Hne]; [reflexivity |].
  intros H. cbn [map fst]. rewrite (IH H). reflexivity.
Qed.

Lemma dict_set_extends (k : string) (l host : list string)
    (d : dict (list string)) :
  dict_get k d = Some l ->
  concat (map snd (dict_set k (l ++ host) d)) ≡ₚ concat (map snd d) ++ host.
Proof.
  induction d as [| [k' v'] r IH]; cbn [dict_get dict_set]; [discriminate |].
  destruct (String.eqb_spec k k') as [-> | Hne].
  - intros H. injection H as ->. cbn [map concat snd].
    rewrite <- !app_assoc. apply Permutation_app_head, Permutation_app_comm.
  - intros H. cbn [map concat snd]. rewrite (IH H), app_assoc. reflexivity.
Qed.

Lemma list_remove_hit (x : string) (l : list string) :
  In x l -> exists l', list_remove x l = Ok l'.
Proof.
  induction l as [| y r IH]; intros Hi; [destruct Hi |].
  cbn [list_remove]. destruct (String.eqb_spec y x) as [-> | Hne].
  - exists r. reflexivity.
  - destruct Hi as [Hi | Hi]; [contradiction |].
    destruct (IH Hi) as [r' ->]. exists (y :: r'). reflexivity.
Qed.

Lemma remove_hosts_hit (hs acc rest : list string) :
  acc ≡ₚ hs ++ rest -> exists acc', remove_hosts hs acc = Ok acc'.
Proof.
  revert acc. induction hs as [| h r IH]; intros acc Hp; cbn [remove_hosts].
  - exists acc. reflexivity.
  - assert (Hi : In h acc).
    { apply list_elem_of_In. rewrite Hp. left. }
    destruct (list_remove_hit _ _ Hi) as [a1 E]. rewrite E. cbn [bind].
    apply IH. apply list_remove_perm in E. rewrite E in Hp.
    cbn [app] in Hp. apply (Permutation_cons_inv Hp).
Qed.

Lemma remove_finished_hit (fh : dict (list string)) (acc rest : list string) :
  acc ≡ₚ concat (map snd fh) ++ rest ->
  exists acc', remove_finished fh acc = Ok acc'.
Proof.
  revert acc. induction fh as [| [t hs] r IH]; intros acc Hp;
    cbn [remove_finished].
  - exists acc. reflexivity.
  - cbn [map concat snd] in Hp. rewrite <- app_assoc in Hp.
    destruct (remove_hosts_hit _ _ _ Hp) as [a1 E]. rewrite E. cbn [bind].
    apply IH. apply remove_hosts_perm in E. rewrite E in Hp.
    apply (Permutation_app_inv_l _ _ _ Hp).
Qed.

Lemma remove_finished_raises (fh : dict (list string)) (acc : list string)
    (e : exn) :
  remove_finished fh acc = Raise e -> e = ValueError.
Proof.
  revert acc. induction fh as [| [t hs] r IH]; intros acc;
    cbn [remove_finished].
  - discriminate.
  - destruct (remove_hosts hs acc) as [a1 | e0] eqn:E; cbn [bind].
    + apply IH.
    + intros H. injection H as <-. apply (remove_hosts_raises _ _ _ E).
Qed.

(** X17: [set_host_finished] and [get_hosts_unfinished] fit together.  For a
    scan whose [finished_hosts] has the target and whose unfinished hosts
    are [u], marking the hosts [host] of the target as finished returns;
    afterwards [get_hosts_unfinished] returns [u] without [host] (up to
    order) when every host of [host] was still unfinished, counted with
    repetitions, and raises [ValueError] otherwise, for example when a
    host is marked a second time. *)
Theorem set_host_finished_accounts (c : ScanCollection)
    (scan_id target : string) (info : ScanInfo) (l host u : list string) :
  scans_table c !! scan_id = Some info ->
  dict_get target (finished_hosts info) = Some l ->
  get_hosts_unfinished scan_id c = (Ok u, c) ->
  exists c',
    set_host_finished scan_id target host c = (Ok tt, c')
    /\ (forall rest, u ≡ₚ host ++ rest ->
          exists u',
            get_hosts_unfinished scan_id c' = (Ok u', c') /\ u' ≡ₚ rest)
    /\ ((forall rest, ~ u ≡ₚ host ++ rest) ->
          get_hosts_unfinished scan_id c' = (Raise ValueError, c')).
Proof.
  intros Hget Hd Hu.
  set (fh' := dict_set target (l ++ host) (finished_hosts info)).
  set (c' := with_table (<[scan_id := with_finished_hosts fh' info]>
                           (scans_table c)) c).
  exists c'. split.
  { unfold set_host_finished.
    rewrite (call_bind_ok _ _ c c info (get_scan_present _ _ _ Hget)).
    cbv zeta. rewrite Hd. apply set_field_present, Hget. }
  unfold get_hosts_unfinished in Hu.
  rewrite (call_bind_ok _ _ c c info (get_scan_present _ _ _ Hget)) in Hu.
  unfold lift, hosts_unfinished in Hu. injection Hu as Hu.
  destruct (extend_targets (finished_hosts info) []) as [all |] eqn:E;
    cbn [bind] in Hu; [| discriminate Hu].
  pose proof (remove_finished_perm _ _ _ Hu) as Hall.
  assert (Hafter : get_hosts_unfinished scan_id c'
                   = (remove_finished fh' all, c')).
  { unfold get_hosts_unfinished.
    rewrite (call_bind_ok _ _ c' c' (with_finished_hosts fh' info)
               (get_scan_present _ _ _ (with_table_lookup _ _ _))).
    unfold lift, hosts_unfinished. cbn [with_finished_hosts finished_hosts].
    rewrite <- (extend_targets_keys (finished_hosts info) fh'
                  (eq_sym (dict_set_present_keys _ _ _ _ Hd))).
    rewrite E. reflexivity. }
  pose proof (dict_set_extends _ _ host _ Hd) as Hfin. fold fh' in Hfin.
  rewrite Hafter. split.
  - intros rest Hrest.
    assert (Hp : all ≡ₚ concat (map snd fh') ++ rest).
    { rewrite Hall, Hfin, Hrest, <- app_assoc. reflexivity. }
    destruct (remove_finished_hit _ _ _ Hp) as [u' Hu'].
    exists u'. split; [rewrite Hu'; reflexivity |].
    apply remove_finished_perm in Hu'. rewrite Hu' in Hp.
    apply (Permutation_app_inv_l _ _ _ Hp).
  - intros Hnot.
    destruct (remove_finished fh' all) as [u' | e] eqn:Er.
    + exfalso. apply (Hnot u').
      apply remove_finished_perm in Er. rewrite Hall, Hfin in Er.
      rewrite <- app_assoc in Er. apply (Permutation_app_inv_l _ _ _ Er).
    + rewrite (remove_finished_raises _ _ _ Er). reflexivity.
Qed.

Lemma set_host_finished_accounts_witness :
  exists c',
    set_host_finished "scan-1" "10.0.0.0/30" ["10.0.0.2"]
      (sample_collection STOPPED) = (Ok tt, c')
    /\ (exists u', get_hosts_unfinished "scan-1" c' = (Ok u', c') /\ u' ≡ₚ [])
    /\ exists c'',
         set_host_finished "scan-1" "10.0.0.0/30" ["10.0.0.1"]
           (sample_collection STOPPED) = (Ok tt, c'')
         /\ get_hosts_unfinished "scan-1" c'' = (Raise ValueError, c'').
Proof.
  assert (Hu : get_hosts_unfinished "scan-1" (sample_collection STOPPED)
               = (Ok ["10.0.0.2"], sample_collection STOPPED))
    by (vm_compute; reflexivity).
  destruct (set_host_finished_accounts (sample_collection STOPPED) "scan-1"
              "10.0.0.0/30" (sample_info STOPPED) ["10.0.0.1"] ["10.0.0.2"]
              ["10.0.0.2"] eq_refl eq_refl Hu) as (c' & Hset & Hok & _).
  destruct (set_host_finished_accounts (sample_collection STOPPED) "scan-1"
              "10.0.0.0/30" (sample_info STOPPED) ["10.0.0.1"] ["10.0.0.1"]
              ["10.0.0.2"] eq_refl eq_refl Hu) as (c'' & Hset' & _ & Hbad).
  exists c'. split; [exact Hset |]. split; [apply (Hok []); reflexivity |].
  exists c''. split; [exact Hset' |]. apply Hbad.
  intros rest Hp.
  assert (Hi : "10.0.0.1" ∈ ["10.0.0.2"]) by (rewrite Hp; left).
  apply list_elem_of_In in Hi. destruct Hi as [Hi | []]. discriminate Hi.
Defined.

(** * Host names *)

Lemma hostname_char_facts (c : ascii) :
  is_hostname_char c = true ->
  Str.is_space c = false /\ c <> ","%char /\ c <> "/"%char
  /\ c <> ":"%char /\ c <> "000"%char.
Proof.
  intros Hc.
  assert (H : hostname_char_plain c = true).
  { apply (for_all_ascii hostname_char_plain). vm_compute. reflexivity. }
  unfold hostname_char_plain in H. rewrite Hc in H. simpl in H.
  repeat (apply andb_true_iff in H; destruct H as [H ?]).
  repeat match goal with
         | K : negb _ = true |- _ => apply negb_true_iff in K
         end.
  repeat split; try assumption; intros ->; discriminate.
Qed.

Lemma hostname_text_plain (s : string) :
  Str.all is_hostname_char s = true ->
  Str.all (fun c => negb (Str.is_space c)) s = true
  /\ Str.mem "," s = false
  /\ Str.mem "/" s = false
  /\ Str.mem ":" s = false
  /\ Str.mem "000" s = false.
Proof.
  intros H. split; [| repeat split].
  - revert H. apply all_impl. intros c Hc.
    destruct (hostname_char_facts c Hc) as (Hs & _). rewrite Hs. reflexivity.
  - apply (all_not_mem is_hostname_char); [exact H | reflexivity].
  - apply (all_not_mem is_hostname_char); [exact H | reflexivity].
  - apply (all_not_mem is_hostname_char); [exact H | reflexivity].
  - apply (all_not_mem is_hostname_char); [exact H | reflexivity].
Qed.

Lemma hostname_match_cons (c d : ascii) (r : string) :
  is_hostname_char d = true ->
  hostname_match (String c (String d r))
  = is_hostname_char c && hostname_match (String d r).
Proof.
  intros H. destruct d as [[] [] [] [] [] [] [] []]; try reflexivity.
  discriminate H.
Qed.

(** The pattern accepts every non-empty text of host name characters. *)
Lemma hostname_match_all (s : string) :
  s <> EmptyString -> Str.all is_hostname_char s = true ->
  hostname_match s = true.
Proof.
  induction s as [| c r IH]; intros Hne Hall; [contradiction |].
  rewrite all_cons in Hall. apply andb_true_iff in Hall.
  destruct Hall as [Hc Hr]. destruct r as [| d r'].
  - exact Hc.
  - pose proof Hr as Hd. rewrite all_cons in Hd.
    apply andb_true_iff in Hd. destruct Hd as [Hd _].
    rewrite (hostname_match_cons _ _ _ Hd), Hc, IH;
      [reflexivity | discriminate | exact Hr].
Qed.

(** A character of a piece is a character of the text that was split. *)
Lemma split_piece_mem (c sep : ascii) (s piece : string) :
  In piece (Str.split sep s) -> Str.mem c piece = true -> Str.mem c s = true.
Proof.
  revert piece. induction s as [| d s' IH]; intros piece Hin Hc.
  - destruct Hin as [<- | []]. discriminate Hc.
  - cbn [Str.split] in Hin. rewrite mem_cons.
    destruct (Ascii.eqb d sep).
    + destruct Hin as [<- | Hin]; [discriminate Hc |].
      rewrite (IH _ Hin Hc). apply orb_true_r.
    + destruct (Str.split sep s') as [| w ws].
      * destruct Hin as [<- | []]. rewrite mem_cons in Hc.
        change (Str.mem c "") with false in Hc. rewrite orb_false_r in Hc.
        rewrite Hc. reflexivity.
      * destruct Hin as [<- | Hin].
        -- rewrite mem_cons in Hc. apply orb_true_iff in Hc.
           destruct Hc as [-> | Hc]; [reflexivity |].
           rewrite (IH w (or_introl eq_refl) Hc). apply orb_true_r.
        -- rewrite (IH piece (or_intror Hin) Hc). apply orb_true_r.
Qed.

Lemma split_piece_not_mem (c sep : ascii) (s piece : string) :
  Str.mem c s = false -> In piece (Str.split sep s) ->
  Str.mem c piece = false.
Proof.
  intros Hs Hin. destruct (Str.mem c piece) eqn:E; [| reflexivity].
  rewrite (split_piece_mem _ _ _ _ Hin E) in Hs. discriminate Hs.
Qed.

Lemma inet_pton4_length (s : string) (q : bytes) :
  inet_pton4 s = Some q -> length q = 4%nat.
Proof.
  unfold inet_pton4.
  destruct (Str.split "." s) as [| a [| b [| c [| d [| ? ?]]]]];
    try discriminate.
  destruct (parse_octet a), (parse_octet b), (parse_octet c), (parse_octet d);
    try discriminate.
  intros H. injection H as <-. reflexivity.
Qed.

(** Without a colon the loop writes nothing but, at most, one dotted
    quad. *)
Lemma pton6_loop_no_colon (src : string) :
  Str.mem ":" src = false ->
  forall (curtok : string) (seen : nat) (val : Z),
    match pton6_loop src curtok [] None seen val with
    | None => True
    | Some (tp, colonp, seen', _) =>
        colonp = None
        /\ (tp = [] \/ (length tp = 4%nat /\ seen' = 0%nat))
    end.
Proof.
  induction src as [| ch rest IH]; intros Hc curtok seen val.
  - cbn [pton6_loop]. split; [reflexivity | left; reflexivity].
  - rewrite mem_cons in Hc. apply orb_false_iff in Hc.
    destruct Hc as [Hch Hrest]. cbn [pton6_loop].
    destruct (digit_value ch) as [d |].
    + destruct (seen =? 4)%nat; [exact I |].
      destruct (Z.lor (Z.shiftl val 4) d >? 65535); [exact I |].
      apply IH, Hrest.
    + rewrite Ascii.eqb_sym, Hch.
      destruct (Ascii.eqb ch "." && (length (@nil Z) + 4 <=? 16)%nat);
        [| exact I].
      destruct (inet_pton4 curtok) as [q |] eqn:E; [| exact I].
      split; [reflexivity |]. right. split; [| reflexivity].
      cbn [app]. apply (inet_pton4_length _ _ E).
Qed.

(** Every IPv6 address has a colon. *)
Lemma inet_pton6_no_colon (s : string) :
  Str.mem ":" s = false -> inet_pton6 s = None.
Proof.
  intros Hc. unfold inet_pton6.
  assert (Hstart : match s with
                   | EmptyString => None
                   | String ":" (String ":" _ as r) => Some r
                   | String ":" _ => None
                   | _ => Some s
                   end = match s with EmptyString => None | _ => Some s end).
  { destruct s as [| c r]; [reflexivity |].
    rewrite mem_cons in Hc. apply orb_false_iff in Hc. destruct Hc as [Hc _].
    destruct c as [[] [] [] [] [] [] [] []]; try reflexivity.
    discriminate Hc. }
  rewrite Hstart. destruct s as [| c r]; [reflexivity |].
  pose proof (pton6_loop_no_colon _ Hc (String c r) 0%nat 0) as H.
  destruct (pton6_loop (String c r) (String c r) [] None 0 0)
    as [[[[tp colonp] seen] val] |]; [| reflexivity].
  destruct H as [-> [-> | [Hlen ->]]].
  - destruct (0 <? seen)%nat; reflexivity.
  - cbn [Nat.ltb Nat.leb]. rewrite Hlen. reflexivity.
Qed.

Lemma inet_pton_no_colon (s : string) :
  Str.mem "000" s = false -> Str.mem ":" s = false ->
  inet_pton AF_INET6 s = Raise SocketError.
Proof.
  intros Hnul Hc. unfold inet_pton.
  rewrite Hnul, (inet_pton6_no_colon _ Hc). reflexivity.
Qed.

(** The four range matchers step aside for a text without colon whose
    part before a single hyphen is no IPv4 address. *)
Lemma name_is_no_range (target : string) :
  Str.mem "000" target = false -> Str.mem ":" target = false ->
  (forall p0 p1, Str.split "-" target = [p0; p1] -> inet_pton4 p0 = None) ->
  target_to_ipv4_short target = Ok None
  /\ target_to_ipv4_long target = Ok None
  /\ target_to_ipv6_short target = Ok None
  /\ target_to_ipv6_long target = Ok None.
Proof.
  intros Hnul Hcolon Hdash.
  unfold target_to_ipv4_short, target_to_ipv4_long, target_to_ipv6_short,
    target_to_ipv6_long.
  destruct (Str.split "-" target) as [| p0 [| p1 [| p2 r]]] eqn:E;
    cbn [length Nat.eqb negb]; try (repeat split; reflexivity).
  assert (Hin : In p0 (Str.split "-" target)) by (rewrite E; left; reflexivity).
  pose proof (split_piece_not_mem _ _ _ _ Hnul Hin) as Hnul0.
  pose proof (split_piece_not_mem _ _ _ _ Hcolon Hin) as Hcolon0.
  assert (H4 : inet_pton AF_INET p0 = Raise SocketError).
  { unfold inet_pton. rewrite Hnul0, (Hdash p0 p1 eq_refl). reflexivity. }
  cbn [nth]. rewrite H4, (inet_pton_no_colon _ Hnul0 Hcolon0).
  repeat split; reflexivity.
Qed.

(** X18: a host name resolves to itself.  A text of 1 to 255 letters,
    digits, underscores, dots and hyphens is resolved by
    [target_to_list] and by [target_str_to_list] to the one-element list
    holding that text, unless it has exactly one hyphen with an IPv4
    address in front of it.  No check of the labels is made: a malformed
    address such as 999.1.1.1 is taken as a host name. *)
Theorem hostname_resolves_to_itself (target : string) :
  Str.all is_hostname_char target = true ->
  1 <= Str.len target <= 255 ->
  (forall p0 p1, Str.split "-" target = [p0; p1] -> inet_pton4 p0 = None) ->
  target_to_list target = Ok (Some [target])
  /\ target_str_to_list target = Ok (Some [target]).
Proof.
  intros Hall Hlen Hdash.
  destruct (hostname_text_plain _ Hall)
    as (Hspace & Hcomma & Hslash & Hcolon & Hnul).
  assert (Hlist : target_to_list target = Ok (Some [target])).
  { destruct (name_is_no_range _ Hnul Hcolon Hdash) as (R1 & R2 & R3 & R4).
    destruct (no_slash_no_cidr _ Hslash) as (C1 & C2).
    assert (Hname : target_to_hostname target = Ok (Some [target])).
    { unfold target_to_hostname.
      replace (Str.len target =? 0) with false by (symmetry; apply Z.eqb_neq; lia).
      replace (255 <? Str.len target) with false by (symmetry; apply Z.ltb_ge; lia).
      rewrite hostname_match_all; [reflexivity | | exact Hall].
      intros ->. change (Str.len "") with 0 in Hlen. lia. }
    assert (H6 : target_to_ipv6 target = Ok None).
    { unfold target_to_ipv6. rewrite (inet_pton_no_colon _ Hnul Hcolon).
      reflexivity. }
    unfold target_to_list, target_to_ipv4, inet_pton. rewrite Hnul.
    destruct (inet_pton4 target) as [b |];
      cbn [try_or_none is_socket_error bind].
    - rewrite !or_else_keeps. reflexivity.
    - cbn [or_else falsy]. rewrite H6. cbn [bind falsy].
      rewrite C1. cbn [bind falsy]. rewrite C2. cbn [bind falsy].
      rewrite R1. cbn [bind falsy]. rewrite R2. cbn [bind falsy].
      rewrite R3. cbn [bind falsy]. rewrite R4. cbn [bind falsy].
      rewrite Hname. reflexivity. }
  split; [exact Hlist |].
  apply target_str_to_list_single;
    [exact Hcomma | exact Hspace | exact Hlist |].
  apply NoDup_singleton.
Qed.

Lemma hostname_resolves_to_itself_witness :
  target_to_list "my-host.example.com" = Ok (Some ["my-host.example.com"])
  /\ target_str_to_list "999.1.1.1" = Ok (Some ["999.1.1.1"]).
Proof.
  split.
  - apply (hostname_resolves_to_itself "my-host.example.com");
      [reflexivity | split; discriminate |].
    intros p0 p1 E. vm_compute in E. injection E as <- <-. reflexivity.
  - apply (hostname_resolves_to_itself "999.1.1.1");
      [reflexivity | split; discriminate |].
    intros p0 p1 E. vm_compute in E. discriminate E.
Defined.

(** * The order of the two parts of a port string *)

Lemma prefix_char (c d : ascii) (s : string) :
  String.prefix (String c "") (String d s) = Ascii.eqb c d.
Proof.
  cbn [String.prefix]. destruct (ascii_dec c d) as [-> | Hne].
  - rewrite Ascii.eqb_refl. destruct s; reflexivity.
  - symmetry. apply Ascii.eqb_neq, Hne.
Qed.

Lemma find_char_none (c : ascii) (s : string) :
  Str.mem c s = false -> forall i, Str.find_from (String c "") s i = None.
Proof.
  induction s as [| d r IH]; intros Hm i; [reflexivity |].
  rewrite mem_cons in Hm. apply orb_false_iff in Hm. destruct Hm as [Hd Hr].
  cbn [Str.find_from]. rewrite prefix_char, Hd. apply IH, Hr.
Qed.

Lemma find_char_app (c : ascii) (a b : string) :
  Str.mem c a = false ->
  forall i, Str.find_from (String c "") (a +:+ String c b) i
            = Some (i + String.length a)%nat.
Proof.
  induction a as [| d r IH]; intros Hm i.
  - rewrite append_nil. cbn [Str.find_from]. rewrite prefix_char, Ascii.eqb_refl.
    cbn [String.length]. f_equal. lia.
  - rewrite mem_cons in Hm. apply orb_false_iff in Hm. destruct Hm as [Hd Hr].
    rewrite append_cons. cbn [Str.find_from]. rewrite prefix_char, Hd.
    rewrite (IH Hr). cbn [String.length]. f_equal. lia.
Qed.

Lemma find_char_some (c : ascii) (s : string) :
  forall i j, Str.find_from (String c "") s i = Some j ->
  exists a b,
    s = a +:+ String c b /\ Str.mem c a = false
    /\ j = (i + String.length a)%nat.
Proof.
  induction s as [| d r IH]; intros i j H; [discriminate H |].
  cbn [Str.find_from] in H. rewrite prefix_char in H.
  destruct (Ascii.eqb_spec c d) as [<- | Hne].
  - injection H as <-. exists EmptyString, r.
    split; [reflexivity |]. split; [reflexivity |]. cbn [String.length]. lia.
  - destruct (IH _ _ H) as (a & b & -> & Hm & ->).
    exists (String d a), b. split; [reflexivity |]. split.
    + rewrite mem_cons, Hm. apply Ascii.eqb_neq in Hne. rewrite Hne.
      reflexivity.
    + cbn [String.length]. lia.
Qed.

Lemma append_assoc_cons (a : string) (d : ascii) (b c : string) :
  (a +:+ String d b) +:+ c = a +:+ String d (b +:+ c).
Proof.
  induction a as [| x r IH]; [reflexivity |].
  rewrite !append_cons, IH. reflexivity.
Qed.

Lemma length_append (a b : string) :
  String.length (a +:+ b) = (String.length a + String.length b)%nat.
Proof.
  induction a as [| x r IH]; [reflexivity |].
  rewrite append_cons. cbn [String.length]. rewrite IH. reflexivity.
Qed.

Lemma substring_skip (a b : string) (n m : nat) :
  String.substring (String.length a + n) m (a +:+ b) = String.substring n m b.
Proof.
  induction a as [| x r IH]; [reflexivity |].
  rewrite append_cons. cbn [String.length Nat.add String.substring].
  exact IH.
Qed.

Lemma substring_whole (a : string) :
  String.substring 0 (String.length a) a = a.
Proof.
  induction a as [| x r IH]; [reflexivity |].
  cbn [String.length String.substring]. rewrite IH. reflexivity.
Qed.

Lemma substring_take (a b : string) :
  String.substring 0 (String.length a) (a +:+ b) = a.
Proof.
  induction a as [| x r IH].
  - cbn [String.length]. destruct b; reflexivity.
  - rewrite append_cons. cbn [String.length String.substring]. rewrite IH.
    reflexivity.
Qed.

Lemma substring_drop (a b : string) :
  String.substring (String.length a) (String.length b) (a +:+ b) = b.
Proof.
  rewrite <- (Nat.add_0_r (String.length a)), substring_skip.
  apply substring_whole.
Qed.

Lemma substring_mid (a b c : string) :
  String.substring (String.length a) (String.length b) (a +:+ (b +:+ c)) = b.
Proof.
  rewrite <- (Nat.add_0_r (String.length a)), substring_skip.
  apply substring_take.
Qed.

Lemma slice_from_nat (s : string) (k : nat) :
  (k <= String.length s)%nat ->
  Str.slice_from s (Z.of_nat k)
  = String.substring k (String.length s - k) s.
Proof.
  intros Hk. unfold Str.slice_from, Str.clamp, Str.len.
  replace (Z.of_nat k <? 0) with false by (symmetry; apply Z.ltb_ge; lia).
  replace (Z.max 0 (Z.min (Z.of_nat (String.length s)) (Z.of_nat k)))
    with (Z.of_nat k) by lia.
  rewrite Nat2Z.id. f_equal. lia.
Qed.

Lemma slice_nat (s : string) (a b : nat) :
  (a <= b)%nat -> (b <= String.length s)%nat ->
  Str.slice s (Z.of_nat a) (Z.of_nat b) = String.substring a (b - a) s.
Proof.
  intros Hab Hb. unfold Str.slice, Str.clamp, Str.len.
  replace (Z.of_nat a <? 0) with false by (symmetry; apply Z.ltb_ge; lia).
  replace (Z.of_nat b <? 0) with false by (symmetry; apply Z.ltb_ge; lia).
  replace (Z.max 0 (Z.min (Z.of_nat (String.length s)) (Z.of_nat a)))
    with (Z.of_nat a) by lia.
  replace (Z.max 0 (Z.min (Z.of_nat (String.length s)) (Z.of_nat b)))
    with (Z.of_nat b) by lia.
  rewrite Nat2Z.id. f_equal. lia.
Qed.

(** Two ways of cutting one text: the shorter front is a front of the
    longer one. *)
Lemma append_split (a1 x a2 y : string) :
  a1 +:+ x = a2 +:+ y -> (String.length a1 < String.length a2)%nat ->
  exists d m, a2 = a1 +:+ String d m /\ x = String d m +:+ y.
Proof.
  revert a2. induction a1 as [| c r IH]; intros a2 E Hl.
  - destruct a2 as [| d m]; [cbn in Hl; lia |].
    exists d, m. split; [reflexivity |]. rewrite append_nil in E. exact E.
  - destruct a2 as [| d m]; [cbn in Hl; lia |].
    rewrite !append_cons in E. injection E as -> E.
    cbn [String.length] in Hl.
    destruct (IH m E ltac:(lia)) as (d' & m' & -> & ->).
    exists d', m'. split; reflexivity.
Qed.

(** The shape on which [port_str_arrange] acts: the first U stands before
    the first T. *)
Lemma port_str_arrange_shape (ports : string) :
  negb (Str.find "U" ports =? -1) && negb (Str.find "T" ports =? -1)
  && (Str.find "U" ports <? Str.find "T" ports) = true ->
  exists pre mid post,
    ports = pre +:+ String "U" (mid +:+ String "T" post)
    /\ Str.mem "T" pre = false /\ Str.mem "U" pre = false
    /\ Str.mem "T" mid = false.
Proof.
  unfold Str.find. intros H.
  destruct (Str.find_from "U" ports 0) as [u |] eqn:Eu; [| discriminate H].
  destruct (Str.find_from "T" ports 0) as [t |] eqn:Et;
    [| rewrite andb_false_r in H; discriminate H].
  apply andb_true_iff in H. destruct H as [_ H]. apply Z.ltb_lt in H.
  destruct (find_char_some _ _ _ _ Eu) as (a1 & b1 & E1 & Hu1 & ->).
  destruct (find_char_some _ _ _ _ Et) as (a2 & b2 & E2 & Ht2 & ->).
  assert (E : a1 +:+ String "U" b1 = a2 +:+ String "T" b2) by congruence.
  destruct (append_split _ _ _ _ E ltac:(cbn [Nat.add] in H; lia))
    as (d & m & -> & Ex).
  rewrite append_cons in Ex. injection Ex as <- ->.
  rewrite mem_app, mem_cons in Ht2. apply orb_false_iff in Ht2.
  destruct Ht2 as [Hpre Hmid]. apply orb_false_iff in Hmid.
  exists a1, m, b2. split; [exact E1 |]. split; [exact Hpre |].
  split; [exact Hu1 | apply Hmid].
Qed.

Lemma port_str_arrange_swaps (pre mid post : string) :
  Str.mem "T" pre = false -> Str.mem "U" pre = false ->
  Str.mem "T" mid = false ->
  port_str_arrange (pre +:+ String "U" (mid +:+ String "T" post))
  = String "T" post +:+ String "U" mid.
Proof.
  intros Hpre Hu Hmid.
  set (s := pre +:+ String "U" (mid +:+ String "T" post)).
  assert (Fu : Str.find "U" s = Z.of_nat (String.length pre)).
  { unfold Str.find, s. rewrite (find_char_app "U" pre _ Hu). reflexivity. }
  assert (Es : s = (pre +:+ String "U" mid) +:+ String "T" post).
  { unfold s. rewrite append_assoc_cons. reflexivity. }
  assert (Ft : Str.find "T" s
               = Z.of_nat (String.length (pre +:+ String "U" mid))).
  { unfold Str.find. rewrite Es, (find_char_app "T"); [reflexivity |].
    rewrite mem_app, mem_cons, Hpre, Hmid. reflexivity. }
  assert (Hlen : String.length s
                 = (String.length (pre +:+ String "U" mid)
                    + S (String.length post))%nat).
  { rewrite Es, length_append. reflexivity. }
  assert (Hfront : String.length (pre +:+ String "U" mid)
                   = (String.length pre + S (String.length mid))%nat).
  { rewrite length_append. reflexivity. }
  unfold port_str_arrange. fold s. rewrite Fu, Ft.
  replace (negb (Z.of_nat (String.length pre) =? -1)) with true
    by (symmetry; apply negb_true_iff, Z.eqb_neq; lia).
  replace (negb (Z.of_nat (String.length (pre +:+ String "U" mid)) =? -1))
    with true by (symmetry; apply negb_true_iff, Z.eqb_neq; lia).
  replace (Z.of_nat (String.length pre)
           <? Z.of_nat (String.length (pre +:+ String "U" mid)))
    with true by (symmetry; apply Z.ltb_lt; lia).
  cbn [andb].
  rewrite slice_from_nat by lia. rewrite slice_nat by lia.
  replace (String.length s - String.length (pre +:+ String "U" mid))%nat
    with (String.length (String "T" post)) by (cbn [String.length]; lia).
  replace (String.length (pre +:+ String "U" mid) - String.length pre)%nat
    with (String.length (String "U" mid)) by (cbn [String.length]; lia).
  assert (A : String.substring (String.length (pre +:+ String "U" mid))
                (String.length (String "T" post)) s = String "T" post).
  { rewrite Es. apply substring_drop. }
  assert (B : String.substring (String.length pre)
                (String.length (String "U" mid)) s = String "U" mid).
  { change s with (pre +:+ (String "U" mid +:+ String "T" post)).
    apply substring_mid. }
  rewrite A, B. reflexivity.
Qed.

(** X19: [port_str_arrange] puts the TCP part first.  If the first U of the
    string stands before its first T, the string is cut at both: the
    result is the text from the T on, followed by the text from the U up
    to the T, and whatever stood before the U is dropped.  Every other
    string is returned as it is, and arranging twice is the same as
    arranging once. *)
Theorem port_str_arrange_tcp_first (ports : string) :
  (forall pre mid post,
     ports = pre +:+ String "U" (mid +:+ String "T" post) ->
     Str.mem "T" pre = false -> Str.mem "U" pre = false ->
     Str.mem "T" mid = false ->
     port_str_arrange ports = String "T" post +:+ String "U" mid)
  /\ ((forall pre mid post,
         Str.mem "T" pre = false -> Str.mem "U" pre = false ->
         Str.mem "T" mid = false ->
         ports <> pre +:+ String "U" (mid +:+ String "T" post)) ->
      port_str_arrange ports = ports)
  /\ port_str_arrange (port_str_arrange ports) = port_str_arrange ports.
Proof.
  split; [| split].
  - intros pre mid post -> Hpre Hu Hmid.
    apply port_str_arrange_swaps; assumption.
  - intros Hnot. unfold port_str_arrange.
    destruct (negb (Str.find "U" ports =? -1)
              && negb (Str.find "T" ports =? -1)
              && (Str.find "U" ports <? Str.find "T" ports)) eqn:E;
      [| reflexivity].
    destruct (port_str_arrange_shape _ E)
      as (pre & mid & post & Hs & Hpre & Hu & Hmid).
    exfalso. apply (Hnot pre mid post Hpre Hu Hmid Hs).
  - destruct (negb (Str.find "U" ports =? -1)
              && negb (Str.find "T" ports =? -1)
              && (Str.find "U" ports <? Str.find "T" ports)) eqn:E.
    + destruct (port_str_arrange_shape _ E)
        as (pre & mid & post & -> & Hpre & Hu & Hmid).
      rewrite (port_str_arrange_swaps _ _ _ Hpre Hu Hmid).
      unfold port_str_arrange.
      assert (Ft : Str.find "T" (String "T" post +:+ String "U" mid) = 0).
      { unfold Str.find. rewrite append_cons. cbn [Str.find_from].
        rewrite prefix_char. reflexivity. }
      rewrite Ft.
      assert (Hf : forall s, -1 <= Str.find "U" s).
      { intros s. unfold Str.find. destruct (Str.find_from "U" s 0); lia. }
      pose proof (Hf (String "T" post +:+ String "U" mid)) as Hge.
      destruct (Str.find "U" (String "T" post +:+ String "U" mid) =? -1) eqn:E1;
        [reflexivity |].
      apply Z.eqb_neq in E1.
      replace (Str.find "U" (String "T" post +:+ String "U" mid) <? 0)
        with false by (symmetry; apply Z.ltb_ge; lia).
      reflexivity.
    + assert (Hid : port_str_arrange ports = ports).
      { unfold port_str_arrange. rewrite E. reflexivity. }
      rewrite !Hid. reflexivity.
Qed.
